(** * Generation job orchestrator ([run_api.py]): model and properties

    The orchestrator turns a request (reference image, prompts) into a
    job for a graph-based generation engine: it copies a workflow
    template, injects the request's parameters into nodes found by
    title or kind, submits the graph, waits for the result on a push
    channel with a pull fallback, and extracts a media path from the
    engine's output payload.

    Values are the JSON-shaped Python values the program handles; a
    function that can raise returns a [result]; code that talks to the
    engine runs in a small state-and-exception monad over a store of
    graph objects and a trace of effects. *)

From Stdlib Require Import String Ascii List ZArith Lia Bool.
From Stdlib Require Import Permutation.
From Stdlib Require Import DecimalString.
From Stdlib Require DecimalPos DecimalFacts.
Import ListNotations.
Set Warnings "-register-all".
Open Scope string_scope.
Open Scope Z_scope.

(** ** Python values *)

(** A JSON-shaped Python value.  [JNull] is [None]; a [str] is held as
    its UTF-8 bytes; a [dict] keeps its items in insertion order; a
    [float] is held as the lexeme it was read from. *)
Inductive json : Type :=
| JNull
| JBool (b : bool)
| JInt (z : Z)
| JFloat (lexeme : string)
| JStr (s : string)
| JList (elems : list json)
| JDict (items : list (string * json)).

(** Exceptions: the Python class and the message [str(e)] gives.
    [TransportError] stands for the classes the HTTP and WebSocket
    clients raise on a failed exchange; the message of a decoding error
    is cut down to its kind. *)
Inductive exn_class : Type :=
| AttributeError | TypeError | KeyError | IndexError | ValueError
| JSONDecodeError | UnicodeEncodeError
| WebSocketTimeoutException | TransportError.

Record exn : Type := Exn { exn_cls : exn_class; exn_msg : string }.

Inductive result (A : Type) : Type :=
| Ok (a : A)
| Raise (e : exn).
Arguments Ok {A} a.
Arguments Raise {A} e.

Definition rbind {A B} (r : result A) (f : A -> result B) : result B :=
  match r with
  | Ok a => f a
  | Raise e => Raise e
  end.

Declare Scope result_scope.
Delimit Scope result_scope with result.
Notation "x <- r ;; k" := (rbind r (fun x => k))
  (at level 61, r at next level, right associativity) : result_scope.

(** [type(v).__name__] *)
Definition type_name (v : json) : string :=
  match v with
  | JNull => "NoneType"
  | JBool _ => "bool"
  | JInt _ => "int"
  | JFloat _ => "float"
  | JStr _ => "str"
  | JList _ => "list"
  | JDict _ => "dict"
  end.

(** [isinstance(v, dict)], [isinstance(v, list)], [isinstance(v, str)] *)
Definition is_dict (v : json) : bool :=
  match v with JDict _ => true | _ => false end.
Definition is_list (v : json) : bool :=
  match v with JList _ => true | _ => false end.
Definition is_str (v : json) : bool :=
  match v with JStr _ => true | _ => false end.

(** Truth value of an [Optional[str]]. *)
Definition truthy_opt (o : option string) : bool :=
  match o with
  | Some s => negb (String.eqb s EmptyString)
  | None => false
  end.

(** [ident and test(ident)] for an [Optional[str]] identifier: the
    test is evaluated only when the identifier is a non-empty string. *)
Definition and_ident (ident : option string) (test : string -> result bool)
  : result bool :=
  match ident with
  | Some s => if String.eqb s EmptyString then Ok false else test s
  | None => Ok false
  end.

(** [v == s] for a [str] [s]: only an equal string compares equal. *)
Definition eq_str (v : json) (s : string) : bool :=
  match v with
  | JStr t => String.eqb t s
  | _ => false
  end.

(** *** Dictionaries *)

Fixpoint dict_get (k : string) (d : list (string * json)) : option json :=
  match d with
  | [] => None
  | (k', v) :: d' => if String.eqb k' k then Some v else dict_get k d'
  end.

(** [d[k] = v]: an existing key keeps its place, a new key goes last. *)
Fixpoint dict_set (k : string) (v : json) (d : list (string * json))
  : list (string * json) :=
  match d with
  | [] => [(k, v)]
  | (k', v') :: d' =>
      if String.eqb k' k then (k', v) :: d' else (k', v') :: dict_set k v d'
  end.

Definition no_attribute (v : json) (attr : string) : exn :=
  Exn AttributeError
      ("'" ++ type_name v ++ "' object has no attribute '" ++ attr ++ "'").

(** [v.get(k, default)] *)
Definition py_get (v : json) (k : string) (default : json) : result json :=
  match v with
  | JDict d =>
      Ok (match dict_get k d with Some x => x | None => default end)
  | _ => Raise (no_attribute v "get")
  end.

(** [v.items()] *)
Definition py_items (v : json) : result (list (string * json)) :=
  match v with
  | JDict d => Ok d
  | _ => Raise (no_attribute v "items")
  end.

(** ** NodeResolver: [find_node_id] *)

(** The loop of [find_node_id] over the items still to visit.  Each
    comparison is guarded by the truth value of its identifier, so the
    lookups on [node_data] run only under a non-empty identifier. *)
Fixpoint find_node_id_loop (items : list (string * json))
    (node_title node_type : option string) : result (option string) :=
  match items with
  | [] => Ok None
  | (node_id, node_data) :: rest =>
      if is_dict node_data then
        (by_title <-
           and_ident node_title (fun t =>
             meta <- py_get node_data "_meta" (JDict []) ;;
             title <- py_get meta "title" JNull ;;
             Ok (eq_str title t)) ;;
         if by_title : bool then Ok (Some node_id)
         else
           by_type <-
             and_ident node_type (fun t =>
               kind <- py_get node_data "class_type" JNull ;;
               Ok (eq_str kind t)) ;;
           if by_type : bool then Ok (Some node_id)
           else find_node_id_loop rest node_title node_type)%result
      else find_node_id_loop rest node_title node_type
  end.

Definition find_node_id (workflow : json)
    (node_title node_type : option string) : result (option string) :=
  (items <- py_items workflow ;;
   find_node_id_loop items node_title node_type)%result.

(** ** Strings *)

Definition byte_val (c : ascii) : Z := Z.of_N (N_of_ascii c).
Definition chr (z : Z) : ascii := ascii_of_N (Z.to_N z).
Definition dquote : ascii := "034"%char.
Definition backslash : ascii := "092"%char.

(** [s.endswith(suffix)] *)
Fixpoint endswith (s suffix : string) : bool :=
  if String.eqb s suffix then true
  else
    match s with
    | EmptyString => false
    | String _ s' => endswith s' suffix
    end.

(** [s.endswith((x1, ..., xn))]: some member of the tuple is a suffix. *)
Definition endswith_any (s : string) (suffixes : list string) : bool :=
  existsb (endswith s) suffixes.

(** [sub in s] for two strings *)
Fixpoint str_contains (s sub : string) : bool :=
  if prefix sub s then true
  else
    match s with
    | EmptyString => false
    | String _ s' => str_contains s' sub
    end.

(** [sep.join(parts)] *)
Fixpoint join (sep : string) (parts : list string) : string :=
  match parts with
  | [] => EmptyString
  | [p] => p
  | p :: rest => p ++ sep ++ join sep rest
  end.

(** ** JSON text *)

(** *** Reading: [json.loads] *)

Definition is_ws (c : ascii) : bool :=
  match c with
  | " "%char | "009"%char | "010"%char | "013"%char => true
  | _ => false
  end.

Fixpoint skip_ws (s : string) : string :=
  match s with
  | String c s' => if is_ws c then skip_ws s' else s
  | EmptyString => s
  end.

Definition is_digit (c : ascii) : bool :=
  (48 <=? byte_val c) && (byte_val c <=? 57).

Definition hex_val (c : ascii) : option Z :=
  let n := byte_val c in
  if (48 <=? n) && (n <=? 57) then Some (n - 48)
  else if (97 <=? n) && (n <=? 102) then Some (n - 87)
  else if (65 <=? n) && (n <=? 70) then Some (n - 55)
  else None.

(** The longest prefix of digits, and what follows it. *)
Fixpoint span_digits (s : string) : string * string :=
  match s with
  | String c s' =>
      if is_digit c then
        let (ds, r) := span_digits s' in (String c ds, r)
      else (EmptyString, s)
  | EmptyString => (EmptyString, s)
  end.

Fixpoint digits_value (acc : Z) (ds : string) : Z :=
  match ds with
  | String c ds' => digits_value (10 * acc + (byte_val c - 48)) ds'
  | EmptyString => acc
  end.

Definition is_empty (s : string) : bool :=
  match s with EmptyString => true | _ => false end.

(** A number: an optional minus sign, an integer part (a single zero,
    or digits that start with a non-zero one), an optional fraction (a
    dot and digits) and an optional exponent (e or E, an optional sign
    and digits).  A fraction or exponent that is not complete is left
    unread.  Without either the number is an [int], with one it is a
    [float]. *)
Definition parse_number (s : string) : option (json * string) :=
  let (neg, s1) :=
    match s with
    | String "-"%char s' => (true, s')
    | _ => (false, s)
    end in
  let (ip, s2) :=
    match s1 with
    | String "0"%char s' => ("0", s')
    | _ => span_digits s1
    end in
  if is_empty ip then None
  else
    let (frac, s3) :=
      match s2 with
      | String "."%char s' =>
          let (fd, r) := span_digits s' in
          if is_empty fd then (EmptyString, s2) else (String "." fd, r)
      | _ => (EmptyString, s2)
      end in
    let (ex, s4) :=
      match s3 with
      | String c s' =>
          if orb (Ascii.eqb c "e") (Ascii.eqb c "E") then
            let (sign, s'') :=
              match s' with
              | String "+"%char r => ("+", r)
              | String "-"%char r => ("-", r)
              | _ => (EmptyString, s')
              end in
            let (ed, r) := span_digits s'' in
            if is_empty ed then (EmptyString, s3)
            else (String c (sign ++ ed), r)
          else (EmptyString, s3)
      | EmptyString => (EmptyString, s3)
      end in
    if andb (is_empty frac) (is_empty ex) then
      let n := digits_value 0 ip in
      Some (JInt (if neg : bool then - n else n), s4)
    else
      Some (JFloat ((if neg : bool then "-" else EmptyString)
                      ++ ip ++ frac ++ ex), s4).

(** *** Truth values *)

(** A float lexeme up to its exponent mark, and the exponent after
    it. *)
Fixpoint split_exponent (s : string) : string * string :=
  match s with
  | EmptyString => (EmptyString, EmptyString)
  | String c s' =>
      if orb (Ascii.eqb c "e") (Ascii.eqb c "E") then (EmptyString, s')
      else let (m, x) := split_exponent s' in (String c m, x)
  end.

(** An optional sign and digits, as a number. *)
Definition signed_value (s : string) : Z :=
  match s with
  | String "-"%char ds => - digits_value 0 ds
  | String "+"%char ds => digits_value 0 ds
  | _ => digits_value 0 s
  end.

(** The float a lexeme is read as is a zero.  The lexeme stands for
    [m * 10 ^ k], with [m] its digits and [k] its exponent less the
    length of its fraction; the nearest double is a zero exactly when
    that number is at most [2 ^ -1075], half the least positive double.
    [NaN] and the infinities have no digits and are no zeros. *)
Definition float_is_zero (lexeme : string) : bool :=
  let (mantissa, exponent) := split_exponent lexeme in
  let unsigned :=
    match mantissa with
    | String "-"%char m => m
    | _ => mantissa
    end in
  let (ip, rest) := span_digits unsigned in
  let frac :=
    match rest with
    | String "."%char f => fst (span_digits f)
    | _ => EmptyString
    end in
  let m := digits_value 0 (ip ++ frac) in
  let k := signed_value exponent - Z.of_nat (String.length frac) in
  if is_empty ip then false
  else (m =? 0) || ((k <? 0) && (m * 2 ^ 1075 <=? 10 ^ (- k))).
Arguments float_is_zero : simpl never.

(** [bool(v)]: the truth value of a JSON-shaped value. *)
Definition truthy (v : json) : bool :=
  match v with
  | JNull => false
  | JBool b => b
  | JInt z => negb (z =? 0)
  | JFloat l => negb (float_is_zero l)
  | JStr s => negb (String.eqb s EmptyString)
  | JList l => match l with [] => false | _ => true end
  | JDict d => match d with [] => false | _ => true end
  end.

(** Four hexadecimal digits. *)
Definition read_hex4 (s : string) : option (Z * string) :=
  match s with
  | String a (String b (String c (String d r))) =>
      match hex_val a, hex_val b, hex_val c, hex_val d with
      | Some x, Some y, Some z, Some w =>
          Some (((x * 16 + y) * 16 + z) * 16 + w, r)
      | _, _, _, _ => None
      end
  | _ => None
  end.

(** The UTF-8 bytes of a code point. *)
Definition utf8 (cp : Z) : string :=
  if cp <? 128 then String (chr cp) EmptyString
  else if cp <? 2048 then
    String (chr (192 + cp / 64)) (String (chr (128 + cp mod 64)) EmptyString)
  else if cp <? 65536 then
    String (chr (224 + cp / 4096))
      (String (chr (128 + (cp / 64) mod 64))
         (String (chr (128 + cp mod 64)) EmptyString))
  else
    String (chr (240 + cp / 262144))
      (String (chr (128 + (cp / 4096) mod 64))
         (String (chr (128 + (cp / 64) mod 64))
            (String (chr (128 + cp mod 64)) EmptyString))).

Definition is_high_surrogate (u : Z) : bool := (55296 <=? u) && (u <=? 56319).
Definition is_low_surrogate (u : Z) : bool := (56320 <=? u) && (u <=? 57343).

(** A simple escape: the character after the backslash. *)
Definition simple_escape (e : ascii) : option ascii :=
  match e with
  | "034"%char => Some dquote
  | "092"%char => Some backslash
  | "/"%char => Some "/"%char
  | "b"%char => Some "008"%char
  | "f"%char => Some "012"%char
  | "n"%char => Some "010"%char
  | "r"%char => Some "013"%char
  | "t"%char => Some "009"%char
  | _ => None
  end.

(** The text of a string after its opening quote: the decoded content
    and what follows the closing quote.  The decoder is strict: a raw
    control character ends the parse. *)
Fixpoint parse_string_body (fuel : nat) (s : string)
  : option (string * string) :=
  match fuel with
  | O => None
  | S fuel' =>
      match s with
      | EmptyString => None
      | String c s' =>
          if Ascii.eqb c dquote then Some (EmptyString, s')
          else if Ascii.eqb c backslash then
            match s' with
            | EmptyString => None
            | String e s'' =>
                if Ascii.eqb e "u" then
                  match read_hex4 s'' with
                  | None => None
                  | Some (u, r) =>
                      let single :=
                        match parse_string_body fuel' r with
                        | Some (t, r') => Some (utf8 u ++ t, r')
                        | None => None
                        end in
                      if is_high_surrogate u then
                        match r with
                        | String "092"%char (String "u"%char r2) =>
                            match read_hex4 r2 with
                            | None => None
                            | Some (u2, r3) =>
                                if is_low_surrogate u2 then
                                  match parse_string_body fuel' r3 with
                                  | Some (t, r') =>
                                      Some (utf8 (65536
                                                  + (u - 55296) * 1024
                                                  + (u2 - 56320)) ++ t, r')
                                  | None => None
                                  end
                                else single
                            end
                        | _ => single
                        end
                      else single
                  end
                else
                  match simple_escape e with
                  | None => None
                  | Some x =>
                      match parse_string_body fuel' s'' with
                      | Some (t, r') => Some (String x t, r')
                      | None => None
                      end
                  end
            end
          else if byte_val c <? 32 then None
          else
            match parse_string_body fuel' s' with
            | Some (t, r') => Some (String c t, r')
            | None => None
            end
      end
  end.

Definition parse_string (s : string) : option (string * string) :=
  parse_string_body (S (String.length s)) s.

(** A literal [lit] at the head of [s]. *)
Definition expect (lit s : string) : option string :=
  if prefix lit s
  then Some (substring (String.length lit)
                       (String.length s - String.length lit) s)
  else None.

(** A dictionary from its pairs in reading order: a key read again
    keeps its first place and takes the later value. *)
Definition dict_of_pairs (pairs : list (string * json))
  : list (string * json) :=
  fold_left (fun d kv => dict_set (fst kv) (snd kv) d) pairs [].

(** One value at the head of [s], and what follows it. *)
Fixpoint parse_value (fuel : nat) (s : string) : option (json * string) :=
  match fuel with
  | O => None
  | S fuel' =>
      match s with
      | EmptyString => None
      | String c s' =>
          if Ascii.eqb c dquote then
            match parse_string s' with
            | Some (t, r) => Some (JStr t, r)
            | None => None
            end
          else if Ascii.eqb c "[" then
            match skip_ws s' with
            | String "]"%char r => Some (JList [], r)
            | s1 =>
                match parse_elements fuel' s1 with
                | Some (vs, r) => Some (JList vs, r)
                | None => None
                end
            end
          else if Ascii.eqb c "{" then
            match skip_ws s' with
            | String "}"%char r => Some (JDict [], r)
            | s1 =>
                match parse_members fuel' s1 with
                | Some (kvs, r) => Some (JDict (dict_of_pairs kvs), r)
                | None => None
                end
            end
          else if Ascii.eqb c "n" then
            option_map (pair JNull) (expect "null" s)
          else if Ascii.eqb c "t" then
            option_map (pair (JBool true)) (expect "true" s)
          else if Ascii.eqb c "f" then
            option_map (pair (JBool false)) (expect "false" s)
          else if Ascii.eqb c "N" then
            option_map (pair (JFloat "NaN")) (expect "NaN" s)
          else if Ascii.eqb c "I" then
            option_map (pair (JFloat "Infinity")) (expect "Infinity" s)
          else
            match expect "-Infinity" s with
            | Some r => Some (JFloat "-Infinity", r)
            | None => parse_number s
            end
      end
  end

with parse_elements (fuel : nat) (s : string)
  : option (list json * string) :=
  match fuel with
  | O => None
  | S fuel' =>
      match parse_value fuel' s with
      | None => None
      | Some (v, r) =>
          match skip_ws r with
          | String ","%char r1 =>
              match parse_elements fuel' (skip_ws r1) with
              | Some (vs, r2) => Some (v :: vs, r2)
              | None => None
              end
          | String "]"%char r1 => Some ([v], r1)
          | _ => None
          end
      end
  end

with parse_members (fuel : nat) (s : string)
  : option (list (string * json) * string) :=
  match fuel with
  | O => None
  | S fuel' =>
      match s with
      | String "034"%char s1 =>
          match parse_string s1 with
          | None => None
          | Some (k, r) =>
              match skip_ws r with
              | String ":"%char r1 =>
                  match parse_value fuel' (skip_ws r1) with
                  | None => None
                  | Some (v, r2) =>
                      match skip_ws r2 with
                      | String ","%char r3 =>
                          match parse_members fuel' (skip_ws r3) with
                          | Some (kvs, r4) => Some ((k, v) :: kvs, r4)
                          | None => None
                          end
                      | String "}"%char r3 => Some ([(k, v)], r3)
                      | _ => None
                      end
                  end
              | _ => None
              end
          end
      | _ => None
      end
  end.

(** [json.loads(s)] for a [str] or [bytes] [s]: one value between
    optional white space, and nothing after it. *)
Definition json_loads_text (s : string) : result json :=
  match parse_value (2 * String.length s + 4) (skip_ws s) with
  | Some (v, r) =>
      if is_empty (skip_ws r) then Ok v
      else Raise (Exn JSONDecodeError "Extra data")
  | None => Raise (Exn JSONDecodeError "Expecting value")
  end.

(** [json.loads(v)] for any JSON-shaped value [v]: only text is read. *)
Definition json_loads (v : json) : result json :=
  match v with
  | JStr s => json_loads_text s
  | _ =>
      Raise (Exn TypeError
               ("the JSON object must be str, bytes or bytearray, not "
                  ++ type_name v))
  end.

(** *** Writing: [json.dumps] *)

Definition hex_digit (z : Z) : ascii :=
  if z <? 10 then chr (48 + z) else chr (87 + z).

(** [\uXXXX] with lower-case digits. *)
Definition u_escape (u : Z) : string :=
  String backslash
    (String "u"
       (String (hex_digit ((u / 4096) mod 16))
          (String (hex_digit ((u / 256) mod 16))
             (String (hex_digit ((u / 16) mod 16))
                (String (hex_digit (u mod 16)) EmptyString))))).

(** One code point as [json.dumps] writes it with [ensure_ascii]. *)
Definition escape_code_point (cp : Z) : string :=
  if cp =? 34 then String backslash (String dquote EmptyString)
  else if cp =? 92 then String backslash (String backslash EmptyString)
  else if cp =? 10 then String backslash "n"
  else if cp =? 13 then String backslash "r"
  else if cp =? 9 then String backslash "t"
  else if cp =? 12 then String backslash "f"
  else if cp =? 8 then String backslash "b"
  else if (32 <=? cp) && (cp <=? 126) then String (chr cp) EmptyString
  else if cp <? 65536 then u_escape cp
  else
    let v := cp - 65536 in
    u_escape (55296 + v / 1024) ++ u_escape (56320 + v mod 1024).

Definition is_cont (c : ascii) : bool :=
  (128 <=? byte_val c) && (byte_val c <? 192).
Definition cont (c : ascii) : Z := byte_val c - 128.

(** The escaped text of a [str], read code point by code point from
    its UTF-8 bytes.  A byte that starts no well-formed sequence, which
    the bytes of a [str] never hold, is written as the code point of
    its own value. *)
Fixpoint escape_text (s : string) : string :=
  match s with
  | EmptyString => EmptyString
  | String b0 s1 =>
      let n := byte_val b0 in
      let one := escape_code_point n ++ escape_text s1 in
      if n <? 192 then one
      else
        match s1 with
        | EmptyString => one
        | String b1 s2 =>
            if negb (is_cont b1) then one
            else if n <? 224 then
              escape_code_point ((n - 192) * 64 + cont b1) ++ escape_text s2
            else
              match s2 with
              | EmptyString => one
              | String b2 s3 =>
                  if negb (is_cont b2) then one
                  else if n <? 240 then
                    escape_code_point
                      (((n - 224) * 64 + cont b1) * 64 + cont b2)
                      ++ escape_text s3
                  else
                    match s3 with
                    | EmptyString => one
                    | String b3 s4 =>
                        if negb (is_cont b3) then one
                        else
                          escape_code_point
                            ((((n - 240) * 64 + cont b1) * 64 + cont b2) * 64
                             + cont b3)
                            ++ escape_text s4
                    end
              end
        end
  end.

Definition quote (s : string) : string :=
  String dquote (escape_text s ++ String dquote EmptyString).

(** [json.dumps(v)] with the default separators. *)
Fixpoint json_dumps (v : json) : string :=
  match v with
  | JNull => "null"
  | JBool true => "true"
  | JBool false => "false"
  | JInt z => NilZero.string_of_int (Z.to_int z)
  | JFloat l => l
  | JStr s => quote s
  | JList l => "[" ++ join ", " (map json_dumps l) ++ "]"
  | JDict d =>
      "{" ++ join ", "
               (map (fun kv : string * json =>
                       let (k, x) := kv in quote k ++ ": " ++ json_dumps x) d)
          ++ "}"
  end.

(** *** The body of a response: [JSONResponse.render] *)

(** One byte of a [str] as [json.dumps] writes it with
    [ensure_ascii=False]: the quote, the backslash and the control
    characters are escaped, every other byte is kept. *)
Definition escape_raw_byte (c : ascii) : string :=
  let n := byte_val c in
  if n =? 34 then String backslash (String dquote EmptyString)
  else if n =? 92 then String backslash (String backslash EmptyString)
  else if n =? 10 then String backslash "n"
  else if n =? 13 then String backslash "r"
  else if n =? 9 then String backslash "t"
  else if n =? 12 then String backslash "f"
  else if n =? 8 then String backslash "b"
  else if n <? 32 then u_escape n
  else String c EmptyString.

Fixpoint escape_raw (s : string) : string :=
  match s with
  | EmptyString => EmptyString
  | String c s' => escape_raw_byte c ++ escape_raw s'
  end.

Definition quote_raw (s : string) : string :=
  String dquote (escape_raw s ++ String dquote EmptyString).

(** The text [JSONResponse] renders for the content
    [{"generated_video_path": path}]:
    [json.dumps(content, ensure_ascii=False, separators=(",", ":"))]. *)
Definition success_body (path : string) : string :=
  "{" ++ quote_raw "generated_video_path" ++ ":" ++ quote_raw path ++ "}".

(** A byte from 160 to 191 at the head of a text. *)
Definition high_head (s : string) : bool :=
  match s with
  | String b _ => (160 <=? byte_val b) && (byte_val b <? 192)
  | EmptyString => false
  end.

(** A surrogate code point at the head of the bytes of a text.  An
    escape [\uXXXX] can bring one into a [str]; it is held as three
    bytes, the first 237 and the second from 160 on. *)
Definition starts_surrogate (s : string) : bool :=
  match s with
  | String b0 rest => (byte_val b0 =? 237) && high_head rest
  | EmptyString => false
  end.

Definition surrogate_code (s : string) : Z :=
  match s with
  | String _ (String b1 (String b2 _)) => 53248 + cont b1 * 64 + cont b2
  | _ => 0
  end.

(** The first surrogate of a text: the index of its code point, and
    the text from it on.  A code point starts at each byte that is no
    continuation byte. *)
Fixpoint first_surrogate (s : string) (index : Z) : option (Z * string) :=
  match s with
  | EmptyString => None
  | String c s' =>
      if starts_surrogate s then Some (index, s)
      else first_surrogate s' (if is_cont c then index else index + 1)
  end.

(** The surrogates that follow one another at the head of a text;
    [skip] bytes of the one being passed are still to go. *)
Fixpoint surrogate_run (s : string) (skip : nat) : Z :=
  match s with
  | EmptyString => 0
  | String _ s' =>
      match skip with
      | S k => surrogate_run s' k
      | O => if starts_surrogate s then 1 + surrogate_run s' 2 else 0
      end
  end.

Definition decimal (z : Z) : string := NilZero.string_of_int (Z.to_int z).

(** [text.encode("utf-8")]: a text that holds a surrogate cannot be
    encoded; the error names the first run of surrogates. *)
Definition utf8_encode (text : string) : result string :=
  match first_surrogate text 0 with
  | None => Ok text
  | Some (start, from_it) =>
      let n := surrogate_run from_it 0 in
      Raise
        (Exn UnicodeEncodeError
           (if n =? 1 then
              "'utf-8' codec can't encode character '"
                ++ u_escape (surrogate_code from_it)
                ++ "' in position " ++ decimal start
                ++ ": surrogates not allowed"
            else
              "'utf-8' codec can't encode characters in position "
                ++ decimal start ++ "-" ++ decimal (start + n - 1)
                ++ ": surrogates not allowed"))
  end.

(** A text that holds no surrogate. *)
Fixpoint encodable (s : string) : bool :=
  match s with
  | EmptyString => true
  | String _ s' => negb (starts_surrogate s) && encodable s'
  end.

(** ** Indexing and membership *)

Definition key_error (k : string) : exn :=
  Exn KeyError ("'" ++ k ++ "'").

Definition has_key (k : string) (d : list (string * json)) : bool :=
  match dict_get k d with Some _ => true | None => false end.

(** [k in v] for a [str] [k] *)
Definition py_contains (v : json) (k : string) : result bool :=
  match v with
  | JDict d => Ok (has_key k d)
  | JList l => Ok (existsb (fun x => eq_str x k) l)
  | JStr s => Ok (str_contains s k)
  | _ =>
      Raise (Exn TypeError
               ("argument of type '" ++ type_name v ++ "' is not iterable"))
  end.

(** [v[k]] for a [str] [k] *)
Definition py_getitem (v : json) (k : string) : result json :=
  match v with
  | JDict d =>
      match dict_get k d with
      | Some x => Ok x
      | None => Raise (key_error k)
      end
  | JList _ =>
      Raise (Exn TypeError "list indices must be integers or slices, not str")
  | JStr _ =>
      Raise (Exn TypeError "string indices must be integers, not 'str'")
  | _ =>
      Raise (Exn TypeError
               ("'" ++ type_name v ++ "' object is not subscriptable"))
  end.

(** [v[i]] for a list [v] and a position [i] counted from its start *)
Definition py_index (v : json) (i : nat) : result json :=
  match v with
  | JList l =>
      match nth_error l i with
      | Some x => Ok x
      | None => Raise (Exn IndexError "list index out of range")
      end
  | JStr s =>
      match String.get i s with
      | Some c => Ok (JStr (String c EmptyString))
      | None => Raise (Exn IndexError "string index out of range")
      end
  | JDict _ =>
      Raise (Exn KeyError (NilZero.string_of_int (Z.to_int (Z.of_nat i))))
  | _ =>
      Raise (Exn TypeError
               ("'" ++ type_name v ++ "' object is not subscriptable"))
  end.

(** [v[k] = x] for a [str] [k]: the value [v] becomes. *)
Definition py_setitem (v : json) (k : string) (x : json) : result json :=
  match v with
  | JDict d => Ok (JDict (dict_set k x d))
  | JList _ =>
      Raise (Exn TypeError "list indices must be integers or slices, not str")
  | _ =>
      Raise (Exn TypeError
               ("'" ++ type_name v
                    ++ "' object does not support item assignment"))
  end.

(** [len(v) > 1] for a list *)
Definition longer_than_one (l : list json) : bool :=
  match l with
  | _ :: _ :: _ => true
  | _ => false
  end.

(** ** OutputExtractor: [parse_video_path_from_output] *)

Definition media_suffixes : list string := [".mp4"; ".webm"; ".avi"; ".mov"].

(** The loop over [path_list]: the first [str] with a media suffix. *)
Fixpoint first_media_path (path_list : list json) : option string :=
  match path_list with
  | [] => None
  | path :: rest =>
      match path with
      | JStr p =>
          if endswith_any p media_suffixes then Some p
          else first_media_path rest
      | _ => first_media_path rest
      end
  end.

(** [try: ... except Exception: return None] *)
Definition except_none {A} (body : result (option A)) : result (option A) :=
  match body with
  | Ok r => Ok r
  | Raise _ => Ok None
  end.

Definition parse_video_path_from_output (outputs : json)
  : result (option string) :=
  (has_text <- py_contains outputs "text" ;;
   if negb has_text then Ok None
   else
     text <- py_getitem outputs "text" ;;
     if negb (is_list text) then Ok None
     else if negb (truthy text) then Ok None
     else
       stringified_list <- py_index text 0 ;;
       except_none
         (parsed_list <- json_loads stringified_list ;;
          match parsed_list with
          | JList elems =>
              if longer_than_one elems then
                path_list <- py_index parsed_list 1 ;;
                match path_list with
                | JList paths => Ok (first_media_path paths)
                | _ => Ok None
                end
              else Ok None
          | _ => Ok None
          end))%result.

(** ** The world of a request *)

(** The image of a request: an uploaded file, or base64 text. *)
Inductive image_data : Type :=
| UploadFile (filename content_type content : string)
| Base64Text (text : string).

(** What [print] writes, one constructor for each message of the
    program. *)
Inductive log_line : Type :=
| LogConnecting
| LogReceived (message : json)
| LogFoundExecuted (target_node_id : string)
| LogWebSocketTimedOut
| LogWebSocketError (e : exn)
| LogFallingBack
| LogQueueError (e : exn)
| LogHistoryError (e : exn)
| LogSeedRandomized (node_id : string) (seed : Z)
| LogKSamplerNotFound
| LogTraceback (e : exn)
| LogWorkflowNotFound (path : string)
| LogLoadingWorkflow (path : string)
| LogWorkflowLoaded
| LogStartingServer (host : string) (port : Z)
| LogMode
| LogVerboseOn.

(** The effects of the program, in the order they happen.  A network
    call is recorded when it is attempted, whatever its outcome. *)
Inductive event : Type :=
| EUpload (server filename content content_type : string)
| ESubmit (server body : string)
| EWsConnect (server client : string)
| EWsRecv (waited : Z)
| EWsClose
| EHistory (server : string) (prompt_id : json)
| ESleep (seconds : Z)
| EPrint (line : log_line).

(** What the push channel delivers to one [recv], [gap] seconds after
    the call: a text or binary frame, or a failure of the transport,
    after which the socket may or may not still count as connected.
    Control frames, which the client answers inside [recv], are left
    out. *)
Inductive arrival : Type :=
| Frame (gap : N) (is_text : bool) (data : string)
| Failure (gap : N) (e : exn) (still_connected : bool).

(** The surroundings of one request: [base64.b64decode] of the
    library, the random source, and the engine's answers.  A reply is
    the body of a response the HTTP client accepts ([urlopen], or
    [requests.post] with [raise_for_status]), or the exception the
    client raises.  After the last of [ws_arrivals] the channel stays
    silent. *)
Record env : Type := {
  b64decode : string -> result string;
  upload_reply : result string;
  entropy : Z;
  prompt_reply : result string;
  ws_connect : result unit;
  ws_arrivals : list arrival;
  history_reply : result string
}.

(** The objects that outlive a statement: graphs, addressed by handle,
    and sockets with their [connected] flag; and the trace. *)
Record world : Type := {
  store : list json;
  sockets : list bool;
  trace : list event
}.

(** The module's globals. *)
Record process : Type := {
  server_address : string;
  client_id : string;
  workflow_api_json : nat;
  VERBOSE : bool
}.

Record response : Type := JSONResponse {
  status_code : Z;
  content : json
}.

(** *** State and exceptions *)

Definition M (A : Type) : Type := world -> result A * world.

Definition ret {A} (a : A) : M A := fun w => (Ok a, w).

Definition raise {A} (e : exn) : M A := fun w => (Raise e, w).

Definition bind {A B} (m : M A) (f : A -> M B) : M B :=
  fun w =>
    match m w with
    | (Ok a, w') => f a w'
    | (Raise e, w') => (Raise e, w')
    end.

Definition lift {A} (r : result A) : M A := fun w => (r, w).

(** [try: m  except Exception as e: handler(e)] *)
Definition try_except {A} (m : M A) (handler : exn -> M A) : M A :=
  fun w =>
    match m w with
    | (Ok a, w') => (Ok a, w')
    | (Raise e, w') => handler e w'
    end.

(** [try: m  finally: cleanup], for a cleanup that does not raise. *)
Definition try_finally {A} (m : M A) (cleanup : M unit) : M A :=
  fun w =>
    let (r, w') := m w in
    (r, snd (cleanup w')).

Declare Scope M_scope.
Delimit Scope M_scope with M.
Notation "x <- m ;; k" := (bind m (fun x => k))
  (at level 61, m at next level, right associativity) : M_scope.
Notation "m ;; k" := (bind m (fun _ => k))
  (at level 61, right associativity) : M_scope.

Definition emit (ev : event) : M unit :=
  fun w => (Ok tt, {| store := store w; sockets := sockets w;
                      trace := trace w ++ [ev] |}).

Definition print (line : log_line) : M unit := emit (EPrint line).

Definition when (b : bool) (m : M unit) : M unit :=
  if b then m else ret tt.

(** A new object of the store, and its handle. *)
Definition alloc (v : json) : M nat :=
  fun w => (Ok (length (store w)),
            {| store := store w ++ [v]; sockets := sockets w;
               trace := trace w |}).

(** The object at a handle.  A handle the program holds always names
    an object; the other case is there to make the function total. *)
Definition load (h : nat) : M json :=
  fun w =>
    match nth_error (store w) h with
    | Some v => (Ok v, w)
    | None => (Raise (Exn ValueError "no such object"), w)
    end.

Fixpoint replace_nth {A} (n : nat) (x : A) (l : list A) : list A :=
  match l, n with
  | [], _ => []
  | _ :: l', O => x :: l'
  | y :: l', S n' => y :: replace_nth n' x l'
  end.

Definition put (h : nat) (v : json) : M unit :=
  fun w => (Ok tt, {| store := replace_nth h v (store w);
                      sockets := sockets w; trace := trace w |}).

(** [websocket.WebSocket()]: a socket that is not connected. *)
Definition new_socket : M nat :=
  fun w => (Ok (length (sockets w)),
            {| store := store w; sockets := sockets w ++ [false];
               trace := trace w |}).

Definition set_connected (ws : nat) (c : bool) : M unit :=
  fun w => (Ok tt, {| store := store w;
                      sockets := replace_nth ws c (sockets w);
                      trace := trace w |}).

(** [ws.connected] *)
Definition connected (ws : nat) : M bool :=
  fun w => (Ok (nth ws (sockets w) false), w).

(** ** Talking to the engine *)

(** [v.get(k, default)] for a key [k] that is any JSON-shaped value:
    the keys of a dictionary are strings, so only a string can be
    found; a list or dictionary cannot be hashed. *)
Definition py_get_key (v k default : json) : result json :=
  match v with
  | JDict d =>
      match k with
      | JStr s => py_get v s default
      | JList _ | JDict _ =>
          Raise (Exn TypeError ("unhashable type: '" ++ type_name k ++ "'"))
      | _ => Ok default
      end
  | _ => Raise (no_attribute v "get")
  end.

(** JobSubmitter.  [None] is returned as [JNull]. *)
Definition queue_prompt (p : process) (e : env) (prompt_workflow : nat)
  : M json :=
  try_except
    (g <- load prompt_workflow ;;
     let data :=
       json_dumps (JDict [("prompt", g); ("client_id", JStr (client_id p))]) in
     emit (ESubmit (server_address p) data) ;;
     body <- lift (prompt_reply e) ;;
     lift (json_loads_text body))%M
    (fun ex => print (LogQueueError ex) ;; ret JNull)%M.

Definition get_history (p : process) (e : env) (prompt_id : json) : M json :=
  try_except
    (emit (EHistory (server_address p) prompt_id) ;;
     body <- lift (history_reply e) ;;
     lift (json_loads_text body))%M
    (fun ex => print (LogHistoryError ex) ;; ret (JDict []))%M.

(** The value given to [ws.settimeout]: the timeout of the socket,
    which bounds each blocking read, so the seconds one [recv] waits
    for the next frame. *)
Definition ws_timeout : Z := 300.

Definition gap_of (a : arrival) : Z :=
  match a with
  | Frame gap _ _ => Z.of_N gap
  | Failure gap _ _ => Z.of_N gap
  end.

Definition timed_out : exn := Exn WebSocketTimeoutException "timed out".

(** The [while True] loop of [get_final_video_path].  Each round is one
    [recv], which waits for the next arrival for at most [ws_timeout]
    seconds; the value is what the loop returns from the function. *)
Fixpoint listen (p : process) (ws : nat) (target_node_id : string)
    (arrivals : list arrival) : M (option string) :=
  match arrivals with
  | [] => (emit (EWsRecv ws_timeout) ;; raise timed_out)%M
  | a :: rest =>
      if ws_timeout <=? gap_of a then
        (emit (EWsRecv ws_timeout) ;; raise timed_out)%M
      else
        (emit (EWsRecv (gap_of a)) ;;
         match a with
         | Failure _ ex still => (set_connected ws still ;; raise ex)
         | Frame _ false _ => listen p ws target_node_id rest
         | Frame _ true out =>
             message <- lift (json_loads_text out) ;;
             when (VERBOSE p) (print (LogReceived message)) ;;
             type <- lift (py_get message "type" JNull) ;;
             executed_target <-
               (if eq_str type "executed" then
                  data <- lift (py_get message "data" (JDict [])) ;;
                  node <- lift (py_get data "node" JNull) ;;
                  ret (eq_str node target_node_id)
                else ret false) ;;
             if executed_target : bool then
               when (VERBOSE p) (print (LogFoundExecuted target_node_id)) ;;
               data <- lift (py_get message "data" (JDict [])) ;;
               outputs <- lift (py_get data "output" (JDict [])) ;;
               lift (parse_video_path_from_output outputs)
             else listen p ws target_node_id rest
         end)%M
  end.

(** CompletionWatcher, the push channel (lines 76 to 95 of
    [get_final_video_path]): [Some r] when the [try] statement returns
    [r] from the function, [None] when control leaves it after a
    handler. *)
Definition watch_push (p : process) (e : env) (target_node_id : string)
  : M (option (option string)) :=
  (ws <- new_socket ;;
   try_finally
     (try_except
        (when (VERBOSE p) (print LogConnecting) ;;
         emit (EWsConnect (server_address p) (client_id p)) ;;
         lift (ws_connect e) ;;
         set_connected ws true ;;
         r <- listen p ws target_node_id (ws_arrivals e) ;;
         ret (Some r))
        (fun ex =>
           match exn_cls ex with
           | WebSocketTimeoutException => print LogWebSocketTimedOut
           | _ => print (LogWebSocketError ex)
           end ;;
           ret None))
     (c <- connected ws ;;
      when c (emit EWsClose ;; set_connected ws false)))%M.

(** CompletionWatcher, the pull fallback (lines 96 to 101). *)
Definition poll_history (p : process) (e : env)
    (prompt_id : json) (target_node_id : string) : M (option string) :=
  (print LogFallingBack ;;
   emit (ESleep 1) ;;
   reply <- get_history p e prompt_id ;;
   history <- lift (py_get_key reply prompt_id (JDict [])) ;;
   present <-
     (if truthy history then
        outputs <- lift (py_get history "outputs" (JDict [])) ;;
        lift (py_contains outputs target_node_id)
      else ret false) ;;
   if present : bool then
     outputs <- lift (py_getitem history "outputs") ;;
     payload <- lift (py_getitem outputs target_node_id) ;;
     lift (parse_video_path_from_output payload)
   else ret None)%M.

Definition get_final_video_path (p : process) (e : env)
    (prompt_id : json) (target_node_id : string) : M (option string) :=
  (pushed <- watch_push p e target_node_id ;;
   match pushed with
   | Some r => ret r
   | None => poll_history p e prompt_id target_node_id
   end)%M.

Definition upload_image (p : process) (e : env) (image : image_data)
  : M json :=
  (files <-
     match image with
     | Base64Text text =>
         img_bytes <- lift (b64decode e text) ;;
         ret ("image.png", img_bytes, "image/png")
     | UploadFile filename content_type file_content =>
         ret (filename, file_content, content_type)
     end ;;
   let '(filename, file_content, content_type) := files in
   emit (EUpload (server_address p) filename file_content content_type) ;;
   body <- lift (upload_reply e) ;;
   reply <- lift (json_loads_text body) ;;
   lift (py_getitem reply "name"))%M.

(** ** ParameterInjector and the request handler *)

(** [random.randint(lo, hi)], drawn from the entropy of the request. *)
Definition randint (lo hi entropy : Z) : Z := lo + entropy mod (hi - lo + 1).

Definition seed_max : Z := 999999999999999.

(** [graph[node_id]["inputs"][field] = x] on the graph at handle [h].
    The write lands in the dictionary the node holds under [inputs];
    the graph that holds the node shows it. *)
Definition set_input (h : nat) (node_id field : string) (x : json) : M unit :=
  (g <- load h ;;
   node <- lift (py_getitem g node_id) ;;
   inputs <- lift (py_getitem node "inputs") ;;
   inputs' <- lift (py_setitem inputs field x) ;;
   node' <- lift (py_setitem node "inputs" inputs') ;;
   g' <- lift (py_setitem g node_id node') ;;
   put h g')%M.

(** [find_node_id] on the graph at a handle. *)
Definition find_node_id_at (h : nat) (node_title node_type : option string)
  : M (option string) :=
  (g <- load h ;; lift (find_node_id g node_title node_type))%M.

Definition error_content (detail : string) : json :=
  JDict [("error", JStr detail)].

Definition required_titles : list string :=
  ["load_image"; "positive_prompt"; "negative_prompt"; "output_paths"].

Definition queue_failed : string := "Failed to queue prompt in ComfyUI.".

Definition no_video_path : string :=
  "Generation finished, but failed to extract video path. "
    ++ "Run with --verbose for details.".

(** The [missing] list of the handler: the titles whose identifier
    is not truthy. *)
Definition missing_titles (found : list (string * option string))
  : list string :=
  map fst (filter (fun tn => negb (truthy_opt (snd tn))) found).

Definition missing_detail (missing : list string) : string :=
  "Could not find required nodes. Missing titles: " ++ join ", " missing.

(** How the injection ends: with the response that reports missing
    nodes, or with the graph to submit and its output node. *)
Inductive injection : Type :=
| Incomplete (resp : response)
| Injected (prompt_workflow : nat) (output_node_id : string).

(** ParameterInjector (lines 125 to 154 of [generate_video]). *)
Definition inject_parameters (p : process) (e : env)
    (image : image_data) (prompt negative_prompt : string) : M injection :=
  (template <- load (workflow_api_json p) ;;
   copy <- lift (json_loads (JStr (json_dumps template))) ;;
   prompt_workflow <- alloc copy ;;

   image_node_id <-
     find_node_id_at prompt_workflow (Some "load_image") None ;;
   pos_prompt_node_id <-
     find_node_id_at prompt_workflow (Some "positive_prompt") None ;;
   neg_prompt_node_id <-
     find_node_id_at prompt_workflow (Some "negative_prompt") None ;;
   output_node_id <-
     find_node_id_at prompt_workflow (Some "output_paths") None ;;
   k_sampler_node_id <-
     find_node_id_at prompt_workflow None (Some "KSampler") ;;

   if negb (forallb truthy_opt
              [image_node_id; pos_prompt_node_id;
               neg_prompt_node_id; output_node_id])
   then
     let missing :=
       missing_titles
         [("load_image", image_node_id);
          ("positive_prompt", pos_prompt_node_id);
          ("negative_prompt", neg_prompt_node_id);
          ("output_paths", output_node_id)] in
     ret (Incomplete
            (JSONResponse 404 (error_content (missing_detail missing))))
   else
     match image_node_id, pos_prompt_node_id,
           neg_prompt_node_id, output_node_id with
     | Some image_id, Some pos_id, Some neg_id, Some output_id =>
         image_filename <- upload_image p e image ;;
         set_input prompt_workflow image_id "image" image_filename ;;
         set_input prompt_workflow pos_id "text" (JStr prompt) ;;
         set_input prompt_workflow neg_id "text" (JStr negative_prompt) ;;

         match k_sampler_node_id with
         | Some k_sampler_id =>
             if truthy_opt k_sampler_node_id then
               let random_seed := randint 0 seed_max (entropy e) in
               set_input prompt_workflow k_sampler_id "seed"
                 (JInt random_seed) ;;
               when (VERBOSE p)
                 (print (LogSeedRandomized k_sampler_id random_seed))
             else when (VERBOSE p) (print LogKSamplerNotFound)
         | None => when (VERBOSE p) (print LogKSamplerNotFound)
         end ;;
         ret (Injected prompt_workflow output_id)
     | _, _, _, _ =>
         (* not reached: the four identifiers are truthy *)
         raise (Exn KeyError "None")
     end)%M.

(** The response for the path the watcher returns (lines 164 to 167).
    [JSONResponse] renders and encodes its body when it is made, so
    making the response of line 167 raises when the path cannot be
    encoded.  The bodies of the other responses of the handler are
    fixed texts, or the text of an exception, which Python writes with
    what cannot be encoded escaped; the texts of the exceptions of the
    environment are taken to be so too. *)
Definition respond (video_path : option string) : result response :=
  match video_path with
  | Some path =>
      if truthy_opt video_path then
        (_ <- utf8_encode (success_body path) ;;
         Ok (JSONResponse 200 (JDict [("generated_video_path", JStr path)])))
          %result
      else Ok (JSONResponse 500 (error_content no_video_path))
  | None => Ok (JSONResponse 500 (error_content no_video_path))
  end.

(** Submission and completion (lines 156 to 167 of [generate_video]). *)
Definition submit_and_wait (p : process) (e : env)
    (prompt_workflow : nat) (output_node_id : string) : M response :=
  (queued_item <- queue_prompt p e prompt_workflow ;;
   has_id <-
     (if truthy queued_item
      then lift (py_contains queued_item "prompt_id")
      else ret false) ;;
   if negb has_id then
     ret (JSONResponse 500 (error_content queue_failed))
   else
     prompt_id <- lift (py_getitem queued_item "prompt_id") ;;
     video_path <- get_final_video_path p e prompt_id output_node_id ;;
     lift (respond video_path))%M.

(** The handler of [POST /generate-video]: injection, then submission
    and completion, all inside the [try] whose handler answers 500
    with the text of the exception. *)
Definition generate_video (p : process) (e : env)
    (image : image_data) (prompt negative_prompt : string) : M response :=
  try_except
    (injected <- inject_parameters p e image prompt negative_prompt ;;
     match injected with
     | Incomplete resp => ret resp
     | Injected prompt_workflow output_node_id =>
         submit_and_wait p e prompt_workflow output_node_id
     end)%M
    (fun ex =>
       print (LogTraceback ex) ;;
       ret (JSONResponse 500 (error_content (exn_msg ex))))%M.

(** What the handler answers when its body ends with [r]: the
    response, or status 500 with the text of the exception. *)
Definition caught (r : result response) : response :=
  match r with
  | Ok resp => resp
  | Raise ex => JSONResponse 500 (error_content (exn_msg ex))
  end.

(** ** The process *)

(** The globals as the module sets them when it is loaded; [uuid4] is
    the text of the identifier drawn then. *)
Definition load_module (uuid4 : string) : M process :=
  (h <- alloc (JDict []) ;;
   ret {| server_address := "127.0.0.1:8188";
          client_id := uuid4;
          workflow_api_json := h;
          VERBOSE := false |})%M.

Record arguments : Type := {
  arg_host : string;
  arg_port : Z;
  arg_comfyui_url : string;
  arg_workflow : string;
  arg_verbose : bool
}.

(** [main] up to the call that starts the server: the globals the
    server runs with, or [None] when the workflow is not a file.
    [file] is the content of the workflow file, if it is one. *)
Definition main (args : arguments) (file : option string) (p : process)
  : M (option process) :=
  match file with
  | None => (print (LogWorkflowNotFound (arg_workflow args)) ;; ret None)%M
  | Some text =>
      (print (LogLoadingWorkflow (arg_workflow args)) ;;
       loaded <- lift (json_loads_text text) ;;
       h <- alloc loaded ;;
       print LogWorkflowLoaded ;;
       print (LogStartingServer (arg_host args) (arg_port args)) ;;
       print LogMode ;;
       when (arg_verbose args) (print LogVerboseOn) ;;
       ret (Some {| server_address := arg_comfyui_url args;
                    client_id := client_id p;
                    workflow_api_json := h;
                    VERBOSE := arg_verbose args |}))%M
  end.

(** One call of the handler, with the surroundings it meets. *)
Record request : Type := {
  req_env : env;
  req_image : image_data;
  req_prompt : string;
  req_negative_prompt : string
}.

(** The server: the handler runs once for each request, in turn. *)
Fixpoint serve (p : process) (requests : list request) : M (list response) :=
  match requests with
  | [] => ret []
  | r :: rest =>
      (resp <- generate_video p (req_env r) (req_image r)
                 (req_prompt r) (req_negative_prompt r) ;;
       resps <- serve p rest ;;
       ret (resp :: resps))%M
  end.

(** ** Vocabulary of the properties *)

(** The display name a node declares: the [title] of its [_meta]. *)
Definition declared_title (node_data : json) : option json :=
  match node_data with
  | JDict d =>
      match dict_get "_meta" d with
      | Some (JDict m) => dict_get "title" m
      | _ => None
      end
  | _ => None
  end.

(** The node declares exactly the title [title]. *)
Definition titled (title : string) (node_data : json) : bool :=
  match declared_title node_data with
  | Some t => eq_str t title
  | None => false
  end.

(** The kind a node declares: its [class_type]. *)
Definition of_kind (kind : string) (node_data : json) : bool :=
  match node_data with
  | JDict d =>
      match dict_get "class_type" d with
      | Some k => eq_str k kind
      | None => false
      end
  | _ => false
  end.

(** A node descriptor whose [_meta], when it has one, is a mapping. *)
Definition meta_ok (node_data : json) : bool :=
  match node_data with
  | JDict d =>
      match dict_get "_meta" d with
      | Some (JDict _) | None => true
      | Some _ => false
      end
  | _ => true
  end.

(** The display names of a graph, in the order of its nodes. *)
Definition display_names (items : list (string * json)) : list string :=
  flat_map (fun kv : string * json =>
              match declared_title (snd kv) with
              | Some (JStr t) => [t]
              | _ => []
              end) items.

(** The first node, in the order of the mapping, that [test] accepts. *)
Definition first_node (test : json -> bool) (items : list (string * json))
  : option string :=
  option_map fst (find (fun kv : string * json => test (snd kv)) items).

(** A string with a media suffix. *)
Definition media_path (v : json) : Prop :=
  exists stem ext, In ext media_suffixes /\ v = JStr (stem ++ ext).

(** The values on which the extractor does not raise: a mapping, or a
    list or string in which ["text"] does not occur. *)
Definition accepted_payload (v : json) : bool :=
  match v with
  | JDict _ => true
  | JList l => negb (existsb (fun x => eq_str x "text") l)
  | JStr s => negb (str_contains s "text")
  | _ => false
  end.

(** A message of the push channel that is well formed and is not an
    [executed] event for [target]. *)
Definition other_event (target : string) (message : json) : bool :=
  match message with
  | JDict m =>
      match dict_get "type" m with
      | Some type =>
          if eq_str type "executed" then
            match dict_get "data" m with
            | Some (JDict d) =>
                match dict_get "node" d with
                | Some node => negb (eq_str node target)
                | None => true
                end
            | Some _ => false
            | None => true
            end
          else true
      | None => true
      end
  | _ => false
  end.

(** An arrival the listening loop receives in time and passes over. *)
Definition passed_over (target : string) (a : arrival) : bool :=
  match a with
  | Frame gap is_text data =>
      (Z.of_N gap <? ws_timeout)
      && (if is_text then
            match json_loads_text data with
            | Ok message => other_event target message
            | Raise _ => false
            end
          else true)
  | Failure _ _ _ => false
  end.

(** What receiving a passed-over arrival leaves in the trace. *)
Definition note_arrival (p : process) (a : arrival) : M unit :=
  (emit (EWsRecv (gap_of a)) ;;
   match a with
   | Frame _ true data =>
       match json_loads_text data with
       | Ok message => when (VERBOSE p) (print (LogReceived message))
       | Raise _ => ret tt
       end
   | _ => ret tt
   end)%M.

(** The seconds the events of a trace spend waiting in [recv]. *)
Fixpoint push_wait (evs : list event) : Z :=
  match evs with
  | [] => 0
  | EWsRecv waited :: rest => waited + push_wait rest
  | _ :: rest => push_wait rest
  end.

(** The history the engine returns holds no output of [target] for the
    job [pid]: the job is absent or empty, or its [outputs], if any,
    is a mapping without the node. *)
Definition lacks_entry (reply : json) (pid target : string) : bool :=
  match reply with
  | JDict r =>
      match dict_get pid r with
      | None => true
      | Some (JDict h) =>
          match dict_get "outputs" h with
          | None => true
          | Some (JDict o) => negb (has_key target o)
          | Some _ => false
          end
      | Some v => negb (truthy v)
      end
  | _ => false
  end.

(** The payload the history holds for [target] in the job [pid]. *)
Definition history_entry (reply : json) (pid target : string) : option json :=
  match reply with
  | JDict r =>
      match dict_get pid r with
      | Some (JDict h) =>
          match dict_get "outputs" h with
          | Some (JDict o) => dict_get target o
          | _ => None
          end
      | _ => None
      end
  | _ => None
  end.

(** A submission or a channel opening carries the identifier of the
    process. *)
Definition scoped (p : process) (ev : event) : Prop :=
  match ev with
  | ESubmit _ body =>
      exists g,
        body = json_dumps
                 (JDict [("prompt", g); ("client_id", JStr (client_id p))])
  | EWsConnect _ client => client = client_id p
  | _ => True
  end.

(** The world with more events in its trace. *)
Definition extend (w : world) (evs : list event) : world :=
  {| store := store w; sockets := sockets w; trace := trace w ++ evs |}.

(** What the node [node_id] of the graph holds in the field [field] of
    its [inputs]. *)
Definition input_of (g : json) (node_id field : string) : option json :=
  match g with
  | JDict gi =>
      match dict_get node_id gi with
      | Some (JDict ni) =>
          match dict_get "inputs" ni with
          | Some (JDict ii) => dict_get field ii
          | _ => None
          end
      | _ => None
      end
  | _ => None
  end.

(** The node [node_id] of the graph holds a mapping under [inputs]. *)
Definition has_inputs (g : json) (node_id : string) : bool :=
  match g with
  | JDict gi =>
      match dict_get node_id gi with
      | Some (JDict ni) =>
          match dict_get "inputs" ni with
          | Some (JDict _) => true
          | _ => false
          end
      | _ => false
      end
  | _ => false
  end.

(** ** Sample data *)

Definition dq : string := String dquote EmptyString.

(** The text [["ignored", ["/out/video.mp4"]]] of scenario B. *)
Definition scenario_b_text : string :=
  "[" ++ dq ++ "ignored" ++ dq ++ ", [" ++ dq ++ "/out/video.mp4" ++ dq ++ "]]".

(** The payload of scenario B: a mapping whose [text] is a list that
    holds that text. *)
Definition scenario_b_payload : json :=
  JDict [("text", JList [JStr scenario_b_text])].

(** The globals of the samples, as [load_module] and [main] leave
    them: the template is the second object of the store. *)
Definition sample_process : process :=
  {| server_address := "127.0.0.1:8188";
     client_id := "0b5e3c3a-6f0e-4f0a-9d53-3f0f2f1f6a11";
     workflow_api_json := 1;
     VERBOSE := false |}.

Definition sample_world (template : json) : world :=
  {| store := [JDict []; template]; sockets := []; trace := [] |}.

Definition sample_node (title kind : string) : json :=
  JDict [("inputs", JDict []);
         ("class_type", JStr kind);
         ("_meta", JDict [("title", JStr title)])].

(** A template with the four required slots and a sampler. *)
Definition sample_template : json :=
  JDict [("1", sample_node "load_image" "LoadImage");
         ("2", sample_node "positive_prompt" "CLIPTextEncode");
         ("3", sample_node "negative_prompt" "CLIPTextEncode");
         ("4", sample_node "sampler" "KSampler");
         ("5", sample_node "output_paths" "ShowText")].

(** A [progress] event and an [executed] event of the push channel. *)
Definition progress_message : string :=
  json_dumps (JDict [("type", JStr "progress");
                     ("data", JDict [("value", JInt 1); ("max", JInt 20)])]).

Definition executed_message (node : string) (output : json) : string :=
  json_dumps (JDict [("type", JStr "executed");
                     ("data", JDict [("node", JStr node);
                                     ("output", output)])]).

(** A channel on which two progress events arrive 200 seconds apart,
    and then nothing. *)
Definition slow_progress : list arrival :=
  [Frame 200 true progress_message; Frame 200 true progress_message].

(** The image of the sample requests: an uploaded file. *)
Definition sample_image : image_data :=
  UploadFile "cat.png" "image/png" "PNG".

(** The engine accepts the upload and the job [job-1]; the channel and
    the history are as given.  The sample requests upload a file, so
    the decoder is never called; it is one that accepts no text. *)
Definition sample_env (arrivals : list arrival) (history : json) : env :=
  {| b64decode := fun _ => Raise (Exn ValueError "Incorrect padding");
     upload_reply := Ok (json_dumps (JDict [("name", JStr "image.png")]));
     entropy := 123456789012345678;
     prompt_reply := Ok (json_dumps (JDict [("prompt_id", JStr "job-1")]));
     ws_connect := Ok tt;
     ws_arrivals := arrivals;
     history_reply := Ok (json_dumps history) |}.

(** A history without the job, and one whose output for node 5 holds
    no media path. *)
Definition history_without_entry : json := JDict [].

Definition history_without_artifact : json :=
  JDict [("job-1",
          JDict [("outputs",
                  JDict [("5", JDict [("text", JList [JStr "[]"])])])])].

(** A template whose image loader sits under the empty node id, and
    which has no negative-prompt node. *)
Definition empty_id_template : json :=
  JDict [(EmptyString, sample_node "load_image" "LoadImage");
         ("2", sample_node "positive_prompt" "CLIPTextEncode");
         ("4", sample_node "sampler" "KSampler");
         ("5", sample_node "output_paths" "ShowText")].

(** A template like [sample_template], with the sampler under the
    empty node id. *)
Definition empty_sampler_template : json :=
  JDict [("1", sample_node "load_image" "LoadImage");
         ("2", sample_node "positive_prompt" "CLIPTextEncode");
         ("3", sample_node "negative_prompt" "CLIPTextEncode");
         (EmptyString, sample_node "sampler" "KSampler");
         ("5", sample_node "output_paths" "ShowText")].

(** A template like [sample_template], without its sampler. *)
Definition no_sampler_template : json :=
  JDict [("1", sample_node "load_image" "LoadImage");
         ("2", sample_node "positive_prompt" "CLIPTextEncode");
         ("3", sample_node "negative_prompt" "CLIPTextEncode");
         ("5", sample_node "output_paths" "ShowText")].

(** The graph after [graph[node_id]["inputs"][field] = x], for a node
    that holds a mapping under [inputs]. *)
Definition write_input (g : json) (node_id field : string) (x : json) : json :=
  match g with
  | JDict gi =>
      match dict_get node_id gi with
      | Some (JDict ni) =>
          match dict_get "inputs" ni with
          | Some (JDict ii) =>
              JDict (dict_set node_id
                       (JDict (dict_set "inputs"
                                 (JDict (dict_set field x ii)) ni)) gi)
          | _ => g
          end
      | _ => g
      end
  | _ => g
  end.

(** The titles whose lookup found no node. *)
Definition not_found (found : list (string * option string)) : list string :=
  map fst
    (filter (fun tn : string * option string =>
               match snd tn with None => true | Some _ => false end) found).

(** The graph the injection leaves at its handle.  The three required
    writes are made; the seed is written to the node found by kind,
    unless none was found or the node sits under the empty id. *)
Definition injected_graph (e : env) (g : json) (i1 i2 i3 : string)
    (k : option string) (name : json) (prompt negative_prompt : string)
  : json :=
  let g3 :=
    write_input
      (write_input (write_input g i1 "image" name) i2 "text" (JStr prompt))
      i3 "text" (JStr negative_prompt) in
  match k with
  | Some ks =>
      if String.eqb ks EmptyString then g3
      else write_input g3 ks "seed" (JInt (randint 0 seed_max (entropy e)))
  | None => g3
  end.

(** The world holds at least [n] objects and [ns] sockets. *)
Definition covers (n ns : nat) (w : world) : Prop :=
  (n <= length (store w))%nat /\ (ns <= length (sockets w))%nat.

(** From [w] to [w']: the first [n] objects and [ns] sockets are the
    same, and the trace has grown by events that satisfy [P]. *)
Definition evolves (n ns : nat) (P : event -> Prop) (w w' : world) : Prop :=
  covers n ns w'
  /\ firstn n (store w') = firstn n (store w)
  /\ firstn ns (sockets w') = firstn ns (sockets w)
  /\ exists evs, trace w' = (trace w ++ evs)%list /\ Forall P evs.

(** A computation that takes every world to one it evolves to. *)
Definition safe (n ns : nat) (P : event -> Prop) {A} (m : M A) : Prop :=
  forall w, covers n ns w -> evolves n ns P w (snd (m w)).

(** A computation that spends at most [k] seconds in [recv], each
    [recv] taking at least none. *)
Definition waits {A} (k : Z) (m : M A) : Prop :=
  forall w,
    push_wait (trace w) <= push_wait (trace (snd (m w)))
                        <= push_wait (trace w) + k.

(** An event that is a line printed. *)
Definition is_print (ev : event) : bool :=
  match ev with EPrint _ => true | _ => false end.

(** The network calls of [upload_image]: one upload, named as the
    source names it, unless the base64 text does not decode. *)
Definition upload_events (p : process) (e : env) (image : image_data)
  : list event :=
  match image with
  | UploadFile filename content_type file_content =>
      [EUpload (server_address p) filename file_content content_type]
  | Base64Text text =>
      match b64decode e text with
      | Ok img_bytes =>
          [EUpload (server_address p) "image.png" img_bytes "image/png"]
      | Raise _ => []
      end
  end.

(** The engine's answer to the submission gives no job id: the request
    failed, the reply is not JSON, it is a falsy value, or it is a
    mapping without [prompt_id]. *)
Definition gives_no_job_id (e : env) : bool :=
  match prompt_reply e with
  | Ok body =>
      match json_loads_text body with
      | Ok (JDict d) => negb (has_key "prompt_id" d)
      | Ok v => negb (truthy v)
      | Raise _ => true
      end
  | Raise _ => true
  end.

(** An event that is no call to the engine after the upload. *)
Definition before_submission (ev : event) : bool :=
  match ev with
  | ESubmit _ _ | EWsConnect _ _ | EWsRecv _ | EWsClose | EHistory _ _
  | ESleep _ => false
  | _ => true
  end.

(** The output an arrival carries when it is, received in time, an
    [executed] event for [target]: the [output] of its [data], or the
    empty mapping when it has none. *)
Definition executed_output (target : string) (a : arrival) : option json :=
  match a with
  | Frame gap true data =>
      if Z.of_N gap <? ws_timeout then
        match json_loads_text data with
        | Ok (JDict m) =>
            match dict_get "type" m, dict_get "data" m with
            | Some type, Some (JDict d) =>
                if eq_str type "executed" then
                  match dict_get "node" d with
                  | Some node =>
                      if eq_str node target then
                        Some (match dict_get "output" d with
                              | Some output => output
                              | None => JDict []
                              end)
                      else None
                  | None => None
                  end
                else None
            | _, _ => None
            end
        | _ => None
        end
      else None
  | _ => None
  end.

(** An arrival at which the listening loop is left by an exception: a
    failure of the socket, a frame that comes after the timeout, a text
    frame that is no JSON or no mapping, an [executed] event for
    [target] on whose output the extractor raises. *)
Definition ends_listening (target : string) (a : arrival) : bool :=
  match a with
  | Failure _ _ _ => true
  | Frame gap is_text data =>
      (ws_timeout <=? Z.of_N gap)
      || (is_text
          && match json_loads_text data with
             | Ok (JDict _) =>
                 match executed_output target a with
                 | Some output =>
                     match parse_video_path_from_output output with
                     | Ok _ => false
                     | Raise _ => true
                     end
                 | None => false
                 end
             | _ => true
             end)
  end.

(** The arrivals on which the push channel gives no result: other
    events only, up to the timeout or to an arrival that ends the
    listening. *)
Fixpoint gives_up (target : string) (arrivals : list arrival) : bool :=
  match arrivals with
  | [] => true
  | a :: rest =>
      ends_listening target a
      || (passed_over target a && gives_up target rest)
  end.

(** An event of the pull fallback. *)
Definition is_poll (ev : event) : bool :=
  match ev with
  | EHistory _ _ | ESleep _ => true
  | _ => false
  end.

(** A computation that opens and drops no socket. *)
Definition steady {A} (m : M A) : Prop :=
  forall w, length (sockets (snd (m w))) = length (sockets w).

(** A computation that makes and drops no object. *)
Definition settled {A} (m : M A) : Prop :=
  forall w, length (store (snd (m w))) = length (store w).

(** The push channel gives no result: the connection is refused, or
    the arrivals are such that the listening gives up. *)
Definition push_silent (e : env) (target : string) : bool :=
  match ws_connect e with
  | Ok _ => gives_up target (ws_arrivals e)
  | Raise _ => true
  end.

(** A history that holds the payload [payload] for node 5 of job-1. *)
Definition history_with (payload : json) : json :=
  JDict [("job-1", JDict [("outputs", JDict [("5", payload)])])].

(** What the node [node_id] of the graph holds under [key]. *)
Definition node_field (g : json) (node_id key : string) : option json :=
  match g with
  | JDict gi =>
      match dict_get node_id gi with
      | Some (JDict ni) => dict_get key ni
      | _ => None
      end
  | _ => None
  end.

(** The node ids of a graph, in its order. *)
Definition node_ids (g : json) : list string :=
  match g with
  | JDict gi => map fst gi
  | _ => []
  end.

(** A text of ASCII characters. *)
Fixpoint ascii_text (s : string) : bool :=
  match s with
  | EmptyString => true
  | String c s' => (byte_val c <? 128) && ascii_text s'
  end.

(** Keys that are pairwise distinct. *)
Fixpoint distinct (keys : list string) : bool :=
  match keys with
  | [] => true
  | k :: rest => negb (existsb (String.eqb k) rest) && distinct rest
  end.

(** The values built from null, booleans, integers, ASCII strings,
    lists and dictionaries whose keys are ASCII and pairwise distinct,
    as the keys of a [dict] are. *)
Fixpoint plain (v : json) : bool :=
  match v with
  | JNull | JBool _ | JInt _ => true
  | JFloat _ => false
  | JStr s => ascii_text s
  | JList l => forallb plain l
  | JDict d =>
      forallb (fun kv : string * json =>
                 let (k, x) := kv in ascii_text k && plain x) d
      && distinct (map fst d)
  end.

(** The fuel the reading of the text of a value takes. *)
Fixpoint need (v : json) : nat :=
  match v with
  | JList l => S (fold_right (fun x acc => S (Nat.max (need x) acc)) O l)
  | JDict d =>
      S (fold_right
           (fun (kv : string * json) acc =>
              let (_, x) := kv in S (Nat.max (need x) acc)) O d)
  | _ => 1%nat
  end.

(** What follows a value in the text [json.dumps] writes: the end of
    the text, a comma or a closing bracket. *)
Definition closes (s : string) : bool :=
  match s with
  | EmptyString => true
  | String c _ => Ascii.eqb c "," || Ascii.eqb c "]" || Ascii.eqb c "}"
  end.

(** The characters the text of a value starts with. *)
Definition value_head (c : ascii) : bool :=
  existsb (Ascii.eqb c)
    ["n"; "t"; "f"; dquote; "["; "{"; "-";
     "0"; "1"; "2"; "3"; "4"; "5"; "6"; "7"; "8"; "9"]%char.

Definition head_ok (s : string) : bool :=
  match s with
  | String c _ => value_head c
  | EmptyString => false
  end.

(** Two worlds agree for a request: they hold the same template at
    the handle [t]; the graph of the request, when it has one, is the
    same object under the handles [h] and [h'], away from the
    template; the socket of the request, when it has one, is in the
    same state under [s] and [s'].  What else the worlds hold, and
    what they have logged, is free. *)
Definition agree (t : nat) (hp sp : option (nat * nat)) (w w' : world)
  : Prop :=
  nth_error (store w) t = nth_error (store w') t
  /\ (t < length (store w))%nat /\ (t < length (store w'))%nat
  /\ match hp with
     | Some (h, h') =>
         nth_error (store w) h = nth_error (store w') h'
         /\ h <> t /\ h' <> t
     | None => True
     end
  /\ match sp with
     | Some (s, s') => nth_error (sockets w) s = nth_error (sockets w') s'
     | None => True
     end.

(** Two computations run alike from worlds related by [R]: they add
    the same events to the trace, and both return, with values and
    worlds related by [Q], or both raise the same exception, in worlds
    related by [X]. *)
Definition rel {A} (R : world -> world -> Prop)
    (Q : A -> A -> world -> world -> Prop) (X : world -> world -> Prop)
    (m m' : M A) : Prop :=
  forall w w',
    R w w' ->
    (exists evs,
        trace (snd (m w)) = (trace w ++ evs)%list
        /\ trace (snd (m' w')) = (trace w' ++ evs)%list)
    /\ match fst (m w), fst (m' w') with
       | Ok a, Ok a' => Q a a' (snd (m w)) (snd (m' w'))
       | Raise e, Raise e' => e = e' /\ X (snd (m w)) (snd (m' w'))
       | _, _ => False
       end.

(** Two computations run alike and keep the relation [I]: same events,
    same value or same exception. *)
Definition keeps {A} (I : world -> world -> Prop) (m m' : M A) : Prop :=
  rel I (fun a a' w w' => a = a' /\ I w w') I m m'.

(** Two injections end alike: with the same response, or with the same
    output node and graphs that agree. *)
Definition injected_alike (t : nat) (i i' : injection) (w w' : world)
  : Prop :=
  match i, i' with
  | Incomplete resp, Incomplete resp' =>
      resp = resp' /\ agree t None None w w'
  | Injected h output_id, Injected h' output_id' =>
      output_id = output_id' /\ agree t (Some (h, h')) None w w'
  | _, _ => False
  end.

(** The calls among the events: all but the lines printed. *)
Definition calls (evs : list event) : list event :=
  filter (fun ev => negb (is_print ev)) evs.

(** The reads of the push channel that receive the arrivals [l]. *)
Definition reads (l : list arrival) : list event :=
  map (fun a => EWsRecv (gap_of a)) l.

(** * Properties *)

(** ** NodeResolver *)

(** A non-empty identifier runs its comparison. *)
Lemma and_ident_nonempty (t : string) (test : string -> result bool) :
  t <> EmptyString -> and_ident (Some t) test = test t.
Proof.
  intros Ht. unfold and_ident.
  destruct (String.eqb_spec t EmptyString); [contradiction | reflexivity].
Qed.

(** The comparison by title, on a node whose [_meta] is well formed. *)
Lemma title_test_titled (d : list (string * json)) (t : string) :
  meta_ok (JDict d) = true ->
  (meta <- py_get (JDict d) "_meta" (JDict []) ;;
   title <- py_get meta "title" JNull ;;
   Ok (eq_str title t))%result = Ok (titled t (JDict d)).
Proof.
  unfold meta_ok, titled, declared_title. cbn [py_get rbind].
  destruct (dict_get "_meta" d) as [[| | | | | |m]|]; intros H;
    try discriminate; cbn.
  - destruct (dict_get "title" m); reflexivity.
  - reflexivity.
Qed.

Lemma kind_test_of_kind (d : list (string * json)) (t : string) :
  (kind <- py_get (JDict d) "class_type" JNull ;;
   Ok (eq_str kind t))%result = Ok (of_kind t (JDict d)).
Proof.
  unfold of_kind. cbn. destruct (dict_get "class_type" d); reflexivity.
Qed.

(** With only a non-empty title, the loop is a search for the first
    node that declares it. *)
Lemma find_by_title_first (items : list (string * json)) (t : string) :
  t <> EmptyString ->
  Forall (fun kv => meta_ok (snd kv) = true) items ->
  find_node_id_loop items (Some t) None = Ok (first_node (titled t) items).
Proof.
  intros Ht Hok. unfold first_node.
  induction Hok as [|[node_id node_data] rest Hnode _ IH]; [reflexivity|].
  cbn [find_node_id_loop find snd].
  destruct node_data as [| | | | | |d]; cbn [is_dict]; try exact IH.
  rewrite (and_ident_nonempty t _ Ht), (title_test_titled d t Hnode).
  cbn [rbind]. destruct (titled t (JDict d)); [reflexivity|].
  cbn. exact IH.
Qed.

(** With only a non-empty kind, the loop is a search for the first
    node of that kind; titles play no part in it. *)
Lemma find_by_kind_first (items : list (string * json)) (t : string) :
  t <> EmptyString ->
  find_node_id_loop items None (Some t) = Ok (first_node (of_kind t) items).
Proof.
  intros Ht. unfold first_node.
  induction items as [|[node_id node_data] rest IH]; [reflexivity|].
  cbn [find_node_id_loop find snd].
  destruct node_data as [| | | | | |d]; cbn [is_dict of_kind]; try exact IH.
  rewrite (and_ident_nonempty t _ Ht), (kind_test_of_kind d t).
  cbn [and_ident rbind]. unfold of_kind.
  destruct (dict_get "class_type" d) as [k|]; [destruct (eq_str k t)|];
    try reflexivity; cbn; exact IH.
Qed.

Lemma titled_display_name (t node_id : string) (node_data : json)
    (items : list (string * json)) :
  In (node_id, node_data) items -> titled t node_data = true ->
  In t (display_names items).
Proof.
  intros Hin Ht. unfold display_names. apply in_flat_map.
  exists (node_id, node_data). split; [exact Hin|]. cbn.
  unfold titled in Ht. destruct (declared_title node_data) as [v|]; [|discriminate].
  destruct v; try discriminate. cbn in Ht.
  apply String.eqb_eq in Ht. subst. now left.
Qed.

(** Among pairwise-distinct display names the first node with a title
    is the only one. *)
Lemma first_node_unique (t node_id : string) (node_data : json)
    (items : list (string * json)) :
  NoDup (display_names items) ->
  In (node_id, node_data) items -> titled t node_data = true ->
  first_node (titled t) items = Some node_id.
Proof.
  unfold first_node.
  induction items as [|[k v] rest IH]; intros Hnd Hin Ht; [contradiction|].
  cbn [find snd]. destruct (titled t v) eqn:Hv.
  - destruct Hin as [Heq|Hin]; [now inversion Heq|].
    exfalso.
    pose proof (titled_display_name t node_id node_data rest Hin Ht) as Hrest.
    unfold display_names in Hnd. cbn [flat_map snd] in Hnd.
    unfold titled in Hv. destruct (declared_title v) as [x|]; [|discriminate].
    destruct x; try discriminate. cbn in Hv. apply String.eqb_eq in Hv. subst.
    cbn in Hnd. apply NoDup_cons_iff in Hnd. now destruct Hnd.
  - destruct Hin as [Heq|Hin].
    + inversion Heq; subst. congruence.
    + apply IH; [|exact Hin|exact Ht].
      unfold display_names in Hnd |- *. cbn [flat_map] in Hnd.
      now apply NoDup_app_remove_l in Hnd.
Qed.

Lemma first_node_none (test : json -> bool) (items : list (string * json)) :
  (forall kv, In kv items -> test (snd kv) = false) ->
  first_node test items = None.
Proof.
  intros H. unfold first_node.
  destruct (find _ items) as [kv|] eqn:E; [|reflexivity].
  apply find_some in E. destruct E as [Hin Ht]. rewrite (H kv Hin) in Ht.
  discriminate.
Qed.

(** C9, as stated, fails on the empty title: the guard of the
    comparison skips it, so the one node that declares the empty title
    is not returned. *)
Lemma find_node_id_empty_title_not_found :
  let node := JDict [("_meta", JDict [("title", JStr EmptyString)])] in
  let items := [("1", node)] in
  NoDup (display_names items)
  /\ Forall (fun kv => meta_ok (snd kv) = true) items
  /\ In ("1", node) items
  /\ titled EmptyString node = true
  /\ find_node_id (JDict items) (Some EmptyString) None = Ok None
  /\ find_node_id (JDict items) (Some EmptyString) None <> Ok (Some "1").
Proof.
  cbn. repeat split.
  - repeat constructor; cbn; tauto.
  - repeat constructor.
  - now left.
  - discriminate.
Qed.

(** C9 (amended): in a graph of well-formed node descriptors with
    pairwise-distinct display names, [find_node_id] called with a
    non-empty title returns the id of the node that declares exactly
    that title, and it does so for every order of the node mapping. *)
Theorem find_node_id_by_title_unique
    (items : list (string * json)) (title node_id : string)
    (node_data : json) :
  title <> EmptyString ->
  Forall (fun kv => meta_ok (snd kv) = true) items ->
  NoDup (display_names items) ->
  In (node_id, node_data) items ->
  titled title node_data = true ->
  find_node_id (JDict items) (Some title) None = Ok (Some node_id)
  /\ forall items',
       Permutation items items' ->
       find_node_id (JDict items') (Some title) None = Ok (Some node_id).
Proof.
  intros Ht Hok Hnd Hin Htitled.
  assert (Hperm : forall items', Permutation items items' ->
            find_node_id (JDict items') (Some title) None = Ok (Some node_id)).
  { intros items' P. cbn.
    rewrite find_by_title_first;
      [|exact Ht|exact (Permutation_Forall P Hok)].
    f_equal. apply first_node_unique with (node_data := node_data).
    - unfold display_names.
      exact (Permutation_NoDup (Permutation_flat_map _ P) Hnd).
    - exact (Permutation_in _ P Hin).
    - exact Htitled. }
  split; [apply Hperm, Permutation_refl | exact Hperm].
Qed.

Lemma find_node_id_by_title_unique_witness :
  let load := JDict [("_meta", JDict [("title", JStr "load_image")])] in
  let out := JDict [("_meta", JDict [("title", JStr "output_paths")])] in
  find_node_id (JDict [("7", out); ("3", load)]) (Some "load_image") None
    = Ok (Some "3")
  /\ find_node_id (JDict [("3", load); ("7", out)]) (Some "load_image") None
    = Ok (Some "3").
Proof.
  intros load out.
  destruct (find_node_id_by_title_unique
              [("7", out); ("3", load)] "load_image" "3" load) as [H1 H2].
  - discriminate.
  - repeat constructor.
  - repeat constructor; cbn; intuition discriminate.
  - right; left; reflexivity.
  - reflexivity.
  - split; [exact H1|]. apply H2. apply perm_swap.
Defined.

(** The loop under an empty identifier is the loop without it. *)
Lemma find_loop_empty_title (items : list (string * json))
    (node_type : option string) :
  find_node_id_loop items (Some EmptyString) node_type
  = find_node_id_loop items None node_type.
Proof.
  induction items as [|[k v] rest IH]; [reflexivity|].
  cbn [find_node_id_loop]. destruct (is_dict v); [|exact IH].
  cbn [and_ident String.eqb rbind].
  destruct (and_ident node_type _) as [[|]|]; cbn; try reflexivity. exact IH.
Qed.

Lemma find_loop_empty_type (items : list (string * json))
    (node_title : option string) :
  find_node_id_loop items node_title (Some EmptyString)
  = find_node_id_loop items node_title None.
Proof.
  induction items as [|[k v] rest IH]; [reflexivity|].
  cbn [find_node_id_loop]. destruct (is_dict v); [|exact IH].
  destruct (and_ident node_title _) as [[|]|]; cbn; try reflexivity. exact IH.
Qed.

Lemma find_loop_no_identifier (items : list (string * json)) :
  find_node_id_loop items None None = Ok None.
Proof.
  induction items as [|[k v] rest IH]; [reflexivity|].
  cbn [find_node_id_loop]. destruct (is_dict v); exact IH.
Qed.

(** C10: for every graph, [find_node_id] called with the empty string
    as title, or as kind, returns [None], whatever the nodes declare;
    an empty identifier behaves as an absent one next to the other
    identifier. *)
Theorem find_node_id_empty_identifier (items : list (string * json)) :
  find_node_id (JDict items) (Some EmptyString) None = Ok None
  /\ find_node_id (JDict items) None (Some EmptyString) = Ok None
  /\ find_node_id (JDict items) (Some EmptyString) (Some EmptyString) = Ok None
  /\ (forall node_type,
        find_node_id (JDict items) (Some EmptyString) node_type
        = find_node_id (JDict items) None node_type)
  /\ (forall node_title,
        find_node_id (JDict items) node_title (Some EmptyString)
        = find_node_id (JDict items) node_title None).
Proof.
  cbn [find_node_id py_items rbind].
  repeat split; intros;
    rewrite ?find_loop_empty_title, ?find_loop_empty_type;
    auto using find_loop_no_identifier.
Qed.

(** The empty identifier finds nothing even in a graph whose node
    declares the empty title and the empty kind. *)
Example find_node_id_empty_declared :
  let node := JDict [("class_type", JStr EmptyString);
                     ("_meta", JDict [("title", JStr EmptyString)])] in
  find_node_id (JDict [("1", node)]) (Some EmptyString) None = Ok None
  /\ find_node_id (JDict [("1", node)]) None (Some EmptyString) = Ok None.
Proof. split; reflexivity. Qed.

(** ** OutputExtractor *)

Lemma endswith_suffix (s suffix : string) :
  endswith s suffix = true <-> exists stem, s = stem ++ suffix.
Proof.
  induction s as [|c s IH]; cbn [endswith].
  - destruct (String.eqb_spec EmptyString suffix) as [E|E].
    + split; [intros _; exists EmptyString; now subst | reflexivity].
    + split; [discriminate|]. intros [stem H].
      destruct stem; cbn in H; [congruence | discriminate].
  - destruct (String.eqb_spec (String c s) suffix) as [E|E].
    + split; [intros _; exists EmptyString; now subst | reflexivity].
    + rewrite IH. split.
      * intros [stem H]. exists (String c stem). cbn. now rewrite H.
      * intros [stem H]. destruct stem as [|c' stem]; cbn in H.
        -- congruence.
        -- exists stem. now inversion H.
Qed.

Lemma endswith_any_media (p : string) :
  endswith_any p media_suffixes = true <-> media_path (JStr p).
Proof.
  unfold endswith_any, media_path. rewrite existsb_exists. split.
  - intros [ext [Hin He]]. apply endswith_suffix in He.
    destruct He as [stem He]. exists stem, ext. now subst.
  - intros [stem [ext [Hin He]]]. exists ext. split; [exact Hin|].
    apply endswith_suffix. exists stem. now inversion He.
Qed.

Lemma not_str_not_media (v : json) : is_str v = false -> ~ media_path v.
Proof. intros H [stem [ext [_ E]]]. subst. discriminate. Qed.

(** What the loop over the paths returns: the first string with a
    media suffix, nothing before it being one; or nothing, when no
    element is one. *)
Lemma first_media_path_first (paths : list json) :
  match first_media_path paths with
  | Some p =>
      exists before after,
        paths = (before ++ JStr p :: after)%list
        /\ media_path (JStr p)
        /\ forall x, In x before -> ~ media_path x
  | None => forall x, In x paths -> ~ media_path x
  end.
Proof.
  induction paths as [|v rest IH]; cbn [first_media_path].
  - intros x [].
  - assert (Hskip : ~ media_path v ->
              match first_media_path rest with
              | Some p =>
                  exists before after,
                    v :: rest = (before ++ JStr p :: after)%list
                    /\ media_path (JStr p)
                    /\ forall x, In x before -> ~ media_path x
              | None => forall x, In x (v :: rest) -> ~ media_path x
              end).
    { intros Hv. destruct (first_media_path rest) as [p|].
      - destruct IH as [before [after [E [Hp Hb]]]].
        exists (v :: before), after. repeat split.
        + cbn. now rewrite E.
        + exact Hp.
        + intros x [<-|Hx]; auto.
      - intros x [<-|Hx]; auto. }
    destruct v as [| | | |s| |]; try (apply Hskip, not_str_not_media; reflexivity).
    destruct (endswith_any s media_suffixes) eqn:E.
    + exists [], rest. repeat split.
      * now apply endswith_any_media.
      * intros x [].
    + apply Hskip. intros Hm. apply endswith_any_media in Hm. congruence.
Qed.

(** On a mapping the extractor returns, whatever the mapping holds. *)
Lemma parse_video_path_dict_returns (d : list (string * json)) :
  exists r, parse_video_path_from_output (JDict d) = Ok r.
Proof.
  unfold parse_video_path_from_output, py_contains, has_key, py_getitem.
  cbn [rbind].
  destruct (dict_get "text" d) as [text|]; cbn [negb rbind]; [|now eexists].
  destruct text as [| | | | |l|]; cbn [is_list negb]; try now eexists.
  destruct l as [|x l]; cbn [truthy negb py_index nth_error rbind];
    [now eexists|].
  destruct (_ <- json_loads x ;; _)%result; cbn; now eexists.
Qed.

(** C4, as stated, fails outside mappings: on [None] the membership
    test of the first line raises, outside any [try]. *)
Lemma parse_video_path_raises_on_none :
  exists e,
    parse_video_path_from_output JNull = Raise e /\ exn_cls e = TypeError.
Proof. eexists. split; reflexivity. Qed.

(** C4 (amended): the extractor is total on mappings: for every
    mapping it returns a path or [None] and never raises.  Over all
    JSON-shaped values it returns exactly on a mapping, or on a list or
    string in which ["text"] does not occur, and raises on every other
    value. *)
Theorem parse_video_path_total_on_mappings :
  (forall d : list (string * json),
      exists r : option string,
        parse_video_path_from_output (JDict d) = Ok r)
  /\ (forall v : json,
        (exists r, parse_video_path_from_output v = Ok r)
        <-> accepted_payload v = true).
Proof.
  split; [exact parse_video_path_dict_returns|].
  intros v. destruct v as [| | | |s|l|d]; cbn [accepted_payload];
    try (split; [intros [r H]; discriminate H | discriminate]).
  - unfold parse_video_path_from_output. cbn [py_contains rbind].
    destruct (str_contains s "text"); cbn.
    + split; [intros [r H]; discriminate H | discriminate].
    + split; [reflexivity | now eexists].
  - unfold parse_video_path_from_output. cbn [py_contains rbind].
    destruct (existsb _ l); cbn.
    + split; [intros [r H]; discriminate H | discriminate].
    + split; [reflexivity | now eexists].
  - split; [reflexivity | intros _; apply parse_video_path_dict_returns].
Qed.

(** C5: for every mapping whose [text] is a list that starts with a
    string which deserializes to a sequence of at least two elements,
    the second a list, the extractor returns the first string of that
    list with a media suffix (and [None] when it has none); on the
    payload of scenario B it returns [/out/video.mp4]. *)
Theorem parse_video_path_first_media :
  (forall (d : list (string * json)) (s : string) (text_rest : list json)
          (first : json) (paths more : list json),
      dict_get "text" d = Some (JList (JStr s :: text_rest)) ->
      json_loads_text s = Ok (JList (first :: JList paths :: more)) ->
      parse_video_path_from_output (JDict d) = Ok (first_media_path paths)
      /\ match first_media_path paths with
         | Some p =>
             exists before after,
               paths = (before ++ JStr p :: after)%list
               /\ media_path (JStr p)
               /\ forall x, In x before -> ~ media_path x
         | None => forall x, In x paths -> ~ media_path x
         end)
  /\ parse_video_path_from_output scenario_b_payload
     = Ok (Some "/out/video.mp4").
Proof.
  split; [|reflexivity].
  intros d s text_rest first paths more Htext Hload.
  split; [|apply first_media_path_first].
  unfold parse_video_path_from_output, py_contains, has_key, py_getitem.
  rewrite Htext. cbn [rbind negb is_list truthy py_index nth_error json_loads].
  rewrite Hload. reflexivity.
Qed.

Lemma parse_video_path_first_media_witness :
  dict_get "text" [("text", JList [JStr scenario_b_text])]
    = Some (JList [JStr scenario_b_text])
  /\ json_loads_text scenario_b_text
     = Ok (JList [JStr "ignored"; JList [JStr "/out/video.mp4"]])
  /\ parse_video_path_from_output scenario_b_payload
     = Ok (first_media_path [JStr "/out/video.mp4"]).
Proof.
  split; [reflexivity|]. split; [reflexivity|].
  apply (proj1 parse_video_path_first_media
               [("text", JList [JStr scenario_b_text])] scenario_b_text []
               (JStr "ignored") [JStr "/out/video.mp4"] []);
    reflexivity.
Defined.

(** ** What a computation leaves alone *)

Section Frame.

(** The objects and sockets that exist before a request, and what
    every event of the request satisfies. *)
Variable n ns : nat.
Variable P : event -> Prop.

Local Abbreviation covers := (covers n ns).
Local Abbreviation evolves := (evolves n ns P).
Local Abbreviation safe := (safe n ns P).

Lemma evolves_refl (w : world) : covers w -> evolves w w.
Proof.
  intros C. repeat split; try apply C.
  exists []. split; [now rewrite app_nil_r | constructor].
Qed.

Lemma evolves_trans (w1 w2 w3 : world) :
  evolves w1 w2 -> evolves w2 w3 -> evolves w1 w3.
Proof.
  intros (C2 & S2 & K2 & evs2 & T2 & F2) (C3 & S3 & K3 & evs3 & T3 & F3).
  repeat split; try apply C3; try congruence.
  exists (evs2 ++ evs3)%list. split.
  - now rewrite T3, T2, app_assoc.
  - apply Forall_app. now split.
Qed.

Lemma firstn_replace_nth {A} (k h : nat) (x : A) (l : list A) :
  (k <= h)%nat -> firstn k (replace_nth h x l) = firstn k l.
Proof.
  revert k h. induction l as [|y l IH]; intros k h Hk;
    [now destruct h|].
  destruct h as [|h]; cbn.
  - now replace k with O by lia.
  - destruct k as [|k]; [reflexivity|]. cbn. f_equal. apply IH. lia.
Qed.

Lemma length_replace_nth {A} (h : nat) (x : A) (l : list A) :
  length (replace_nth h x l) = length l.
Proof.
  revert h. induction l as [|y l IH]; intros [|h]; cbn; auto.
Qed.

Lemma safe_ret {A} (a : A) : safe (ret a).
Proof. intros w C. now apply evolves_refl. Qed.

Lemma safe_raise {A} (e : exn) : safe (@raise A e).
Proof. intros w C. now apply evolves_refl. Qed.

Lemma safe_lift {A} (r : result A) : safe (lift r).
Proof. intros w C. now apply evolves_refl. Qed.

Lemma safe_load (h : nat) : safe (load h).
Proof.
  intros w C. unfold load. destruct (nth_error (store w) h);
    now apply evolves_refl.
Qed.

Lemma safe_connected (ws : nat) : safe (connected ws).
Proof. intros w C. now apply evolves_refl. Qed.

Lemma safe_emit (ev : event) : P ev -> safe (emit ev).
Proof.
  intros Hev w C. repeat split; try apply C.
  exists [ev]. split; [reflexivity | now constructor].
Qed.

Lemma safe_put (h : nat) (v : json) : (n <= h)%nat -> safe (put h v).
Proof.
  intros Hh w [C1 C2]. repeat split; cbn.
  - now rewrite length_replace_nth.
  - exact C2.
  - now apply firstn_replace_nth.
  - exists []. split; [now rewrite app_nil_r | constructor].
Qed.

Lemma safe_set_connected (ws : nat) (c : bool) :
  (ns <= ws)%nat -> safe (set_connected ws c).
Proof.
  intros Hh w [C1 C2]. repeat split; cbn.
  - exact C1.
  - now rewrite length_replace_nth.
  - now apply firstn_replace_nth.
  - exists []. split; [now rewrite app_nil_r | constructor].
Qed.

Lemma safe_bind {A B} (m : M A) (f : A -> M B) :
  safe m -> (forall a, safe (f a)) -> safe (bind m f).
Proof.
  intros Hm Hf w C. unfold bind. specialize (Hm w C).
  destruct (m w) as [[a|e] w1]; cbn in Hm; [|exact Hm].
  eapply evolves_trans; [exact Hm|]. apply Hf, Hm.
Qed.

(** A new object gets a handle past the first [n]. *)
Lemma safe_bind_alloc {B} (v : json) (f : nat -> M B) :
  (forall h, (n <= h)%nat -> safe (f h)) -> safe (bind (alloc v) f).
Proof.
  intros Hf w [C1 C2]. unfold bind, alloc.
  assert (C' : covers {| store := store w ++ [v]; sockets := sockets w;
                         trace := trace w |}).
  { split; cbn; [rewrite length_app; lia | exact C2]. }
  eapply evolves_trans; [|apply Hf; [exact C1 | exact C']].
  repeat split; cbn; try apply C'.
  - rewrite firstn_app. replace (n - length (store w))%nat with O by lia.
    cbn. now rewrite app_nil_r.
  - exists []. split; [now rewrite app_nil_r | constructor].
Qed.

Lemma safe_bind_new_socket {B} (f : nat -> M B) :
  (forall ws, (ns <= ws)%nat -> safe (f ws)) -> safe (bind new_socket f).
Proof.
  intros Hf w [C1 C2]. unfold bind, new_socket.
  assert (C' : covers {| store := store w; sockets := sockets w ++ [false];
                         trace := trace w |}).
  { split; cbn; [exact C1 | rewrite length_app; lia]. }
  eapply evolves_trans; [|apply Hf; [exact C2 | exact C']].
  repeat split; cbn; try apply C'.
  - rewrite firstn_app. replace (ns - length (sockets w))%nat with O by lia.
    cbn. now rewrite app_nil_r.
  - exists []. split; [now rewrite app_nil_r | constructor].
Qed.

Lemma safe_try_except {A} (m : M A) (handler : exn -> M A) :
  safe m -> (forall e, safe (handler e)) -> safe (try_except m handler).
Proof.
  intros Hm Hh w C. unfold try_except. specialize (Hm w C).
  destruct (m w) as [[a|e] w1]; cbn in Hm; [exact Hm|].
  eapply evolves_trans; [exact Hm|]. apply Hh, Hm.
Qed.

Lemma safe_try_finally {A} (m : M A) (cleanup : M unit) :
  safe m -> safe cleanup -> safe (try_finally m cleanup).
Proof.
  intros Hm Hc w C. unfold try_finally. specialize (Hm w C).
  destruct (m w) as [r w1]; cbn in *.
  eapply evolves_trans; [exact Hm|]. apply Hc, Hm.
Qed.

Lemma safe_when (b : bool) (m : M unit) : safe m -> safe (when b m).
Proof. intros Hm. destruct b; [exact Hm | apply safe_ret]. Qed.

(** Printing and waiting are safe whenever [P] lets them pass. *)
Hypothesis P_print : forall line, P (EPrint line).
Hypothesis P_recv : forall waited, P (EWsRecv waited).
Hypothesis P_close : P EWsClose.
Hypothesis P_sleep : forall s, P (ESleep s).
Hypothesis P_upload : forall a b c d, P (EUpload a b c d).
Hypothesis P_history : forall a b, P (EHistory a b).

Lemma safe_print (line : log_line) : safe (print line).
Proof. apply safe_emit, P_print. Qed.

Ltac safe_case :=
  match goal with
  | |- safe (if ?b then _ else _) => destruct b
  | |- safe (match ?x with _ => _ end) => destruct x
  end.

Ltac safe_step :=
  first
    [ apply safe_ret | apply safe_raise | apply safe_lift | apply safe_load
    | apply safe_connected | apply safe_print
    | apply safe_when
    | apply safe_bind_alloc; intros ? ?
    | apply safe_bind_new_socket; intros ? ?
    | apply safe_bind; [|intros ?]
    | apply safe_try_except; [|intros ?]
    | apply safe_try_finally
    | apply safe_put; assumption
    | apply safe_set_connected; assumption
    | apply safe_emit; solve [auto]
    | safe_case ].

Lemma safe_set_input (h : nat) (node_id field : string) (x : json) :
  (n <= h)%nat -> safe (set_input h node_id field x).
Proof. intros Hh. unfold set_input. repeat safe_step. Qed.

Lemma safe_find_node_id_at (h : nat) (t k : option string) :
  safe (find_node_id_at h t k).
Proof. unfold find_node_id_at. repeat safe_step. Qed.

Lemma safe_upload_image (p : process) (e : env) (image : image_data) :
  safe (upload_image p e image).
Proof. unfold upload_image. repeat safe_step. Qed.

Lemma safe_get_history (p : process) (e : env) (prompt_id : json) :
  safe (get_history p e prompt_id).
Proof. unfold get_history. repeat safe_step. Qed.

Lemma safe_listen (p : process) (ws : nat) (target : string)
    (arrivals : list arrival) :
  (ns <= ws)%nat -> safe (listen p ws target arrivals).
Proof.
  intros Hws. induction arrivals as [|a rest IH]; cbn [listen].
  - repeat safe_step.
  - destruct (ws_timeout <=? gap_of a); [repeat safe_step|].
    apply safe_bind; [apply safe_emit, P_recv | intros _].
    destruct a as [gap [|] data | gap ex still];
      repeat first [exact IH | safe_step].
Qed.

Lemma safe_poll_history (p : process) (e : env) (prompt_id : json)
    (target : string) :
  safe (poll_history p e prompt_id target).
Proof.
  unfold poll_history.
  repeat first [apply safe_get_history | safe_step].
Qed.

(** The events that carry the identifier of the process. *)
Variable p : process.
Hypothesis P_submit :
  forall g,
    P (ESubmit (server_address p)
         (json_dumps
            (JDict [("prompt", g); ("client_id", JStr (client_id p))]))).
Hypothesis P_connect : P (EWsConnect (server_address p) (client_id p)).

Lemma safe_queue_prompt (e : env) (h : nat) : safe (queue_prompt p e h).
Proof. unfold queue_prompt. repeat safe_step. Qed.

Lemma safe_watch_push (e : env) (target : string) :
  safe (watch_push p e target).
Proof.
  unfold watch_push.
  repeat first [apply safe_listen; assumption | safe_step].
Qed.

Lemma safe_get_final_video_path (e : env) (prompt_id : json)
    (target : string) :
  safe (get_final_video_path p e prompt_id target).
Proof.
  unfold get_final_video_path.
  repeat first [apply safe_watch_push | apply safe_poll_history | safe_step].
Qed.

Lemma safe_inject_parameters (e : env) (image : image_data)
    (prompt negative_prompt : string) :
  safe (inject_parameters p e image prompt negative_prompt).
Proof.
  unfold inject_parameters.
  repeat first
    [ apply safe_find_node_id_at | apply safe_upload_image
    | apply safe_set_input; assumption | safe_step ].
Qed.

Lemma safe_submit_and_wait (e : env) (h : nat) (target : string) :
  safe (submit_and_wait p e h target).
Proof.
  unfold submit_and_wait.
  repeat first
    [ apply safe_queue_prompt | apply safe_get_final_video_path
    | safe_step ].
Qed.

Lemma safe_generate_video (e : env) (image : image_data)
    (prompt negative_prompt : string) :
  safe (generate_video p e image prompt negative_prompt).
Proof.
  unfold generate_video.
  repeat first
    [ apply safe_inject_parameters | apply safe_submit_and_wait
    | safe_step ].
Qed.

Lemma safe_serve (requests : list request) : safe (serve p requests).
Proof.
  induction requests as [|r rest IH]; cbn [serve];
    repeat first [exact IH | apply safe_generate_video | safe_step].
Qed.

End Frame.

(** ** Stepping through a computation *)

Lemma bind_ok {A B} (m : M A) (f : A -> M B) (w w1 : world) (a : A) :
  m w = (Ok a, w1) -> bind m f w = f a w1.
Proof. intros H. unfold bind. now rewrite H. Qed.

Lemma bind_raise {A B} (m : M A) (f : A -> M B) (w w1 : world) (e : exn) :
  m w = (Raise e, w1) -> bind m f w = (Raise e, w1).
Proof. intros H. unfold bind. now rewrite H. Qed.

Lemma bind_ok_inv {A B} (m : M A) (f : A -> M B) (w w2 : world) (b : B) :
  bind m f w = (Ok b, w2) ->
  exists a w1, m w = (Ok a, w1) /\ f a w1 = (Ok b, w2).
Proof.
  unfold bind. destruct (m w) as [[a|e] w1]; [|discriminate].
  intros H. now exists a, w1.
Qed.

Lemma load_ok_inv (h : nat) (w w1 : world) (v : json) :
  load h w = (Ok v, w1) -> w1 = w /\ nth_error (store w) h = Some v.
Proof.
  unfold load. destruct (nth_error (store w) h); intros H; inversion H.
  now subst.
Qed.

Lemma lift_ok_inv {A} (r : result A) (w w1 : world) (a : A) :
  lift r w = (Ok a, w1) -> w1 = w /\ r = Ok a.
Proof. unfold lift. intros H. now inversion H. Qed.

Lemma firstn_all_prefix {A} (l l' : list A) :
  firstn (length l) l' = l -> exists more, l' = (l ++ more)%list.
Proof.
  intros H. exists (skipn (length l) l').
  rewrite <- H at 1. symmetry. apply firstn_skipn.
Qed.

(** ** WorkflowGraph: the template and the copies *)

(** A run of the handler from [w] leaves every object and socket of [w]
    as it was, and adds to the trace events in which every submission
    and every channel opening carries the identifier of the process. *)
Lemma generate_video_frame (p : process) (e : env) (image : image_data)
    (prompt negative_prompt : string) (w : world) :
  evolves (length (store w)) (length (sockets w)) (scoped p) w
    (snd (generate_video p e image prompt negative_prompt w)).
Proof.
  apply safe_generate_video; cbn; auto.
  - intros g. now exists g.
  - split; apply Nat.le_refl.
Qed.

Lemma serve_frame (p : process) (requests : list request) (w : world) :
  evolves (length (store w)) (length (sockets w)) (scoped p) w
    (snd (serve p requests w)).
Proof.
  apply safe_serve; cbn; auto.
  - intros g. now exists g.
  - split; apply Nat.le_refl.
Qed.

(** The graph the injection hands on is the object made by the copy. *)
Lemma inject_parameters_fresh (p : process) (e : env) (image : image_data)
    (prompt negative_prompt : string) (w w1 : world) (h : nat)
    (output_id : string) :
  inject_parameters p e image prompt negative_prompt w
    = (Ok (Injected h output_id), w1) ->
  h = length (store w).
Proof.
  unfold inject_parameters. intros H.
  apply bind_ok_inv in H. destruct H as (template & wa & Ha & H).
  apply bind_ok_inv in H. destruct H as (copy & wb & Hb & H).
  apply bind_ok_inv in H. destruct H as (h' & wc & Hc & H).
  apply load_ok_inv in Ha. destruct Ha as [-> _].
  apply lift_ok_inv in Hb. destruct Hb as [-> _].
  assert (h' = length (store w)) as -> by (unfold alloc in Hc; now inversion Hc).
  do 5 (apply bind_ok_inv in H; destruct H as (? & ? & _ & H)).
  match type of H with (if ?b then _ else _) _ = _ => destruct b end;
    [discriminate H|].
  repeat match type of H with
         | (match ?o with Some _ => _ | None => _ end) _ = _ =>
             destruct o; [|discriminate H]
         end.
  do 5 (apply bind_ok_inv in H; destruct H as (? & ? & _ & H)).
  now inversion H.
Qed.

(** C7: the handler works on a copy of the template.  After a request,
    finished or failed, every object that existed before it is as it
    was (the store has only grown at its end), so the template is
    unchanged, and so is the copy of every earlier request; the graph
    that receives the writes of the injection is the object the copy
    made.  The same holds after any sequence of requests. *)
Theorem template_unchanged (p : process) (e : env) (image : image_data)
    (prompt negative_prompt : string) (w : world) :
  let run := generate_video p e image prompt negative_prompt w in
  (exists objects, store (snd run) = (store w ++ objects)%list)
  /\ nth_error (store (snd run)) (workflow_api_json p)
     = nth_error (store w) (workflow_api_json p)
  /\ match fst (inject_parameters p e image prompt negative_prompt w) with
     | Ok (Injected prompt_workflow _) =>
         prompt_workflow = length (store w)
         /\ nth_error (store w) prompt_workflow = None
     | _ => True
     end
  /\ forall requests,
       exists objects,
         store (snd (serve p requests w)) = (store w ++ objects)%list.
Proof.
  cbn zeta.
  destruct (generate_video_frame p e image prompt negative_prompt w)
    as (_ & Hs & _).
  rewrite firstn_all in Hs. apply firstn_all_prefix in Hs.
  split; [exact Hs|]. split; [|split].
  - destruct Hs as [objects Hs].
    destruct (nth_error (store w) (workflow_api_json p)) as [t|] eqn:Ht.
    + rewrite Hs. rewrite nth_error_app1; [exact Ht|].
      apply nth_error_Some. congruence.
    + unfold generate_video, try_except, inject_parameters, bind, load.
      rewrite Ht. cbn. exact Ht.
  - destruct (inject_parameters p e image prompt negative_prompt w)
      as [[[resp|h o]|ex] w1] eqn:E; cbn; auto.
    apply inject_parameters_fresh in E. subst. split; [reflexivity|].
    apply nth_error_None. apply Nat.le_refl.
  - intros requests.
    destruct (serve_frame p requests w) as (_ & Hs' & _).
    rewrite firstn_all in Hs'. now apply firstn_all_prefix.
Qed.


(** ** CompletionWatcher: the push channel *)

Lemma push_wait_app (evs1 evs2 : list event) :
  push_wait (evs1 ++ evs2) = push_wait evs1 + push_wait evs2.
Proof.
  induction evs1 as [|ev evs1 IH]; [reflexivity|].
  cbn. destruct ev; rewrite IH; lia.
Qed.

Section Waiting.

Lemma waits_mono {A} (k k' : Z) (m : M A) :
  k <= k' -> waits k m -> waits k' m.
Proof. intros Hk Hm w. specialize (Hm w). lia. Qed.

Lemma waits_ret {A} (a : A) : waits 0 (ret a).
Proof. intros w. cbn. lia. Qed.

Lemma waits_raise {A} (e : exn) : waits 0 (@raise A e).
Proof. intros w. cbn. lia. Qed.

Lemma waits_lift {A} (r : result A) : waits 0 (lift r).
Proof. intros w. cbn. lia. Qed.

Lemma waits_connected (ws : nat) : waits 0 (connected ws).
Proof. intros w. cbn. lia. Qed.

Lemma waits_set_connected (ws : nat) (c : bool) :
  waits 0 (set_connected ws c).
Proof. intros w. cbn. lia. Qed.

Lemma waits_recv (t : Z) : 0 <= t -> waits t (emit (EWsRecv t)).
Proof. intros Ht w. cbn. rewrite push_wait_app. cbn. lia. Qed.

Lemma waits_emit (ev : event) :
  match ev with EWsRecv _ => False | _ => True end -> waits 0 (emit ev).
Proof.
  intros Hev w. cbn. rewrite push_wait_app.
  destruct ev; cbn; lia || contradiction.
Qed.

Lemma waits_print (line : log_line) : waits 0 (print line).
Proof. now apply waits_emit. Qed.

Lemma waits_bind {A B} (k1 k2 : Z) (m : M A) (f : A -> M B) :
  0 <= k2 -> waits k1 m -> (forall a, waits k2 (f a)) ->
  waits (k1 + k2) (bind m f).
Proof.
  intros H2 Hm Hf w. unfold bind. specialize (Hm w).
  destruct (m w) as [[a|e] w1]; cbn in *; [|lia].
  specialize (Hf a w1). lia.
Qed.

Lemma waits_bind0 {A B} (k : Z) (m : M A) (f : A -> M B) :
  0 <= k -> waits 0 m -> (forall a, waits k (f a)) -> waits k (bind m f).
Proof. intros. now apply (waits_bind 0 k). Qed.

Lemma waits_try_except {A} (k : Z) (m : M A) (handler : exn -> M A) :
  waits k m -> (forall e, waits 0 (handler e)) ->
  waits k (try_except m handler).
Proof.
  intros Hm Hh w. unfold try_except. specialize (Hm w).
  destruct (m w) as [[a|e] w1]; cbn in *; [lia|].
  specialize (Hh e w1). lia.
Qed.

Lemma waits_try_finally {A} (k : Z) (m : M A) (cleanup : M unit) :
  waits k m -> waits 0 cleanup -> waits k (try_finally m cleanup).
Proof.
  intros Hm Hc w. unfold try_finally. specialize (Hm w).
  destruct (m w) as [r w1]; cbn in *. specialize (Hc w1). lia.
Qed.

Lemma waits_when (b : bool) (m : M unit) : waits 0 m -> waits 0 (when b m).
Proof. intros Hm. destruct b; [exact Hm | apply waits_ret]. Qed.

Ltac waits0 :=
  repeat first
    [ apply waits_ret | apply waits_raise | apply waits_lift
    | apply waits_connected | apply waits_set_connected
    | apply waits_print | apply waits_when
    | apply waits_emit; exact I
    | apply waits_bind0; [lia | | intros ?]
    | match goal with
      | |- waits _ (if ?b then _ else _) => destruct b
      | |- waits _ (match ?x with _ => _ end) => destruct x
      end ].

(** One round of the loop waits for at most the timeout, and the
    loop for at most one timeout for each arrival and one more. *)
Lemma waits_listen (p : process) (ws : nat) (target : string)
    (arrivals : list arrival) :
  waits (ws_timeout * (Z.of_nat (length arrivals) + 1))
        (listen p ws target arrivals).
Proof.
  induction arrivals as [|a rest IH]; cbn [listen length].
  - apply (waits_mono (ws_timeout + 0)); [unfold ws_timeout; lia|].
    apply waits_bind; [lia | now apply waits_recv | intros _; waits0].
  - assert (Hrest : 0 <= ws_timeout * (Z.of_nat (length rest) + 1))
      by (unfold ws_timeout; lia).
    destruct (ws_timeout <=? gap_of a) eqn:Hgap.
    + apply (waits_mono (ws_timeout + 0)); [unfold ws_timeout in *; lia|].
      apply waits_bind; [lia | now apply waits_recv | intros _; waits0].
    + apply Z.leb_gt in Hgap.
      apply (waits_mono
               (gap_of a + ws_timeout * (Z.of_nat (length rest) + 1)));
        [unfold ws_timeout in *; lia|].
      apply waits_bind; [exact Hrest | |intros _].
      * apply waits_recv. destruct a; cbn; lia.
      * destruct a as [gap [|] data | gap ex still].
        -- repeat first
             [ exact IH
             | solve [waits0]
             | apply waits_bind0; [exact Hrest | solve [waits0] | intros ?]
             | apply (waits_mono 0); [exact Hrest | solve [waits0]]
             | match goal with
               | |- waits _ (if ?b then _ else _) => destruct b
               end ].
        -- exact IH.
        -- apply (waits_mono 0); [exact Hrest | waits0].
Qed.

Lemma waits_watch_push (p : process) (e : env) (target : string) :
  waits (ws_timeout * (Z.of_nat (length (ws_arrivals e)) + 1))
        (watch_push p e target).
Proof.
  assert (Hk : 0 <= ws_timeout * (Z.of_nat (length (ws_arrivals e)) + 1))
    by (unfold ws_timeout; lia).
  unfold watch_push. apply waits_bind0; [exact Hk | |intros ws].
  - intros w. cbn. lia.
  - apply waits_try_finally; [|waits0].
    apply waits_try_except; [|intros ex; waits0].
    do 4 (apply waits_bind0; [exact Hk | solve [waits0] | intros ?]).
    apply (waits_mono
             (ws_timeout * (Z.of_nat (length (ws_arrivals e)) + 1) + 0));
      [lia|].
    apply waits_bind; [lia | apply waits_listen | intros ?; waits0].
Qed.

End Waiting.

(** A passed-over arrival only leaves its note in the trace. *)
Lemma listen_passed_over (p : process) (ws : nat) (target : string)
    (a : arrival) (rest : list arrival) (w : world) :
  passed_over target a = true ->
  listen p ws target (a :: rest) w
  = bind (note_arrival p a) (fun _ => listen p ws target rest) w.
Proof.
  intros Ha. destruct a as [gap is_text data | gap ex still];
    [|discriminate].
  cbn [passed_over] in Ha. apply andb_prop in Ha. destruct Ha as [Hgap Hm].
  apply Z.ltb_lt in Hgap. cbn [listen gap_of].
  destruct (Z.leb_spec ws_timeout (Z.of_N gap)) as [Hle|_]; [lia|].
  unfold note_arrival. cbn [gap_of].
  destruct is_text; [|reflexivity].
  unfold bind at 1 3. cbn [emit].
  unfold bind at 1, lift at 1.
  destruct (json_loads_text data) as [message|ex]; [|discriminate].
  destruct message as [| | | | | |m]; try discriminate.
  cbn [other_event] in Hm.
  assert (Hskip :
    forall w0,
      (type <- lift (py_get (JDict m) "type" JNull) ;;
       executed_target <-
         (if eq_str type "executed" then
            data0 <- lift (py_get (JDict m) "data" (JDict [])) ;;
            node <- lift (py_get data0 "node" JNull) ;;
            ret (eq_str node target)
          else ret false) ;;
       if executed_target : bool then
         when (VERBOSE p) (print (LogFoundExecuted target)) ;;
         data0 <- lift (py_get (JDict m) "data" (JDict [])) ;;
         outputs <- lift (py_get data0 "output" (JDict [])) ;;
         lift (parse_video_path_from_output outputs)
       else listen p ws target rest)%M w0
      = listen p ws target rest w0).
  { intros w0. unfold bind at 1, lift at 1. cbn [py_get].
    destruct (dict_get "type" m) as [type|]; [|reflexivity].
    destruct (eq_str type "executed"); [|reflexivity].
    unfold bind at 1 2, lift at 1. cbn [py_get].
    destruct (dict_get "data" m) as [[| | | | | |d]|]; try discriminate.
    - unfold lift at 1. cbn [py_get].
      destruct (dict_get "node" d) as [node|]; cbn.
      + now destruct (eq_str node target).
      + reflexivity.
    - reflexivity. }
  unfold bind at 1. unfold when.
  destruct (VERBOSE p); cbn [print emit ret]; apply Hskip.
Qed.

(** However many events arrive, each adds its gap to the wait: [n]
    progress events 200 seconds apart keep the loop waiting for
    [200 * n + 300] seconds. *)
Lemma push_wait_grows_with_events (n : nat) (w : world) :
  push_wait
    (trace (snd (listen sample_process 0 "5"
                   (repeat (Frame 200 true progress_message) n) w)))
  = push_wait (trace w) + 200 * Z.of_nat n + 300.
Proof.
  revert w. induction n as [|n IH]; intros w.
  - cbn. rewrite push_wait_app. cbn. unfold ws_timeout. lia.
  - cbn [repeat]. rewrite listen_passed_over by reflexivity.
    unfold bind.
    destruct (note_arrival sample_process
                (Frame 200 true progress_message) w) as [[[]|ex] w1] eqn:E;
      [|discriminate E].
    rewrite IH.
    assert (Hw1 : push_wait (trace w1) = push_wait (trace w) + 200).
    { injection E as <-. cbn. rewrite push_wait_app. cbn. lia. }
    lia.
Qed.

(** C2, as stated, fails: every event restarts the wait.  Two progress
    events, each 200 seconds after the last, are both passed over, and
    the push phase then waits 700 seconds, past the one ceiling of 300
    that the claim gives. *)
Lemma push_wait_exceeds_timeout :
  let e := sample_env slow_progress history_without_entry in
  let w := sample_world sample_template in
  forallb (passed_over "5") slow_progress = true
  /\ fst (watch_push sample_process e "5" w) = Ok None
  /\ push_wait (trace (snd (watch_push sample_process e "5" w))) = 700
  /\ ~ (push_wait (trace (snd (watch_push sample_process e "5" w)))
        - push_wait (trace w) <= ws_timeout).
Proof.
  cbn zeta. split; [reflexivity|]. split; [reflexivity|].
  assert (H : push_wait
                (trace (snd (watch_push sample_process
                               (sample_env slow_progress history_without_entry)
                               "5" (sample_world sample_template)))) = 700)
    by reflexivity.
  split; [exact H|]. rewrite H. cbn. unfold ws_timeout. lia.
Qed.

(** C2 (amended): in the listening loop every well-formed event that
    is not an [executed] event for the target node is passed over: the
    loop goes on as if it had not arrived, but for the note of the
    [recv] in the trace.  The timeout bounds each single wait and
    starts again with every arrival, so the push phase waits for at
    most one timeout for each arrival and one more, not for one timeout
    in all. *)
Theorem listen_passes_over_and_waits (p : process) (e : env) (ws : nat)
    (target : string) (a : arrival) (rest : list arrival) (w : world) :
  passed_over target a = true ->
  listen p ws target (a :: rest) w
  = bind (note_arrival p a) (fun _ => listen p ws target rest) w
  /\ fst (listen p ws target (a :: rest) w)
     = fst (listen p ws target rest (snd (note_arrival p a w)))
  /\ push_wait (trace (snd (note_arrival p a w)))
     = push_wait (trace w) + gap_of a
  /\ 0 <= gap_of a < ws_timeout
  /\ push_wait (trace (snd (watch_push p e target w))) - push_wait (trace w)
     <= ws_timeout * (Z.of_nat (length (ws_arrivals e)) + 1).
Proof.
  intros Ha. pose proof (listen_passed_over p ws target a rest w Ha) as H.
  split; [exact H|]. split; [|split; [|split]].
  - rewrite H. unfold bind.
    destruct (note_arrival p a w) as [[[]|ex] w1] eqn:E; [reflexivity|].
    exfalso. revert E. unfold note_arrival, bind, emit.
    destruct a as [gap [|] data|]; try discriminate.
    destruct (json_loads_text data); try discriminate.
    unfold when. destruct (VERBOSE p); discriminate.
  - unfold note_arrival, bind, emit.
    destruct a as [gap [|] data|]; cbn [gap_of].
    + destruct (json_loads_text data); unfold when;
        [destruct (VERBOSE p)|]; cbn; rewrite ?push_wait_app; cbn; lia.
    + cbn. rewrite push_wait_app. cbn. lia.
    + discriminate.
  - destruct a as [gap is_text data|]; [|discriminate].
    cbn in Ha |- *. apply andb_prop in Ha. destruct Ha as [Hg _].
    apply Z.ltb_lt in Hg. lia.
  - pose proof (waits_watch_push p e target w). lia.
Qed.

Lemma listen_passes_over_and_waits_witness :
  let e := sample_env slow_progress history_without_entry in
  let w := sample_world sample_template in
  passed_over "5" (Frame 200 true progress_message) = true
  /\ fst (listen sample_process 0 "5" slow_progress w)
     = fst (listen sample_process 0 "5"
              [Frame 200 true progress_message]
              (snd (note_arrival sample_process
                      (Frame 200 true progress_message) w)))
  /\ push_wait (trace (snd (watch_push sample_process e "5" w)))
     - push_wait (trace w) <= 900.
Proof.
  cbn zeta. split; [reflexivity|].
  destruct (listen_passes_over_and_waits sample_process
              (sample_env slow_progress history_without_entry) 0 "5"
              (Frame 200 true progress_message)
              [Frame 200 true progress_message]
              (sample_world sample_template) eq_refl)
    as (_ & H2 & _ & _ & H5).
  split; [exact H2 | exact H5].
Defined.

(** ** CompletionWatcher: the pull fallback *)

Lemma fst_bind {A B} (m : M A) (f : A -> M B) (w : world) :
  fst (bind m f w)
  = match fst (m w) with
    | Ok a => fst (f a (snd (m w)))
    | Raise e => Raise e
    end.
Proof. unfold bind. now destruct (m w) as [[a|e] w1]. Qed.

Lemma fst_try_except {A} (m : M A) (handler : exn -> M A) (w : world) :
  fst (try_except m handler w)
  = match fst (m w) with
    | Ok a => Ok a
    | Raise e => fst (handler e (snd (m w)))
    end.
Proof. unfold try_except. now destruct (m w) as [[a|e] w1]. Qed.

Lemma dict_get_nonempty (k : string) (d : list (string * json)) (v : json) :
  dict_get k d = Some v -> truthy (JDict d) = true.
Proof. destruct d; [discriminate | reflexivity]. Qed.

(** The history the watcher reads, when the engine answers. *)
Lemma get_history_reply (p : process) (e : env) (prompt_id : json)
    (body : string) (reply : json) (w : world) :
  history_reply e = Ok body -> json_loads_text body = Ok reply ->
  fst (get_history p e prompt_id w) = Ok reply.
Proof.
  intros Hb Hr. unfold get_history, try_except, bind, emit, lift.
  rewrite Hb, Hr. reflexivity.
Qed.

(** Without an entry for the target the fallback returns [None]. *)
Lemma poll_history_lacks_entry (p : process) (e : env) (pid target : string)
    (body : string) (reply : json) (w : world) :
  history_reply e = Ok body -> json_loads_text body = Ok reply ->
  lacks_entry reply pid target = true ->
  fst (poll_history p e (JStr pid) target w) = Ok None.
Proof.
  intros Hb Hr Hl. unfold poll_history.
  rewrite !fst_bind. cbn [print emit fst snd].
  rewrite (get_history_reply p e (JStr pid) body reply _ Hb Hr).
  cbv beta iota. rewrite fst_bind.
  destruct reply as [| | | | | |r]; try discriminate.
  cbn [lacks_entry] in Hl. cbn [lift fst snd py_get_key py_get].
  destruct (dict_get pid r) as [history|]; [|reflexivity].
  destruct history as [|b|z|fl|s|l|h]; cbv beta iota in Hl.
  1-6: apply negb_true_iff in Hl; rewrite fst_bind, Hl; reflexivity.
  rewrite fst_bind.
  destruct h as [|kv h']; [reflexivity|]. cbn [truthy].
  rewrite fst_bind. cbn [lift fst snd py_get].
  destruct (dict_get "outputs" (kv :: h')) as [outputs|]; [|reflexivity].
  destruct outputs as [| | | | | |o]; try discriminate.
  cbn [py_contains fst snd]. apply negb_true_iff in Hl. rewrite Hl.
  reflexivity.
Qed.

(** With an entry the fallback returns what the extractor finds in
    it. *)
Lemma poll_history_entry (p : process) (e : env) (pid target : string)
    (body : string) (reply payload : json) (w : world) :
  history_reply e = Ok body -> json_loads_text body = Ok reply ->
  history_entry reply pid target = Some payload ->
  fst (poll_history p e (JStr pid) target w)
  = parse_video_path_from_output payload.
Proof.
  intros Hb Hr He. unfold poll_history.
  rewrite !fst_bind. cbn [print emit fst snd].
  rewrite (get_history_reply p e (JStr pid) body reply _ Hb Hr).
  cbv beta iota. rewrite fst_bind.
  destruct reply as [| | | | | |r]; try discriminate.
  cbn [history_entry] in He. cbn [lift fst snd py_get_key py_get].
  destruct (dict_get pid r) as [[| | | | | |h]|]; try discriminate.
  rewrite fst_bind.
  destruct (dict_get "outputs" h) as [outputs|] eqn:Ho; [|discriminate].
  rewrite (dict_get_nonempty _ _ _ Ho).
  rewrite fst_bind. cbn [lift fst snd py_get]. rewrite Ho.
  destruct outputs as [| | | | | |o]; try discriminate.
  cbn [py_contains fst snd]. unfold has_key. rewrite He.
  rewrite !fst_bind. cbn [lift fst snd py_getitem]. rewrite Ho.
  rewrite fst_bind. cbn [lift fst snd py_getitem]. rewrite He.
  now destruct (parse_video_path_from_output payload).
Qed.

(** The handler from a finished injection on: its response is the one
    [respond] builds from what the fallback returns, when the engine
    took the job and the push channel gave nothing. *)
Lemma generate_video_after_fallback (p : process) (e : env)
    (image : image_data) (prompt negative_prompt : string) (w : world)
    (h : nat) (output_id pid : string) (q : list (string * json)) :
  let w1 := snd (inject_parameters p e image prompt negative_prompt w) in
  let w2 := snd (queue_prompt p e h w1) in
  let w3 := snd (watch_push p e output_id w2) in
  fst (inject_parameters p e image prompt negative_prompt w)
    = Ok (Injected h output_id) ->
  fst (queue_prompt p e h w1) = Ok (JDict q) ->
  dict_get "prompt_id" q = Some (JStr pid) ->
  fst (watch_push p e output_id w2) = Ok None ->
  fst (generate_video p e image prompt negative_prompt w)
  = match fst (poll_history p e (JStr pid) output_id w3) with
    | Ok video_path => Ok (caught (respond video_path))
    | Raise ex => Ok (JSONResponse 500 (error_content (exn_msg ex)))
    end
  /\ fst (get_final_video_path p e (JStr pid) output_id w2)
     = fst (poll_history p e (JStr pid) output_id w3).
Proof.
  intros w1 w2 w3 Hi Hq Hp Hw.
  assert (Hg : fst (get_final_video_path p e (JStr pid) output_id w2)
               = fst (poll_history p e (JStr pid) output_id w3)).
  { unfold get_final_video_path. rewrite fst_bind, Hw. reflexivity. }
  split; [|exact Hg].
  unfold generate_video. rewrite fst_try_except, fst_bind, Hi.
  fold w1. unfold submit_and_wait.
  rewrite fst_bind, Hq. fold w2.
  rewrite fst_bind. rewrite (dict_get_nonempty _ _ _ Hp).
  cbn [lift fst snd py_contains]. unfold has_key. rewrite Hp. cbn [negb].
  rewrite fst_bind. cbn [lift fst snd py_getitem]. rewrite Hp.
  rewrite fst_bind, Hg.
  destruct (fst (poll_history p e (JStr pid) output_id w3)) as [r|ex];
    [|reflexivity].
  cbn [lift fst]. destruct (respond r); reflexivity.
Qed.

(** C3, as stated, fails: the history without an entry for the target
    and the history whose entry holds no artifact end in the same
    response, with the same status and the same detail; the caller
    cannot tell the one failure from the other. *)
Lemma missing_entry_not_distinguished :
  let run history :=
    fst (generate_video sample_process (sample_env [] history)
           sample_image "a cat" EmptyString
           (sample_world sample_template)) in
  lacks_entry history_without_entry "job-1" "5" = true
  /\ (exists payload,
        history_entry history_without_artifact "job-1" "5" = Some payload
        /\ parse_video_path_from_output payload = Ok None)
  /\ run history_without_entry
     = Ok (JSONResponse 500 (error_content no_video_path))
  /\ run history_without_entry = run history_without_artifact.
Proof.
  cbn zeta. split; [reflexivity|]. split; [|split].
  - eexists. split; reflexivity.
  - vm_compute. reflexivity.
  - vm_compute. reflexivity.
Qed.

(** C3 (amended): when the engine took the job, the push channel gave
    nothing, and the history holds no entry for the target node, the
    watcher returns [None] and the handler answers status 500 with the
    fixed detail of [no_video_path].  The answer is the same when the
    history holds an entry in which the extractor finds no path: the
    two failures are one to the caller. *)
Theorem missing_entry_response (p : process) (e : env)
    (image : image_data) (prompt negative_prompt : string) (w : world)
    (h : nat) (output_id pid body : string) (q : list (string * json))
    (reply : json) :
  let w1 := snd (inject_parameters p e image prompt negative_prompt w) in
  let w2 := snd (queue_prompt p e h w1) in
  fst (inject_parameters p e image prompt negative_prompt w)
    = Ok (Injected h output_id) ->
  fst (queue_prompt p e h w1) = Ok (JDict q) ->
  dict_get "prompt_id" q = Some (JStr pid) ->
  fst (watch_push p e output_id w2) = Ok None ->
  history_reply e = Ok body ->
  json_loads_text body = Ok reply ->
  (lacks_entry reply pid output_id = true ->
   fst (get_final_video_path p e (JStr pid) output_id w2) = Ok None
   /\ fst (generate_video p e image prompt negative_prompt w)
      = Ok (JSONResponse 500 (error_content no_video_path)))
  /\ (forall payload,
        history_entry reply pid output_id = Some payload ->
        parse_video_path_from_output payload = Ok None ->
        fst (get_final_video_path p e (JStr pid) output_id w2) = Ok None
        /\ fst (generate_video p e image prompt negative_prompt w)
           = Ok (JSONResponse 500 (error_content no_video_path))).
Proof.
  intros w1 w2 Hi Hq Hp Hw Hb Hr.
  destruct (generate_video_after_fallback p e image prompt negative_prompt
              w h output_id pid q Hi Hq Hp Hw) as [Hg Hf].
  fold w1 in Hg, Hf. fold w2 in Hg, Hf. split.
  - intros Hl. rewrite Hg, Hf.
    rewrite (poll_history_lacks_entry p e pid output_id body reply _ Hb Hr Hl).
    split; reflexivity.
  - intros payload He Hn. rewrite Hg, Hf.
    rewrite (poll_history_entry p e pid output_id body reply payload _
               Hb Hr He), Hn.
    split; reflexivity.
Qed.

Lemma missing_entry_response_witness :
  let e := sample_env [] history_without_entry in
  fst (generate_video sample_process e sample_image "a cat"
         EmptyString (sample_world sample_template))
  = Ok (JSONResponse 500 (error_content no_video_path)).
Proof.
  cbn zeta.
  refine (proj2 (proj1 (missing_entry_response sample_process
            (sample_env [] history_without_entry) sample_image
            "a cat" EmptyString (sample_world sample_template)
            2%nat "5" "job-1" (json_dumps history_without_entry)
            [("prompt_id", JStr "job-1")] history_without_entry
            _ _ _ _ _ _) _)); vm_compute; reflexivity.
Defined.

(** ** ParameterInjector *)

Lemma load_ok (h : nat) (v : json) (w : world) :
  nth_error (store w) h = Some v -> load h w = (Ok v, w).
Proof. intros H. unfold load. now rewrite H. Qed.

Lemma find_node_id_at_ok (h : nat) (g : json) (t k : option string)
    (w : world) :
  nth_error (store w) h = Some g ->
  find_node_id_at h t k w = (find_node_id g t k, w).
Proof. intros H. unfold find_node_id_at, bind, lift. now rewrite load_ok with (v := g). Qed.

Lemma nth_error_alloc (l : list json) (v : json) :
  nth_error (l ++ [v]) (length l) = Some v.
Proof. rewrite nth_error_app2, Nat.sub_diag; [reflexivity | apply Nat.le_refl]. Qed.

Lemma find_by_kind_returns (g : json) (t : string) (r : option string)
    (title : option string) :
  find_node_id g title None = Ok r ->
  exists k, find_node_id g None (Some "KSampler") = Ok k.
Proof.
  destruct g as [| | | | | |items]; try discriminate. intros _.
  eexists. cbn. apply find_by_kind_first. discriminate.
Qed.

(** The handler when a required identifier is not truthy: it answers
    404 with the titles of [missing_titles] and touches nothing but the
    store, to which the copy was added. *)
Lemma generate_video_incomplete_template (p : process) (e : env)
    (image : image_data) (prompt negative_prompt : string) (w : world)
    (template g : json) (i1 i2 i3 i4 : option string) :
  let found := [("load_image", i1); ("positive_prompt", i2);
                ("negative_prompt", i3); ("output_paths", i4)] in
  nth_error (store w) (workflow_api_json p) = Some template ->
  json_loads (JStr (json_dumps template)) = Ok g ->
  find_node_id g (Some "load_image") None = Ok i1 ->
  find_node_id g (Some "positive_prompt") None = Ok i2 ->
  find_node_id g (Some "negative_prompt") None = Ok i3 ->
  find_node_id g (Some "output_paths") None = Ok i4 ->
  forallb truthy_opt [i1; i2; i3; i4] = false ->
  generate_video p e image prompt negative_prompt w
  = (Ok (JSONResponse 404 (error_content (missing_detail (missing_titles found)))),
     {| store := store w ++ [g]; sockets := sockets w; trace := trace w |}).
Proof.
  intros found Ht Hg H1 H2 H3 H4 Hall.
  destruct (find_by_kind_returns g "KSampler" i1 _ H1) as [k Hk].
  unfold generate_video, try_except. unfold bind at 1.
  unfold inject_parameters.
  rewrite (bind_ok _ _ w w template) by now apply load_ok.
  rewrite (bind_ok _ _ w w g) by (unfold lift; now rewrite Hg).
  set (w1 := {| store := store w ++ [g]; sockets := sockets w;
                trace := trace w |}).
  rewrite (bind_ok _ _ w w1 (length (store w))) by reflexivity.
  assert (Hw1 : nth_error (store w1) (length (store w)) = Some g)
    by apply nth_error_alloc.
  rewrite (bind_ok _ _ w1 w1 i1)
    by (rewrite (find_node_id_at_ok _ g) by exact Hw1; now rewrite H1).
  rewrite (bind_ok _ _ w1 w1 i2)
    by (rewrite (find_node_id_at_ok _ g) by exact Hw1; now rewrite H2).
  rewrite (bind_ok _ _ w1 w1 i3)
    by (rewrite (find_node_id_at_ok _ g) by exact Hw1; now rewrite H3).
  rewrite (bind_ok _ _ w1 w1 i4)
    by (rewrite (find_node_id_at_ok _ g) by exact Hw1; now rewrite H4).
  rewrite (bind_ok _ _ w1 w1 k)
    by (rewrite (find_node_id_at_ok _ g) by exact Hw1; now rewrite Hk).
  rewrite Hall. reflexivity.
Qed.

(** When no node sits under the empty id, the titles the handler names
    are the titles whose lookup found no node. *)
Lemma missing_titles_not_found (found : list (string * option string)) :
  (forall t, ~ In (t, Some EmptyString) found) ->
  missing_titles found = not_found found.
Proof.
  unfold missing_titles, not_found.
  induction found as [|[t [s|]] rest IH]; intros H; [reflexivity| |].
  - cbn. destruct (String.eqb_spec s EmptyString) as [->|Hs].
    + exfalso. apply (H t). now left.
    + cbn. apply IH. intros t' Hin. apply (H t'). now right.
  - cbn. f_equal. apply IH. intros t' Hin. apply (H t'). now right.
Qed.

(** C1 holds away from the empty node id: if some required title is
    not found and no found node sits under the empty id, the handler
    answers 404, names the titles that were not found and no other,
    and has made no network call. *)
Lemma generate_video_names_missing_slots (p : process) (e : env)
    (image : image_data) (prompt negative_prompt : string) (w : world)
    (template g : json) (i1 i2 i3 i4 : option string) :
  let found := [("load_image", i1); ("positive_prompt", i2);
                ("negative_prompt", i3); ("output_paths", i4)] in
  let run := generate_video p e image prompt negative_prompt w in
  nth_error (store w) (workflow_api_json p) = Some template ->
  json_loads (JStr (json_dumps template)) = Ok g ->
  find_node_id g (Some "load_image") None = Ok i1 ->
  find_node_id g (Some "positive_prompt") None = Ok i2 ->
  find_node_id g (Some "negative_prompt") None = Ok i3 ->
  find_node_id g (Some "output_paths") None = Ok i4 ->
  not_found found <> [] ->
  (forall t, ~ In (t, Some EmptyString) found) ->
  fst run = Ok (JSONResponse 404
                  (error_content (missing_detail (not_found found))))
  /\ trace (snd run) = trace w.
Proof.
  intros found run Ht Hg H1 H2 H3 H4 Hnf Hne.
  assert (Hall : forallb truthy_opt [i1; i2; i3; i4] = false).
  { destruct i1 as [s1|], i2 as [s2|], i3 as [s3|], i4 as [s4|];
      cbn in Hnf |- *; try congruence;
      repeat match goal with
             | |- context [String.eqb ?s EmptyString] =>
                 destruct (String.eqb s EmptyString)
             end;
      reflexivity. }
  unfold run.
  rewrite (generate_video_incomplete_template p e image prompt
             negative_prompt w template g i1 i2 i3 i4 Ht Hg H1 H2 H3 H4 Hall).
  cbn [fst snd trace]. rewrite missing_titles_not_found by exact Hne.
  split; reflexivity.
Qed.

(** C1 at the failing input: the image loader sits under the empty
    node id and the negative-prompt node is absent.  The lookup finds
    the image loader, yet the response names [load_image] next to
    [negative_prompt] as missing.  No network call has been made. *)
Theorem found_slot_reported_missing :
  let e := sample_env [] history_without_entry in
  let w := sample_world empty_id_template in
  let run :=
    generate_video sample_process e sample_image "a cat"
      EmptyString w in
  json_loads (JStr (json_dumps empty_id_template)) = Ok empty_id_template
  /\ find_node_id empty_id_template (Some "load_image") None
     = Ok (Some EmptyString)
  /\ find_node_id empty_id_template (Some "positive_prompt") None
     = Ok (Some "2")
  /\ find_node_id empty_id_template (Some "negative_prompt") None = Ok None
  /\ find_node_id empty_id_template (Some "output_paths") None
     = Ok (Some "5")
  /\ fst run
     = Ok (JSONResponse 404
             (error_content
                "Could not find required nodes. Missing titles: load_image, negative_prompt"))
  /\ trace (snd run) = [].
Proof.
  cbn zeta.
  do 6 (split; [vm_compute; reflexivity|]).
  vm_compute; reflexivity.
Qed.

Lemma dict_get_set_same (k : string) (v : json) (d : list (string * json)) :
  dict_get k (dict_set k v d) = Some v.
Proof.
  induction d as [|[k' v'] d IH]; cbn.
  - now rewrite String.eqb_refl.
  - destruct (String.eqb k' k) eqn:E; cbn; rewrite E; [reflexivity | exact IH].
Qed.

Lemma dict_get_set_other (k k' : string) (v : json)
    (d : list (string * json)) :
  k <> k' -> dict_get k' (dict_set k v d) = dict_get k' d.
Proof.
  intros Hk. induction d as [|[k0 v0] d IH]; cbn.
  - destruct (String.eqb_spec k k'); [contradiction | reflexivity].
  - destruct (String.eqb_spec k0 k) as [->|Hk0]; cbn.
    + destruct (String.eqb_spec k k'); [contradiction | reflexivity].
    + destruct (String.eqb k0 k'); [reflexivity | exact IH].
Qed.

Lemma nth_error_replace_nth {A} (h : nat) (x y : A) (l : list A) :
  nth_error l h = Some y -> nth_error (replace_nth h x l) h = Some x.
Proof.
  revert h. induction l as [|z l IH]; intros [|h] H; try discriminate.
  - reflexivity.
  - cbn. now apply IH.
Qed.

(** A write leaves every node its mapping of inputs. *)
Lemma has_inputs_write (g : json) (node_id field : string) (x : json)
    (other : string) :
  has_inputs g other = true ->
  has_inputs (write_input g node_id field x) other = true.
Proof.
  unfold write_input, has_inputs.
  destruct g as [| | | | | |gi]; try discriminate.
  destruct (dict_get node_id gi) as [[| | | | | |ni]|] eqn:Hn; auto.
  destruct (dict_get "inputs" ni) as [[| | | | | |ii]|] eqn:Hi; auto.
  intros H. destruct (String.eqb_spec node_id other) as [->|Hne].
  - now rewrite dict_get_set_same, dict_get_set_same.
  - now rewrite dict_get_set_other.
Qed.

(** A write shows in the field it was made to. *)
Lemma input_of_write (g : json) (node_id field : string) (x : json) :
  has_inputs g node_id = true ->
  input_of (write_input g node_id field x) node_id field = Some x.
Proof.
  unfold write_input, has_inputs, input_of.
  destruct g as [| | | | | |gi]; try discriminate.
  destruct (dict_get node_id gi) as [[| | | | | |ni]|] eqn:Hn;
    try discriminate.
  destruct (dict_get "inputs" ni) as [[| | | | | |ii]|] eqn:Hi;
    try discriminate.
  intros _. now rewrite !dict_get_set_same.
Qed.

Lemma set_input_ok (h : nat) (node_id field : string) (x g : json)
    (w : world) :
  nth_error (store w) h = Some g ->
  has_inputs g node_id = true ->
  set_input h node_id field x w
  = (Ok tt, {| store := replace_nth h (write_input g node_id field x) (store w);
               sockets := sockets w; trace := trace w |}).
Proof.
  intros Hh Hi. unfold set_input.
  rewrite (bind_ok _ _ w w g) by now apply load_ok.
  unfold has_inputs in Hi. unfold write_input.
  destruct g as [| | | | | |gi]; try discriminate.
  destruct (dict_get node_id gi) as [[| | | | | |ni]|] eqn:Hn;
    try discriminate.
  destruct (dict_get "inputs" ni) as [[| | | | | |ii]|] eqn:Hii;
    try discriminate.
  unfold bind, lift, put. cbn [py_getitem py_setitem].
  rewrite Hn. cbn [py_getitem]. rewrite Hii. reflexivity.
Qed.

Lemma bind_assoc {A B C} (m : M A) (f : A -> M B) (g : B -> M C)
    (w : world) :
  bind (bind m f) g w = bind m (fun a => bind (f a) g) w.
Proof. unfold bind. now destruct (m w) as [[a|e] w1]. Qed.

Lemma upload_image_store (p : process) (e : env) (image : image_data)
    (w : world) :
  store (snd (upload_image p e image w)) = store w.
Proof.
  unfold upload_image, bind, lift, emit, ret.
  destruct image as [filename content_type file_content | text]; cbn.
  - destruct (upload_reply e) as [body|]; cbn; [|reflexivity].
    destruct (json_loads_text body); reflexivity.
  - destruct (b64decode e text); cbn; [|reflexivity].
    destruct (upload_reply e) as [body|]; cbn; [|reflexivity].
    destruct (json_loads_text body); reflexivity.
Qed.

Lemma randint_range (lo hi entropy : Z) :
  lo <= hi -> lo <= randint lo hi entropy <= hi.
Proof.
  intros H. unfold randint.
  pose proof (Z.mod_pos_bound entropy (hi - lo + 1)). lia.
Qed.

(** The injection on a template with its four required nodes, each
    under a non-empty id and with a mapping of inputs. *)
Lemma inject_parameters_graph (p : process) (e : env) (image : image_data)
    (prompt negative_prompt : string) (w : world) (template g name : json)
    (i1 i2 i3 i4 : string) (k : option string) :
  let run := inject_parameters p e image prompt negative_prompt w in
  nth_error (store w) (workflow_api_json p) = Some template ->
  json_loads (JStr (json_dumps template)) = Ok g ->
  find_node_id g (Some "load_image") None = Ok (Some i1) ->
  find_node_id g (Some "positive_prompt") None = Ok (Some i2) ->
  find_node_id g (Some "negative_prompt") None = Ok (Some i3) ->
  find_node_id g (Some "output_paths") None = Ok (Some i4) ->
  find_node_id g None (Some "KSampler") = Ok k ->
  i1 <> EmptyString -> i2 <> EmptyString ->
  i3 <> EmptyString -> i4 <> EmptyString ->
  (forall w0, fst (upload_image p e image w0) = Ok name) ->
  has_inputs g i1 = true -> has_inputs g i2 = true ->
  has_inputs g i3 = true ->
  (forall ks, k = Some ks -> has_inputs g ks = true) ->
  fst run = Ok (Injected (length (store w)) i4)
  /\ nth_error (store (snd run)) (length (store w))
     = Some (injected_graph e g i1 i2 i3 k name prompt negative_prompt).
Proof.
  intros run Ht Hg H1 H2 H3 H4 Hk N1 N2 N3 N4 Hup I1 I2 I3 Ik.
  unfold run, inject_parameters.
  rewrite (bind_ok _ _ w w template) by now apply load_ok.
  rewrite (bind_ok _ _ w w g) by (unfold lift; now rewrite Hg).
  set (h := length (store w)).
  set (w1 := {| store := store w ++ [g]; sockets := sockets w;
                trace := trace w |}).
  rewrite (bind_ok _ _ w w1 h) by reflexivity.
  assert (Hw1 : nth_error (store w1) h = Some g) by apply nth_error_alloc.
  rewrite (bind_ok _ _ w1 w1 (Some i1))
    by (rewrite (find_node_id_at_ok _ g) by exact Hw1; now rewrite H1).
  rewrite (bind_ok _ _ w1 w1 (Some i2))
    by (rewrite (find_node_id_at_ok _ g) by exact Hw1; now rewrite H2).
  rewrite (bind_ok _ _ w1 w1 (Some i3))
    by (rewrite (find_node_id_at_ok _ g) by exact Hw1; now rewrite H3).
  rewrite (bind_ok _ _ w1 w1 (Some i4))
    by (rewrite (find_node_id_at_ok _ g) by exact Hw1; now rewrite H4).
  rewrite (bind_ok _ _ w1 w1 k)
    by (rewrite (find_node_id_at_ok _ g) by exact Hw1; now rewrite Hk).
  assert (Hall : forallb truthy_opt [Some i1; Some i2; Some i3; Some i4]
                 = true).
  { cbn. apply String.eqb_neq in N1, N2, N3, N4.
    now rewrite N1, N2, N3, N4. }
  rewrite Hall. cbn [negb].
  pose proof (Hup w1) as Hu. pose proof (upload_image_store p e image w1) as Hs.
  destruct (upload_image p e image w1) as [r w2] eqn:Eu. cbn in Hu, Hs.
  subst r. rewrite (bind_ok _ _ w1 w2 name) by exact Eu.
  assert (Hw2 : nth_error (store w2) h = Some g) by now rewrite Hs.
  rewrite (bind_ok _ _ _ _ tt (set_input_ok h i1 "image" name g w2 Hw2 I1)).
  set (g1 := write_input g i1 "image" name).
  assert (Hg1 : forall (ws : list bool) (tr : list event) (s : list json)
                       (old new : json),
             nth_error s h = Some old ->
             nth_error (store {| store := replace_nth h new s;
                                 sockets := ws; trace := tr |}) h = Some new).
  { intros ws tr s old new Hold. cbn.
    now apply nth_error_replace_nth with (y := old). }
  erewrite (bind_ok _ _ _ _ tt);
    [|apply set_input_ok with (g := g1);
      [eapply Hg1; exact Hw2 | now apply has_inputs_write]].
  set (g2 := write_input g1 i2 "text" (JStr prompt)).
  erewrite (bind_ok _ _ _ _ tt);
    [|apply set_input_ok with (g := g2);
      [eapply Hg1; eapply Hg1; exact Hw2
      | now apply has_inputs_write, has_inputs_write]].
  set (g3 := write_input g2 i3 "text" (JStr negative_prompt)).
  cbn [store sockets trace].
  assert (Hw3 : nth_error
                  (replace_nth h g3
                     (replace_nth h g2 (replace_nth h g1 (store w2)))) h
                = Some g3).
  { eapply nth_error_replace_nth, nth_error_replace_nth,
      nth_error_replace_nth, Hw2. }
  unfold injected_graph. fold g1 g2 g3.
  destruct k as [ks|].
  - cbn [truthy_opt]. destruct (String.eqb ks EmptyString) eqn:Eks.
    + cbn [negb]. unfold when, bind, print, emit, ret.
      destruct (VERBOSE p); cbn; split; auto.
    + cbn [negb]. rewrite bind_assoc.
      erewrite (bind_ok _ _ _ _ tt);
        [|apply set_input_ok with (g := g3);
          [exact Hw3
          | now apply has_inputs_write, has_inputs_write, has_inputs_write,
              Ik]].
      unfold when, bind, print, emit, ret.
      destruct (VERBOSE p); cbn; (split; [reflexivity|]);
        eapply nth_error_replace_nth, Hw3.
  - unfold when, bind, print, emit, ret.
    destruct (VERBOSE p); cbn; split; auto.
Qed.

(** Away from the empty node id C8 holds: the sampler is found by its
    kind, whatever its title; when the injection reaches it, its seed
    is the integer drawn for the request, between 0 and
    999999999999999; and without a sampler the injection still ends
    with the graph to submit. *)
Lemma inject_parameters_seed (p : process) (e : env) (image : image_data)
    (prompt negative_prompt : string) (w : world) (template name : json)
    (items : list (string * json)) (i1 i2 i3 i4 : string) :
  let run := inject_parameters p e image prompt negative_prompt w in
  let g := JDict items in
  let k := first_node (of_kind "KSampler") items in
  nth_error (store w) (workflow_api_json p) = Some template ->
  json_loads (JStr (json_dumps template)) = Ok g ->
  find_node_id g (Some "load_image") None = Ok (Some i1) ->
  find_node_id g (Some "positive_prompt") None = Ok (Some i2) ->
  find_node_id g (Some "negative_prompt") None = Ok (Some i3) ->
  find_node_id g (Some "output_paths") None = Ok (Some i4) ->
  i1 <> EmptyString -> i2 <> EmptyString ->
  i3 <> EmptyString -> i4 <> EmptyString ->
  (forall w0, fst (upload_image p e image w0) = Ok name) ->
  (forall node_id, In node_id [Some i1; Some i2; Some i3; k] ->
                   forall s, node_id = Some s -> has_inputs g s = true) ->
  find_node_id g None (Some "KSampler") = Ok k
  /\ fst run = Ok (Injected (length (store w)) i4)
  /\ exists g',
       nth_error (store (snd run)) (length (store w)) = Some g'
       /\ 0 <= randint 0 seed_max (entropy e) <= seed_max
       /\ match k with
          | Some ks =>
              ks <> EmptyString ->
              input_of g' ks "seed"
              = Some (JInt (randint 0 seed_max (entropy e)))
          | None =>
              g' = write_input
                     (write_input (write_input g i1 "image" name)
                        i2 "text" (JStr prompt))
                     i3 "text" (JStr negative_prompt)
          end.
Proof.
  intros run g k Ht Hg H1 H2 H3 H4 N1 N2 N3 N4 Hup Hin.
  assert (Hk : find_node_id g None (Some "KSampler") = Ok k).
  { cbn. apply find_by_kind_first. discriminate. }
  split; [exact Hk|].
  destruct (inject_parameters_graph p e image prompt negative_prompt w
              template g name i1 i2 i3 i4 k Ht Hg H1 H2 H3 H4 Hk
              N1 N2 N3 N4 Hup) as [Hr Hs].
  - apply (Hin (Some i1)); cbn; auto.
  - apply (Hin (Some i2)); cbn; auto.
  - apply (Hin (Some i3)); cbn; auto.
  - intros ks ->. apply (Hin (Some ks)); cbn; auto.
  - split; [exact Hr|]. eexists. split; [exact Hs|].
    split; [apply randint_range; unfold seed_max; lia|].
    unfold injected_graph. destruct k as [ks|] eqn:Ek; [|reflexivity].
    intros Hne. apply String.eqb_neq in Hne. rewrite Hne.
    apply input_of_write.
    apply has_inputs_write, has_inputs_write, has_inputs_write.
    apply (Hin (Some ks)); cbn; auto.
Qed.

(** C8 at the failing input: the sampler sits under the empty node id.
    The lookup by kind finds it, yet no seed is drawn for it: the graph
    the handler submits holds no seed in the sampler's inputs. *)
Theorem sampler_under_empty_id_keeps_seed :
  let e := sample_env [] history_without_entry in
  let w := sample_world empty_sampler_template in
  let run :=
    generate_video sample_process e sample_image "a cat"
      EmptyString w in
  json_loads (JStr (json_dumps empty_sampler_template))
    = Ok empty_sampler_template
  /\ find_node_id empty_sampler_template None (Some "KSampler")
     = Ok (Some EmptyString)
  /\ has_inputs empty_sampler_template EmptyString = true
  /\ exists g',
       nth_error (store (snd run)) 2 = Some g'
       /\ input_of g' "1" "image" = Some (JStr "image.png")
       /\ input_of g' EmptyString "seed" = None
       /\ In (ESubmit (server_address sample_process)
                (json_dumps
                   (JDict [("prompt", g');
                           ("client_id",
                            JStr (client_id sample_process))])))
             (trace (snd run)).
Proof.
  cbn zeta.
  do 3 (split; [vm_compute; reflexivity|]).
  eexists. split; [vm_compute; reflexivity|].
  do 2 (split; [vm_compute; reflexivity|]).
  vm_compute. right. left. reflexivity.
Qed.

(** With the sampler under the id [4] the seed is written, and without
    a sampler the request is submitted all the same. *)
Example sampler_seed_written :
  let e := sample_env [] history_without_entry in
  exists g',
    nth_error
      (store (snd (generate_video sample_process e sample_image
                     "a cat" EmptyString (sample_world sample_template))))
      2 = Some g'
    /\ input_of g' "4" "seed" = Some (JInt (randint 0 seed_max (entropy e)))
    /\ randint 0 seed_max (entropy e) = 456789012345678.
Proof.
  cbn zeta. eexists. split; [vm_compute; reflexivity|].
  split; vm_compute; reflexivity.
Qed.

Example no_sampler_still_submits :
  let e :=
    sample_env [Frame 5 true (executed_message "5" scenario_b_payload)]
      history_without_entry in
  fst (generate_video sample_process e sample_image "a cat"
         EmptyString (sample_world no_sampler_template))
  = Ok (JSONResponse 200
          (JDict [("generated_video_path", JStr "/out/video.mp4")])).
Proof. vm_compute. reflexivity. Qed.

(** * Further properties *)

(** ** NodeResolver: first match, and what makes the lookup raise *)

Lemma find_first_split {A} (f : A -> bool) (l : list A) :
  match find f l with
  | Some x =>
      exists before after,
        l = (before ++ x :: after)%list
        /\ f x = true
        /\ forall y, In y before -> f y = false
  | None => forall y, In y l -> f y = false
  end.
Proof.
  induction l as [|a l IH]; cbn; [intros y []|].
  destruct (f a) eqn:Ha.
  - exists [], l. repeat split; [exact Ha | intros y []].
  - destruct (find f l) as [x|].
    + destruct IH as (before & after & -> & Hx & Hb).
      exists (a :: before), after. repeat split; [exact Hx|].
      intros y [<-|Hy]; auto.
    + intros y [<-|Hy]; auto.
Qed.

Lemma first_node_split (test : json -> bool) (items : list (string * json)) :
  match first_node test items with
  | Some node_id =>
      exists before node after,
        items = (before ++ (node_id, node) :: after)%list
        /\ test node = true
        /\ forall kv, In kv before -> test (snd kv) = false
  | None => forall kv, In kv items -> test (snd kv) = false
  end.
Proof.
  unfold first_node.
  pose proof (find_first_split (fun kv : string * json => test (snd kv)) items)
    as H.
  destruct (find _ items) as [[node_id node]|]; cbn; [|exact H].
  destruct H as (before & after & -> & Hx & Hb).
  now exists before, node, after.
Qed.

(** X1: called with a non-empty kind and no title, [find_node_id]
    never raises on a mapping; it returns the id of the first node, in
    the order of the mapping, that is a mapping with that [class_type],
    whatever the titles are, and [None] exactly when there is no such
    node. *)
Theorem find_node_id_first_of_kind (items : list (string * json))
    (kind : string) :
  kind <> EmptyString ->
  match find_node_id (JDict items) None (Some kind) with
  | Ok (Some node_id) =>
      exists before node after,
        items = (before ++ (node_id, node) :: after)%list
        /\ of_kind kind node = true
        /\ forall kv, In kv before -> of_kind kind (snd kv) = false
  | Ok None => forall kv, In kv items -> of_kind kind (snd kv) = false
  | Raise _ => False
  end.
Proof.
  intros Hk. cbn [find_node_id py_items rbind].
  rewrite (find_by_kind_first items kind Hk).
  apply first_node_split.
Qed.

Lemma find_node_id_first_of_kind_witness :
  "KSampler" <> EmptyString
  /\ match find_node_id empty_sampler_template None (Some "KSampler") with
     | Ok (Some node_id) =>
         exists before node after,
           [("1", sample_node "load_image" "LoadImage");
            ("2", sample_node "positive_prompt" "CLIPTextEncode");
            ("3", sample_node "negative_prompt" "CLIPTextEncode");
            (EmptyString, sample_node "sampler" "KSampler");
            ("5", sample_node "output_paths" "ShowText")]
           = (before ++ (node_id, node) :: after)%list
           /\ of_kind "KSampler" node = true
           /\ forall kv, In kv before -> of_kind "KSampler" (snd kv) = false
     | Ok None =>
         forall kv,
           In kv [("1", sample_node "load_image" "LoadImage");
                  ("2", sample_node "positive_prompt" "CLIPTextEncode");
                  ("3", sample_node "negative_prompt" "CLIPTextEncode");
                  (EmptyString, sample_node "sampler" "KSampler");
                  ("5", sample_node "output_paths" "ShowText")] ->
           of_kind "KSampler" (snd kv) = false
     | Raise _ => False
     end.
Proof.
  split; [discriminate|].
  apply (find_node_id_first_of_kind
           [("1", sample_node "load_image" "LoadImage");
            ("2", sample_node "positive_prompt" "CLIPTextEncode");
            ("3", sample_node "negative_prompt" "CLIPTextEncode");
            (EmptyString, sample_node "sampler" "KSampler");
            ("5", sample_node "output_paths" "ShowText")] "KSampler").
  discriminate.
Defined.

(** X2: called with a non-empty title and no kind on a graph of
    well-formed node descriptors, [find_node_id] returns the id of the
    first node, in the order of the mapping, that declares exactly that
    title, also when several nodes declare it, and [None] exactly when
    no node declares it. *)
Theorem find_node_id_first_titled (items : list (string * json))
    (title : string) :
  title <> EmptyString ->
  Forall (fun kv => meta_ok (snd kv) = true) items ->
  match find_node_id (JDict items) (Some title) None with
  | Ok (Some node_id) =>
      exists before node after,
        items = (before ++ (node_id, node) :: after)%list
        /\ titled title node = true
        /\ forall kv, In kv before -> titled title (snd kv) = false
  | Ok None => forall kv, In kv items -> titled title (snd kv) = false
  | Raise _ => False
  end.
Proof.
  intros Ht Hok. cbn [find_node_id py_items rbind].
  rewrite (find_by_title_first items title Ht Hok).
  apply first_node_split.
Qed.

Lemma find_node_id_first_titled_witness :
  let twice :=
    [("9", sample_node "load_image" "LoadImage");
     ("3", sample_node "load_image" "LoadImageMask")] in
  "load_image" <> EmptyString
  /\ Forall (fun kv : string * json => meta_ok (snd kv) = true) twice
  /\ match find_node_id (JDict twice) (Some "load_image") None with
     | Ok (Some node_id) =>
         exists before node after,
           twice = (before ++ (node_id, node) :: after)%list
           /\ titled "load_image" node = true
           /\ forall kv, In kv before -> titled "load_image" (snd kv) = false
     | Ok None =>
         forall kv, In kv twice -> titled "load_image" (snd kv) = false
     | Raise _ => False
     end.
Proof.
  cbn zeta.
  assert (Hok : Forall (fun kv : string * json => meta_ok (snd kv) = true)
                  [("9", sample_node "load_image" "LoadImage");
                   ("3", sample_node "load_image" "LoadImageMask")])
    by (repeat constructor).
  split; [discriminate|]. split; [exact Hok|].
  apply (find_node_id_first_titled _ "load_image"); [discriminate | exact Hok].
Defined.

(** The loop before the first node that stops it: nodes that neither
    match nor raise are passed. *)
Lemma find_loop_skip (before rest : list (string * json)) (t : string) :
  t <> EmptyString ->
  Forall (fun kv => meta_ok (snd kv) = true) before ->
  (forall kv, In kv before -> titled t (snd kv) = false) ->
  find_node_id_loop (before ++ rest) (Some t) None
  = find_node_id_loop rest (Some t) None.
Proof.
  intros Ht Hok Hno. induction Hok as [|[k v] before Hv _ IH]; [reflexivity|].
  cbn [app find_node_id_loop].
  destruct v as [| | | | | |d]; cbn [is_dict];
    try (apply IH; intros kv Hin; apply Hno; now right).
  rewrite (and_ident_nonempty t _ Ht), (title_test_titled d t Hv).
  pose proof (Hno (k, JDict d) (or_introl eq_refl)) as Hk. cbn [snd] in Hk.
  rewrite Hk. cbn.
  apply IH. intros kv Hin. apply Hno. now right.
Qed.

(** X3: [find_node_id] raises [AttributeError] when, before any node
    with the requested title, it meets a node that is a mapping whose
    [_meta] is not one: the lookup [.get("title")] is made on that
    value.  The nodes after it are not looked at. *)
Theorem find_node_id_raises_on_meta (before after : list (string * json))
    (node_id title : string) (d : list (string * json)) (meta : json) :
  title <> EmptyString ->
  Forall (fun kv => meta_ok (snd kv) = true) before ->
  (forall kv, In kv before -> titled title (snd kv) = false) ->
  dict_get "_meta" d = Some meta ->
  is_dict meta = false ->
  find_node_id (JDict (before ++ (node_id, JDict d) :: after))
    (Some title) None
  = Raise (no_attribute meta "get").
Proof.
  intros Ht Hok Hno Hm Hd. cbn [find_node_id py_items rbind].
  rewrite (find_loop_skip before _ title Ht Hok Hno).
  cbn [find_node_id_loop is_dict].
  rewrite (and_ident_nonempty title _ Ht). cbn [py_get rbind]. rewrite Hm.
  destruct meta; try discriminate; reflexivity.
Qed.

Lemma find_node_id_raises_on_meta_witness :
  find_node_id
    (JDict [("1", sample_node "load_image" "LoadImage");
            ("2", JDict [("_meta", JStr "note")]);
            ("3", sample_node "output_paths" "ShowText")])
    (Some "output_paths") None
  = Raise (Exn AttributeError "'str' object has no attribute 'get'").
Proof.
  apply (find_node_id_raises_on_meta
           [("1", sample_node "load_image" "LoadImage")]
           [("3", sample_node "output_paths" "ShowText")]
           "2" "output_paths" [("_meta", JStr "note")] (JStr "note")).
  - discriminate.
  - repeat constructor.
  - intros kv [<-|[]]. reflexivity.
  - reflexivity.
  - reflexivity.
Defined.

(** ** OutputExtractor: what a returned path is *)

(** X4: whatever [parse_video_path_from_output] returns as a path ends
    in one of the four media suffixes, and it is returned only from a
    mapping whose [text] is a list that starts with a string which
    deserializes to a list of at least two elements, the second a list
    that holds the path.  On every other value the result is [None] or
    an exception, never a path. *)
Theorem parse_video_path_only_media (v : json) (p : string) :
  parse_video_path_from_output v = Ok (Some p) ->
  media_path (JStr p)
  /\ exists d s text_rest first paths more,
       v = JDict d
       /\ dict_get "text" d = Some (JList (JStr s :: text_rest))
       /\ json_loads_text s = Ok (JList (first :: JList paths :: more))
       /\ In (JStr p) paths.
Proof.
  unfold parse_video_path_from_output.
  destruct v as [| | | |s0|l0|d]; cbn [py_contains rbind]; try discriminate.
  - destruct (str_contains s0 "text"); cbn; discriminate.
  - destruct (existsb _ l0); cbn; discriminate.
  - unfold has_key. cbn [py_getitem].
    destruct (dict_get "text" d) as [text|] eqn:Ht; cbn [negb rbind];
      [|discriminate].
    destruct text as [| | | | |l|]; cbn [is_list negb]; try discriminate.
    destruct l as [|x text_rest]; cbn [truthy negb py_index nth_error rbind];
      [discriminate|].
    destruct x as [| | | |s| |]; cbn [json_loads rbind except_none];
      try discriminate.
    destruct (json_loads_text s) as [parsed|ex] eqn:Hs; cbn [rbind];
      [|discriminate].
    destruct parsed as [| | | | |elems|]; cbn; try discriminate.
    destruct elems as [|first [|second more]]; cbn; try discriminate.
    destruct second as [| | | | |paths|]; cbn; try discriminate.
    intros H. injection H as H.
    pose proof (first_media_path_first paths) as Hf. rewrite H in Hf.
    destruct Hf as (before & after & Hp & Hm & _).
    split; [exact Hm|].
    exists d, s, text_rest, first, paths, more.
    split; [reflexivity|]. split; [exact Ht|]. split; [exact Hs|].
    rewrite Hp. apply in_elt.
Qed.

Lemma parse_video_path_only_media_witness :
  parse_video_path_from_output scenario_b_payload
    = Ok (Some "/out/video.mp4")
  /\ media_path (JStr "/out/video.mp4").
Proof.
  split; [reflexivity|].
  apply (parse_video_path_only_media scenario_b_payload "/out/video.mp4").
  reflexivity.
Defined.
(** ** JobSubmitter and the history request: failures become values *)

(** X5: [queue_prompt] never raises, and what it does is fixed by the
    reply of the engine.  With the graph [g] at its handle it makes one
    submission, whose body holds [g] and the identifier of the process.
    When the reply is read and parses, it returns the parsed value and
    does nothing else; when the request fails or the reply is not JSON,
    it prints the error and returns [None].  No object and no socket
    changes. *)
Theorem queue_prompt_never_raises (p : process) (e : env) (h : nat)
    (w : world) :
  let run := queue_prompt p e h w in
  (exists v, fst run = Ok v)
  /\ forall g,
       nth_error (store w) h = Some g ->
       let submission :=
         ESubmit (server_address p)
           (json_dumps
              (JDict [("prompt", g); ("client_id", JStr (client_id p))])) in
       (forall body v,
          prompt_reply e = Ok body -> json_loads_text body = Ok v ->
          run = (Ok v, extend w [submission]))
       /\ (forall body ex,
             prompt_reply e = Ok body -> json_loads_text body = Raise ex ->
             run = (Ok JNull,
                    extend w [submission; EPrint (LogQueueError ex)]))
       /\ (forall ex,
             prompt_reply e = Raise ex ->
             run = (Ok JNull,
                    extend w [submission; EPrint (LogQueueError ex)])).
Proof.
  cbn zeta. unfold queue_prompt, try_except, bind, load, lift, emit, print, ret,
    extend.
  destruct (nth_error (store w) h) as [g|] eqn:Hg; cbn -[json_dumps].
  - split.
    + destruct (prompt_reply e) as [body|ex]; cbn -[json_dumps];
        [destruct (json_loads_text body)|]; eexists; reflexivity.
    + intros g' Hg'. injection Hg' as <-.
      split; [|split].
      * intros body v -> ->. reflexivity.
      * intros body ex -> ->. cbn -[json_dumps].
        now rewrite <- app_assoc.
      * intros ex ->. cbn -[json_dumps]. now rewrite <- app_assoc.
  - split; [eexists; reflexivity | discriminate].
Qed.

(** X6: [get_history] never raises, and what it does is fixed by the
    reply of the engine.  It asks once for the history of the job.
    When the reply is read and parses, it returns the parsed value and
    does nothing else; when the request fails or the reply is not JSON,
    it prints the error and returns the empty mapping.  So a failed
    history request is no error to the watcher: its fallback returns
    [None]. *)
Theorem get_history_never_raises (p : process) (e : env) (prompt_id : json)
    (w : world) :
  let run := get_history p e prompt_id w in
  let request := EHistory (server_address p) prompt_id in
  (exists v, fst run = Ok v)
  /\ (forall body v,
        history_reply e = Ok body -> json_loads_text body = Ok v ->
        run = (Ok v, extend w [request]))
  /\ (forall body ex,
        history_reply e = Ok body -> json_loads_text body = Raise ex ->
        run = (Ok (JDict []),
               extend w [request; EPrint (LogHistoryError ex)]))
  /\ (forall ex,
        history_reply e = Raise ex ->
        run = (Ok (JDict []),
               extend w [request; EPrint (LogHistoryError ex)]))
  /\ (forall pid target,
        fst run = Ok (JDict []) ->
        fst (poll_history p e (JStr pid) target w) = Ok None).
Proof.
  cbn zeta.
  assert (Hval : forall pid w0 w1,
            fst (get_history p e pid w1)
            = fst (get_history p e prompt_id w0)).
  { intros pid w0 w1.
    unfold get_history, try_except, bind, lift, emit, print, ret.
    destruct (history_reply e) as [body|ex]; cbn; [|reflexivity].
    destruct (json_loads_text body); reflexivity. }
  assert (Hpoll : forall pid target,
            fst (get_history p e prompt_id w) = Ok (JDict []) ->
            fst (poll_history p e (JStr pid) target w) = Ok None).
  { intros pid target H. unfold poll_history.
    rewrite !fst_bind. cbn [print emit fst snd].
    rewrite (Hval (JStr pid) w), H. reflexivity. }
  split; [|split; [|split; [|split; [|exact Hpoll]]]];
    unfold get_history, try_except, bind, lift, emit, print, ret, extend.
  - destruct (history_reply e) as [body|ex]; cbn;
      [destruct (json_loads_text body)|]; eexists; reflexivity.
  - intros body v -> ->. reflexivity.
  - intros body ex -> ->. cbn. now rewrite <- app_assoc.
  - intros ex ->. cbn. now rewrite <- app_assoc.
Qed.

(** ** The image upload *)

(** The world after [upload_image]: the upload is the one event. *)
Lemma upload_image_world (p : process) (e : env) (image : image_data)
    (w : world) :
  snd (upload_image p e image w) = extend w (upload_events p e image).
Proof.
  unfold upload_image, upload_events, extend, bind, lift, emit, ret.
  destruct image as [filename content_type file_content | text]; cbn.
  - destruct (upload_reply e) as [body|]; cbn; [|reflexivity].
    destruct (json_loads_text body); reflexivity.
  - destruct (b64decode e text) as [img_bytes|ex0]; cbn.
    + destruct (upload_reply e) as [body|]; cbn; [|reflexivity].
      destruct (json_loads_text body); reflexivity.
    + destruct w; cbn. now rewrite app_nil_r.
Qed.

(** X7: [upload_image] makes at most one call, the upload, and changes
    no object.  A file is sent under its own name and type, a base64
    text as [image.png] of type [image/png]; a text that does not
    decode raises before any call is made.  The result is the [name]
    of the reply, and [KeyError] when the reply is a mapping without
    one. *)
Theorem upload_image_calls (p : process) (e : env) (image : image_data)
    (w : world) :
  let run := upload_image p e image w in
  snd run = extend w (upload_events p e image)
  /\ (forall text ex,
        image = Base64Text text -> b64decode e text = Raise ex ->
        fst run = Raise ex /\ trace (snd run) = trace w)
  /\ (forall body d,
        upload_events p e image <> [] ->
        upload_reply e = Ok body -> json_loads_text body = Ok (JDict d) ->
        fst run = match dict_get "name" d with
                  | Some name => Ok name
                  | None => Raise (key_error "name")
                  end).
Proof.
  cbn zeta. split; [apply upload_image_world|].
  unfold upload_image, upload_events, bind, lift, emit, ret.
  destruct image as [filename content_type file_content | text]; cbn.
  - split.
    + discriminate.
    + intros body d _ ->. cbn. intros ->. reflexivity.
  - destruct (b64decode e text) as [img_bytes|ex0] eqn:Hd; cbn.
    + split.
      * intros text' ex H. injection H as <-. congruence.
      * intros body d _ ->. cbn. intros ->. reflexivity.
    + split.
      * intros text' ex H Hx. injection H as <-.
        rewrite Hd in Hx. injection Hx as <-. now split.
      * intros body d H. contradiction.
Qed.

(** ** The handler: every request is answered *)

Lemma inject_parameters_incomplete (p : process) (e : env)
    (image : image_data) (prompt negative_prompt : string) (w w1 : world)
    (resp : response) :
  inject_parameters p e image prompt negative_prompt w
    = (Ok (Incomplete resp), w1) ->
  exists missing,
    resp = JSONResponse 404 (error_content (missing_detail missing)).
Proof.
  unfold inject_parameters. intros H.
  do 8 (apply bind_ok_inv in H; destruct H as (? & ? & _ & H)).
  match type of H with (if ?b then _ else _) _ = _ => destruct b end.
  - unfold ret in H. injection H as <- _. now eexists.
  - repeat match type of H with
           | (match ?o with Some _ => _ | None => _ end) _ = _ =>
               destruct o; [|discriminate H]
           end.
    do 5 (apply bind_ok_inv in H; destruct H as (? & ? & _ & H)).
    discriminate H.
Qed.

Lemma respond_shape (video_path : option string) (resp : response) :
  respond video_path = Ok resp ->
  (exists path,
      path <> EmptyString
      /\ resp = JSONResponse 200 (JDict [("generated_video_path", JStr path)]))
  \/ resp = JSONResponse 500 (error_content no_video_path).
Proof.
  destruct video_path as [path|]; cbn [respond truthy_opt].
  - destruct (String.eqb_spec path EmptyString) as [->|Hne]; cbn [negb].
    + intros H. injection H as <-. now right.
    + destruct (utf8_encode (success_body path)); cbn [rbind];
        [|discriminate].
      intros H. injection H as <-. left. now exists path.
  - intros H. injection H as <-. now right.
Qed.

Lemma submit_and_wait_shape (p : process) (e : env) (h : nat)
    (output_id : string) (w : world) (resp : response) :
  fst (submit_and_wait p e h output_id w) = Ok resp ->
  resp = JSONResponse 500 (error_content queue_failed)
  \/ exists video_path, respond video_path = Ok resp.
Proof.
  unfold submit_and_wait. rewrite fst_bind.
  destruct (fst (queue_prompt p e h w)) as [queued|]; [|discriminate].
  rewrite fst_bind.
  destruct (fst ((if truthy queued
                  then lift (py_contains queued "prompt_id")
                  else ret false) (snd (queue_prompt p e h w))))
    as [[|]|]; cbn [negb]; try discriminate.
  - rewrite fst_bind. cbn [lift fst snd].
    destruct (py_getitem queued "prompt_id") as [prompt_id|]; [|discriminate].
    rewrite fst_bind.
    destruct (fst (get_final_video_path p e prompt_id output_id _))
      as [video_path|]; [|discriminate].
    cbn [lift fst]. intros H. right. now exists video_path.
  - cbn. intros H. injection H as <-. now left.
Qed.

(** X8: the handler never raises: every request is answered with a
    response whose status is 200, 404 or 500.  A 200 carries a
    non-empty [generated_video_path]; a 404 carries the list of missing
    titles; a 500 carries an [error] text. *)
Theorem generate_video_always_responds (p : process) (e : env)
    (image : image_data) (prompt negative_prompt : string) (w : world) :
  exists resp,
    fst (generate_video p e image prompt negative_prompt w) = Ok resp
    /\ ((exists path,
            path <> EmptyString
            /\ resp = JSONResponse 200
                        (JDict [("generated_video_path", JStr path)]))
        \/ (exists missing,
              resp = JSONResponse 404 (error_content (missing_detail missing)))
        \/ (exists detail, resp = JSONResponse 500 (error_content detail))).
Proof.
  unfold generate_video. rewrite fst_try_except, fst_bind.
  destruct (inject_parameters p e image prompt negative_prompt w)
    as [[[resp|h output_id]|ex] w1] eqn:Ei; cbn [fst snd].
  - exists resp. split; [reflexivity|]. right. left.
    exact (inject_parameters_incomplete _ _ _ _ _ _ _ _ Ei).
  - destruct (fst (submit_and_wait p e h output_id w1)) as [resp|ex] eqn:Es.
    + exists resp. split; [reflexivity|].
      destruct (submit_and_wait_shape _ _ _ _ _ _ Es) as [->|[vp Hvp]].
      * right. right. now eexists.
      * destruct (respond_shape vp resp Hvp) as [(path & Hne & ->)| ->].
        -- left. now exists path.
        -- right. right. now eexists.
    + eexists. split; [reflexivity|]. right. right. now eexists.
  - eexists. split; [reflexivity|]. right. right. now eexists.
Qed.

(** ** The handler: failures before and at the submission *)

(** The injection up to the upload, on a template with its four
    required nodes under non-empty ids. *)
Lemma inject_parameters_upload_raises (p : process) (e : env)
    (image : image_data) (prompt negative_prompt : string) (w : world)
    (template g : json) (i1 i2 i3 i4 : string) (k : option string)
    (ex : exn) :
  nth_error (store w) (workflow_api_json p) = Some template ->
  json_loads (JStr (json_dumps template)) = Ok g ->
  find_node_id g (Some "load_image") None = Ok (Some i1) ->
  find_node_id g (Some "positive_prompt") None = Ok (Some i2) ->
  find_node_id g (Some "negative_prompt") None = Ok (Some i3) ->
  find_node_id g (Some "output_paths") None = Ok (Some i4) ->
  find_node_id g None (Some "KSampler") = Ok k ->
  i1 <> EmptyString -> i2 <> EmptyString ->
  i3 <> EmptyString -> i4 <> EmptyString ->
  (forall w0, fst (upload_image p e image w0) = Raise ex) ->
  inject_parameters p e image prompt negative_prompt w
  = (Raise ex,
     {| store := store w ++ [g]; sockets := sockets w;
        trace := trace w ++ upload_events p e image |}).
Proof.
  intros Ht Hg H1 H2 H3 H4 Hk N1 N2 N3 N4 Hup.
  unfold inject_parameters.
  rewrite (bind_ok _ _ w w template) by now apply load_ok.
  rewrite (bind_ok _ _ w w g) by (unfold lift; now rewrite Hg).
  set (h := length (store w)).
  set (w1 := {| store := store w ++ [g]; sockets := sockets w;
                trace := trace w |}).
  rewrite (bind_ok _ _ w w1 h) by reflexivity.
  assert (Hw1 : nth_error (store w1) h = Some g) by apply nth_error_alloc.
  rewrite (bind_ok _ _ w1 w1 (Some i1))
    by (rewrite (find_node_id_at_ok _ g) by exact Hw1; now rewrite H1).
  rewrite (bind_ok _ _ w1 w1 (Some i2))
    by (rewrite (find_node_id_at_ok _ g) by exact Hw1; now rewrite H2).
  rewrite (bind_ok _ _ w1 w1 (Some i3))
    by (rewrite (find_node_id_at_ok _ g) by exact Hw1; now rewrite H3).
  rewrite (bind_ok _ _ w1 w1 (Some i4))
    by (rewrite (find_node_id_at_ok _ g) by exact Hw1; now rewrite H4).
  rewrite (bind_ok _ _ w1 w1 k)
    by (rewrite (find_node_id_at_ok _ g) by exact Hw1; now rewrite Hk).
  assert (Hall : forallb truthy_opt [Some i1; Some i2; Some i3; Some i4]
                 = true).
  { cbn. apply String.eqb_neq in N1, N2, N3, N4.
    now rewrite N1, N2, N3, N4. }
  rewrite Hall. cbn [negb].
  pose proof (Hup w1) as Hu.
  pose proof (upload_image_world p e image w1) as Hs.
  destruct (upload_image p e image w1) as [r w2] eqn:Eu. cbn in Hu, Hs.
  subst r w2. rewrite (bind_raise _ _ w1 _ ex Eu). reflexivity.
Qed.

(** X9: when the upload fails (the image text does not decode, the
    call fails, or the reply has no [name]), the handler answers 500
    with the text of the exception.  The copy of the template is left
    as parsed, and the upload, if it was made, is the only call: no
    workflow is submitted, no channel opened, no history read. *)
Theorem upload_failure_answered (p : process) (e : env)
    (image : image_data) (prompt negative_prompt : string) (w : world)
    (template g : json) (i1 i2 i3 i4 : string) (k : option string)
    (ex : exn) :
  let run := generate_video p e image prompt negative_prompt w in
  nth_error (store w) (workflow_api_json p) = Some template ->
  json_loads (JStr (json_dumps template)) = Ok g ->
  find_node_id g (Some "load_image") None = Ok (Some i1) ->
  find_node_id g (Some "positive_prompt") None = Ok (Some i2) ->
  find_node_id g (Some "negative_prompt") None = Ok (Some i3) ->
  find_node_id g (Some "output_paths") None = Ok (Some i4) ->
  find_node_id g None (Some "KSampler") = Ok k ->
  i1 <> EmptyString -> i2 <> EmptyString ->
  i3 <> EmptyString -> i4 <> EmptyString ->
  (forall w0, fst (upload_image p e image w0) = Raise ex) ->
  fst run = Ok (JSONResponse 500 (error_content (exn_msg ex)))
  /\ store (snd run) = (store w ++ [g])%list
  /\ sockets (snd run) = sockets w
  /\ trace (snd run)
     = (trace w ++ upload_events p e image ++ [EPrint (LogTraceback ex)])%list.
Proof.
  intros run Ht Hg H1 H2 H3 H4 Hk N1 N2 N3 N4 Hup.
  unfold run, generate_video, try_except.
  rewrite (bind_raise _ _ _ _ _
             (inject_parameters_upload_raises p e image prompt
                negative_prompt w template g i1 i2 i3 i4 k ex
                Ht Hg H1 H2 H3 H4 Hk N1 N2 N3 N4 Hup)).
  cbn. now rewrite <- app_assoc.
Qed.

Lemma upload_failure_answered_witness :
  let ex := Exn ValueError "Incorrect padding" in
  let run := generate_video sample_process
               (sample_env [] history_without_entry) (Base64Text "###")
               "a cat" EmptyString (sample_world sample_template) in
  fst run = Ok (JSONResponse 500 (error_content "Incorrect padding"))
  /\ store (snd run) = [JDict []; sample_template; sample_template]
  /\ sockets (snd run) = []
  /\ trace (snd run) = [EPrint (LogTraceback ex)].
Proof.
  cbn zeta.
  apply (upload_failure_answered sample_process
           (sample_env [] history_without_entry) (Base64Text "###")
           "a cat" EmptyString (sample_world sample_template)
           sample_template sample_template "1" "2" "3" "5" (Some "4")
           (Exn ValueError "Incorrect padding"));
    try (vm_compute; reflexivity); discriminate.
Defined.

(** The queue call on an engine that gives no job id. *)
Lemma queue_prompt_no_job_id (p : process) (e : env) (h : nat) (w : world) :
  gives_no_job_id e = true ->
  exists q,
    fst (queue_prompt p e h w) = Ok q
    /\ forall w0,
         (if truthy q then lift (py_contains q "prompt_id") else ret false) w0
         = (Ok false, w0).
Proof.
  unfold gives_no_job_id, queue_prompt, try_except, bind, load, emit, lift,
    print, ret.
  intros Hno.
  destruct (nth_error (store w) h) as [g|]; cbn.
  2: { exists JNull. now split. }
  destruct (prompt_reply e) as [body|ex]; cbn.
  2: { exists JNull. now split. }
  destruct (json_loads_text body) as [q|ex]; cbn.
  2: { exists JNull. now split. }
  exists q. split; [reflexivity|]. intros w0.
  destruct q as [|b|z|lexeme|s|l|d]; cbn in Hno |- *;
    try (apply negb_true_iff in Hno; cbn in Hno; rewrite Hno; reflexivity);
    try reflexivity.
  destruct d as [|kv d']; [reflexivity|].
  cbn [truthy]. apply negb_true_iff in Hno.
  unfold lift, py_contains. now rewrite Hno.
Qed.

(** X10: when the engine gives no job id (the submission fails, its
    reply is not JSON, is a falsy value, or is a mapping without
    [prompt_id]), the handler answers 500 with the fixed text
    [Failed to queue prompt in ComfyUI.], and nothing happens after
    the queue call: no channel is opened and no history is read. *)
Theorem queue_failure_answered (p : process) (e : env)
    (image : image_data) (prompt negative_prompt : string) (w : world)
    (h : nat) (output_id : string) :
  let injected := inject_parameters p e image prompt negative_prompt w in
  let run := generate_video p e image prompt negative_prompt w in
  fst injected = Ok (Injected h output_id) ->
  gives_no_job_id e = true ->
  fst run = Ok (JSONResponse 500 (error_content queue_failed))
  /\ snd run = snd (queue_prompt p e h (snd injected)).
Proof.
  intros injected run Hi Hno. unfold run, generate_video, try_except.
  subst injected.
  destruct (inject_parameters p e image prompt negative_prompt w)
    as [r w1] eqn:Ei. cbn in Hi |- *. subst r.
  rewrite (bind_ok _ _ _ _ _ Ei). unfold submit_and_wait.
  destruct (queue_prompt_no_job_id p e h w1 Hno) as (q & Hq & Hid).
  destruct (queue_prompt p e h w1) as [r w2] eqn:Eq. cbn in Hq |- *.
  subst r. rewrite (bind_ok _ _ _ _ _ Eq).
  rewrite (bind_ok _ _ _ _ _ (Hid w2)). cbn. now split.
Qed.

Lemma queue_failure_answered_witness :
  let e := {| b64decode := fun _ => Raise (Exn ValueError "Incorrect padding");
              upload_reply :=
                Ok (json_dumps (JDict [("name", JStr "image.png")]));
              entropy := 7;
              prompt_reply := Ok (json_dumps (JDict [("error", JStr "busy")]));
              ws_connect := Ok tt;
              ws_arrivals := [];
              history_reply := Ok (json_dumps history_without_entry) |} in
  let injected := inject_parameters sample_process e sample_image "a cat"
                    EmptyString (sample_world sample_template) in
  let run := generate_video sample_process e sample_image "a cat"
               EmptyString (sample_world sample_template) in
  fst run = Ok (JSONResponse 500 (error_content queue_failed))
  /\ snd run = snd (queue_prompt sample_process e 2 (snd injected)).
Proof.
  cbn zeta.
  apply (queue_failure_answered sample_process _ sample_image "a cat"
           EmptyString (sample_world sample_template) 2 "5");
    vm_compute; reflexivity.
Defined.

(** X11: a workflow whose copy is no mapping (a list, a string, a
    number, null) makes every request answer 500 with the text of the
    [AttributeError] for [items], before any call to the engine. *)
Theorem workflow_not_a_mapping (p : process) (e : env)
    (image : image_data) (prompt negative_prompt : string) (w : world)
    (template g : json) :
  let run := generate_video p e image prompt negative_prompt w in
  nth_error (store w) (workflow_api_json p) = Some template ->
  json_loads (JStr (json_dumps template)) = Ok g ->
  is_dict g = false ->
  fst run
  = Ok (JSONResponse 500
          (error_content
             ("'" ++ type_name g ++ "' object has no attribute 'items'")))
  /\ trace (snd run)
     = (trace w ++ [EPrint (LogTraceback (no_attribute g "items"))])%list.
Proof.
  intros run Ht Hg Hd. unfold run, generate_video, try_except,
    inject_parameters.
  rewrite bind_assoc.
  rewrite (bind_ok _ _ w w template) by now apply load_ok.
  rewrite bind_assoc.
  rewrite (bind_ok _ _ w w g) by (unfold lift; now rewrite Hg).
  rewrite bind_assoc.
  set (w1 := {| store := store w ++ [g]; sockets := sockets w;
                trace := trace w |}).
  rewrite (bind_ok _ _ w w1 (length (store w))) by reflexivity.
  assert (Hw1 : nth_error (store w1) (length (store w)) = Some g)
    by apply nth_error_alloc.
  rewrite bind_assoc.
  rewrite (bind_raise _ _ w1 w1 (no_attribute g "items")).
  - cbn. now split.
  - rewrite (find_node_id_at_ok _ g) by exact Hw1.
    destruct g; try discriminate; reflexivity.
Qed.

Lemma workflow_not_a_mapping_witness :
  let run := generate_video sample_process
               (sample_env [] history_without_entry) sample_image
               "a cat" EmptyString (sample_world (JList [])) in
  fst run
  = Ok (JSONResponse 500
          (error_content "'list' object has no attribute 'items'"))
  /\ trace (snd run)
     = [EPrint (LogTraceback (no_attribute (JList []) "items"))].
Proof.
  cbn zeta.
  apply (workflow_not_a_mapping sample_process
           (sample_env [] history_without_entry) sample_image
           "a cat" EmptyString (sample_world (JList [])) (JList [])
           (JList [])); vm_compute; reflexivity.
Defined.

(** ** The push channel *)

Lemma fst_try_finally {A} (m : M A) (cleanup : M unit) (w : world) :
  fst (try_finally m cleanup w) = fst (m w).
Proof. unfold try_finally. now destruct (m w). Qed.

Lemma note_arrival_ok (p : process) (target : string) (a : arrival)
    (w : world) :
  passed_over target a = true -> fst (note_arrival p a w) = Ok tt.
Proof.
  intros Ha. unfold note_arrival, bind, emit.
  destruct a as [gap [|] data|]; try discriminate; try reflexivity.
  cbn in Ha. destruct (json_loads_text data); [|reflexivity].
  unfold when. now destruct (VERBOSE p).
Qed.

Lemma fst_listen_passed_over (p : process) (ws : nat) (target : string)
    (a : arrival) (rest : list arrival) (w : world) :
  passed_over target a = true ->
  fst (listen p ws target (a :: rest) w)
  = fst (listen p ws target rest (snd (note_arrival p a w))).
Proof.
  intros Ha. rewrite (listen_passed_over p ws target a rest w Ha).
  rewrite fst_bind. now rewrite (note_arrival_ok p target a w Ha).
Qed.

(** The loop at an [executed] event for the target. *)
Lemma fst_listen_executed (p : process) (ws : nat) (target : string)
    (a : arrival) (rest : list arrival) (w : world) (output : json) :
  executed_output target a = Some output ->
  fst (listen p ws target (a :: rest) w)
  = parse_video_path_from_output output.
Proof.
  destruct a as [gap [|] data|]; try discriminate.
  cbn [executed_output listen gap_of].
  destruct (Z.ltb_spec (Z.of_N gap) ws_timeout) as [Hlt|]; [|discriminate].
  destruct (Z.leb_spec ws_timeout (Z.of_N gap)) as [|_]; [lia|].
  destruct (json_loads_text data) as [[| | | | | |m]|] eqn:Hm;
    try discriminate.
  destruct (dict_get "type" m) as [type|] eqn:Ht; [|discriminate].
  destruct (dict_get "data" m) as [[| | | | | |d]|] eqn:Hd; try discriminate.
  destruct (eq_str type "executed") eqn:Hx; [|discriminate].
  destruct (dict_get "node" d) as [node|] eqn:Hn; [|discriminate].
  destruct (eq_str node target) eqn:Hnode; [|discriminate].
  intros H. injection H as <-.
  unfold bind, emit, lift, when, print, ret, py_get.
  destruct (VERBOSE p); cbn; rewrite Ht, Hx, Hd; cbn;
    rewrite Hn, Hnode; cbn;
    now destruct (parse_video_path_from_output _).
Qed.

Lemma fst_listen_prefix (p : process) (ws : nat) (target : string)
    (before rest : list arrival) (w : world) :
  forallb (passed_over target) before = true ->
  exists w1,
    fst (listen p ws target (before ++ rest) w)
    = fst (listen p ws target rest w1).
Proof.
  revert w. induction before as [|a before IH]; intros w Hb.
  - now exists w.
  - cbn in Hb. apply andb_prop in Hb. destruct Hb as [Ha Hb].
    destruct (IH (snd (note_arrival p a w)) Hb) as [w1 H1].
    exists w1. rewrite <- H1. cbn [app].
    now apply fst_listen_passed_over.
Qed.

(** The push phase once the connection is made: the result of the
    listening loop, or [None] after a handler. *)
Lemma fst_watch_push_connected (p : process) (e : env) (target : string)
    (w : world) :
  ws_connect e = Ok tt ->
  exists w1,
    fst (watch_push p e target w)
    = match fst (listen p (length (sockets w)) target (ws_arrivals e) w1) with
      | Ok r => Ok (Some r)
      | Raise _ => Ok None
      end.
Proof.
  intros Hc.
  assert (Hw : forall w0, fst (when (VERBOSE p) (print LogConnecting) w0)
                          = Ok tt)
    by (intros w0; unfold when; now destruct (VERBOSE p)).
  unfold watch_push. unfold bind at 1. cbn [new_socket].
  rewrite fst_try_finally, fst_try_except.
  rewrite !fst_bind. rewrite Hc, Hw. cbn [emit lift set_connected fst snd].
  match goal with
  | |- context [listen _ _ _ _ ?W] => exists W
  end.
  destruct (fst (listen p (length (sockets w)) target (ws_arrivals e) _))
    as [r|ex] eqn:El.
  - reflexivity.
  - destruct (exn_cls ex); reflexivity.
Qed.

(** The events a computation adds, when it is safe for [P]. *)
Lemma safe_events {A} (P : event -> Prop) (m : M A) (w : world) :
  safe 0 0 P m ->
  exists evs,
    trace (snd (m w)) = (trace w ++ evs)%list /\ Forall P evs.
Proof.
  intros H. destruct (H w) as (_ & _ & _ & Hev); [split; apply Nat.le_0_l|].
  exact Hev.
Qed.

Lemma evolves_no_poll (p : process) (e : env) (target : string) (w : world) :
  exists evs,
    trace (snd (watch_push p e target w)) = (trace w ++ evs)%list
    /\ Forall (fun ev => is_poll ev = false) evs.
Proof. apply safe_events. apply safe_watch_push; reflexivity. Qed.

(** The push phase that meets an [executed] event for the target. *)
Lemma fst_watch_push_executed (p : process) (e : env) (target : string)
    (w : world) (before after : list arrival) (a : arrival) (output : json)
    (r : option string) :
  ws_connect e = Ok tt ->
  ws_arrivals e = (before ++ a :: after)%list ->
  forallb (passed_over target) before = true ->
  executed_output target a = Some output ->
  parse_video_path_from_output output = Ok r ->
  fst (watch_push p e target w) = Ok (Some r).
Proof.
  intros Hc Ha Hb Hx Hr.
  destruct (fst_watch_push_connected p e target w Hc) as [w1 ->].
  rewrite Ha.
  destruct (fst_listen_prefix p (length (sockets w)) target before
              (a :: after) w1 Hb) as [w2 ->].
  now rewrite (fst_listen_executed _ _ _ _ _ _ _ Hx), Hr.
Qed.

(** X12: when the connection is made and, after events that are passed
    over, an [executed] event for the target arrives on whose output
    the extractor returns, [get_final_video_path] returns that result,
    [None] included.  The arrivals after it are not read and the
    history is not consulted: the call ends with the push phase, in
    which nothing sleeps and no history is asked for. *)
Theorem push_result_is_final (p : process) (e : env) (prompt_id : json)
    (target : string) (w : world) (before after : list arrival)
    (a : arrival) (output : json) (r : option string) :
  let run := get_final_video_path p e prompt_id target w in
  ws_connect e = Ok tt ->
  ws_arrivals e = (before ++ a :: after)%list ->
  forallb (passed_over target) before = true ->
  executed_output target a = Some output ->
  parse_video_path_from_output output = Ok r ->
  fst run = Ok r
  /\ snd run = snd (watch_push p e target w)
  /\ exists evs,
       trace (snd run) = (trace w ++ evs)%list
       /\ Forall (fun ev => is_poll ev = false) evs.
Proof.
  intros run Hc Ha Hb Hx Hr.
  assert (Hp : fst (watch_push p e target w) = Ok (Some r))
    by exact (fst_watch_push_executed p e target w before after a output r
                Hc Ha Hb Hx Hr).
  assert (Hrun : run = (Ok r, snd (watch_push p e target w))).
  { unfold run, get_final_video_path, bind.
    destruct (watch_push p e target w) as [v w1]. cbn in Hp. now subst v. }
  rewrite Hrun. cbn [fst snd]. repeat split.
  apply evolves_no_poll.
Qed.

Lemma push_result_is_final_witness :
  let e := sample_env [Frame 2 true progress_message;
                       Frame 5 true (executed_message "5" scenario_b_payload);
                       Frame 1 true progress_message]
             history_without_entry in
  let w := sample_world sample_template in
  let run := get_final_video_path sample_process e (JStr "job-1") "5" w in
  fst run = Ok (Some "/out/video.mp4")
  /\ snd run = snd (watch_push sample_process e "5" w)
  /\ exists evs,
       trace (snd run) = (trace w ++ evs)%list
       /\ Forall (fun ev => is_poll ev = false) evs.
Proof.
  cbn zeta.
  apply (push_result_is_final sample_process _ (JStr "job-1") "5"
           (sample_world sample_template)
           [Frame 2 true progress_message]
           [Frame 1 true progress_message]
           (Frame 5 true (executed_message "5" scenario_b_payload))
           scenario_b_payload (Some "/out/video.mp4"));
    vm_compute; reflexivity.
Defined.

(** X13: when the connection is refused, the push phase ends at once
    with nothing read: the handler prints its line, the socket was
    never connected and is not closed, and the result of
    [get_final_video_path] is that of the history fallback. *)
Theorem connect_failure_falls_back (p : process) (e : env)
    (prompt_id : json) (target : string) (w : world) (ex : exn) :
  let push := watch_push p e target w in
  ws_connect e = Raise ex ->
  fst push = Ok None
  /\ store (snd push) = store w
  /\ sockets (snd push) = (sockets w ++ [false])%list
  /\ trace (snd push)
     = (trace w
        ++ (if VERBOSE p then [EPrint LogConnecting] else [])
        ++ [EWsConnect (server_address p) (client_id p);
            EPrint (match exn_cls ex with
                    | WebSocketTimeoutException => LogWebSocketTimedOut
                    | _ => LogWebSocketError ex
                    end)])%list
  /\ get_final_video_path p e prompt_id target w
     = poll_history p e prompt_id target (snd push).
Proof.
  intros push Hc.
  assert (Hn : nth (length (sockets w)) (sockets w ++ [false]) false = false)
    by (rewrite app_nth2, Nat.sub_diag; [reflexivity | apply Nat.le_refl]).
  assert (H : fst push = Ok None
              /\ store (snd push) = store w
              /\ sockets (snd push) = (sockets w ++ [false])%list
              /\ trace (snd push)
                 = (trace w
                    ++ (if VERBOSE p then [EPrint LogConnecting] else [])
                    ++ [EWsConnect (server_address p) (client_id p);
                        EPrint (match exn_cls ex with
                                | WebSocketTimeoutException =>
                                    LogWebSocketTimedOut
                                | _ => LogWebSocketError ex
                                end)])%list).
  { unfold push, watch_push, try_finally, try_except, bind, new_socket,
      when, print, emit, lift, ret, connected, set_connected.
    rewrite Hc.
    destruct (VERBOSE p), (exn_cls ex); cbn; rewrite Hn; cbn;
      rewrite <- ?app_assoc; repeat split. }
  destruct H as (H1 & H2 & H3 & H4). repeat split; try assumption.
  unfold get_final_video_path, bind. fold push.
  destruct push as [r w1]. cbn in H1. now subst r.
Qed.

Lemma connect_failure_falls_back_witness :
  let ex := Exn TransportError "Connection refused" in
  let e := {| b64decode := fun _ => Raise (Exn ValueError "Incorrect padding");
              upload_reply :=
                Ok (json_dumps (JDict [("name", JStr "image.png")]));
              entropy := 7;
              prompt_reply :=
                Ok (json_dumps (JDict [("prompt_id", JStr "job-1")]));
              ws_connect := Raise ex;
              ws_arrivals :=
                [Frame 5 true (executed_message "5" scenario_b_payload)];
              history_reply := Ok (json_dumps history_without_entry) |} in
  let w := sample_world sample_template in
  let push := watch_push sample_process e "5" w in
  fst push = Ok None
  /\ store (snd push) = store w
  /\ sockets (snd push) = [false]
  /\ trace (snd push)
     = [EWsConnect "127.0.0.1:8188" (client_id sample_process);
        EPrint (LogWebSocketError ex)]
  /\ get_final_video_path sample_process e (JStr "job-1") "5" w
     = poll_history sample_process e (JStr "job-1") "5" (snd push).
Proof.
  cbn zeta.
  apply (connect_failure_falls_back sample_process _ (JStr "job-1") "5"
           (sample_world sample_template)
           (Exn TransportError "Connection refused")).
  reflexivity.
Defined.

(** The loop is left by an exception at an arrival that ends it. *)
Lemma fst_listen_ends (p : process) (ws : nat) (target : string)
    (a : arrival) (rest : list arrival) (w : world) :
  ends_listening target a = true ->
  exists ex, fst (listen p ws target (a :: rest) w) = Raise ex.
Proof.
  intros Ha.
  destruct (ws_timeout <=? gap_of a) eqn:Hgap.
  { cbn [listen]. rewrite Hgap. now eexists. }
  destruct a as [gap is_text data | gap ex still].
  - cbn [ends_listening] in Ha. cbn [gap_of] in Hgap.
    rewrite Hgap in Ha. cbn [orb] in Ha.
    destruct is_text; [|discriminate]. cbn [andb] in Ha.
    destruct (json_loads_text data) as [message|ex] eqn:Hm.
    + destruct message as [|b|z|lexeme|s|l|m];
        try (cbn [listen gap_of]; rewrite Hgap;
             unfold bind, emit, lift, when, print, ret;
             rewrite Hm; destruct (VERBOSE p); cbn; now eexists).
      destruct (executed_output target (Frame gap true data))
        as [output|] eqn:Hx; [|discriminate].
      rewrite (fst_listen_executed p ws target _ rest w output Hx).
      destruct (parse_video_path_from_output output) as [r|ex];
        [discriminate | now eexists].
    + cbn [listen gap_of]. rewrite Hgap.
      unfold bind, emit, lift. rewrite Hm. now eexists.
  - cbn [listen gap_of] in Hgap |- *. rewrite Hgap.
    unfold bind, emit, set_connected, raise. now eexists.
Qed.

Lemma fst_listen_gives_up (p : process) (ws : nat) (target : string)
    (arrivals : list arrival) (w : world) :
  gives_up target arrivals = true ->
  exists ex, fst (listen p ws target arrivals w) = Raise ex.
Proof.
  revert w. induction arrivals as [|a rest IH]; intros w Hg.
  - now eexists.
  - cbn [gives_up] in Hg. apply orb_prop in Hg. destruct Hg as [He|Hp].
    + now apply fst_listen_ends.
    + apply andb_prop in Hp. destruct Hp as [Ha Hrest].
      rewrite (fst_listen_passed_over p ws target a rest w Ha).
      now apply IH.
Qed.

(** The push phase on a silent channel returns nothing. *)
Lemma fst_watch_push_silent (p : process) (e : env) (target : string)
    (w : world) :
  push_silent e target = true -> fst (watch_push p e target w) = Ok None.
Proof.
  unfold push_silent. destruct (ws_connect e) as [[]|ex] eqn:Hc; intros Hg.
  - destruct (fst_watch_push_connected p e target w Hc) as [w1 ->].
    destruct (fst_listen_gives_up p (length (sockets w)) target
                (ws_arrivals e) w1 Hg) as [ex ->].
    reflexivity.
  - unfold watch_push. unfold bind at 1. cbn [new_socket].
    rewrite fst_try_finally, fst_try_except, !fst_bind, Hc.
    unfold when. destruct (VERBOSE p); cbn; destruct (exn_cls ex); reflexivity.
Qed.

(** X14: when the channel brings only other events until the timeout,
    or until an arrival that ends the listening (a failure of the
    socket, a late frame, a text frame that is no JSON mapping, an
    [executed] event for the target on whose output the extractor
    raises), the push phase gives no result and the result of
    [get_final_video_path] is that of the history fallback; what
    arrives after such an arrival is never read. *)
Theorem push_gives_up (p : process) (e : env) (prompt_id : json)
    (target : string) (w : world) :
  let push := watch_push p e target w in
  ws_connect e = Ok tt ->
  gives_up target (ws_arrivals e) = true ->
  fst push = Ok None
  /\ get_final_video_path p e prompt_id target w
     = poll_history p e prompt_id target (snd push).
Proof.
  intros push Hc Hg.
  assert (H : fst push = Ok None).
  { apply fst_watch_push_silent. unfold push_silent. now rewrite Hc. }
  split; [exact H|].
  unfold get_final_video_path, bind. fold push.
  destruct push as [r w1]. cbn in H. now subst r.
Qed.

Lemma push_gives_up_witness :
  let e := sample_env [Frame 2 true progress_message;
                       Frame 3 true "not json";
                       Frame 5 true (executed_message "5" scenario_b_payload)]
             history_without_entry in
  let w := sample_world sample_template in
  let push := watch_push sample_process e "5" w in
  fst push = Ok None
  /\ get_final_video_path sample_process e (JStr "job-1") "5" w
     = poll_history sample_process e (JStr "job-1") "5" (snd push).
Proof.
  cbn zeta.
  apply (push_gives_up sample_process _ (JStr "job-1") "5"
           (sample_world sample_template)); vm_compute; reflexivity.
Defined.

(** ** The socket of a request *)

Lemma steady_ret {A} (a : A) : steady (ret a).
Proof. intros w. reflexivity. Qed.

Lemma steady_raise {A} (e : exn) : steady (@raise A e).
Proof. intros w. reflexivity. Qed.

Lemma steady_lift {A} (r : result A) : steady (lift r).
Proof. intros w. reflexivity. Qed.

Lemma steady_emit (ev : event) : steady (emit ev).
Proof. intros w. reflexivity. Qed.

Lemma steady_print (line : log_line) : steady (print line).
Proof. intros w. reflexivity. Qed.

Lemma steady_connected (ws : nat) : steady (connected ws).
Proof. intros w. reflexivity. Qed.

Lemma steady_set_connected (ws : nat) (c : bool) :
  steady (set_connected ws c).
Proof. intros w. cbn. apply length_replace_nth. Qed.

Lemma steady_when (b : bool) (m : M unit) : steady m -> steady (when b m).
Proof. intros Hm. destruct b; [exact Hm | apply steady_ret]. Qed.

Lemma steady_bind {A B} (m : M A) (f : A -> M B) :
  steady m -> (forall a, steady (f a)) -> steady (bind m f).
Proof.
  intros Hm Hf w. unfold bind. specialize (Hm w).
  destruct (m w) as [[a|e] w1]; cbn in Hm |- *; [|exact Hm].
  now rewrite Hf.
Qed.

Lemma steady_try_except {A} (m : M A) (handler : exn -> M A) :
  steady m -> (forall e, steady (handler e)) -> steady (try_except m handler).
Proof.
  intros Hm Hh w. unfold try_except. specialize (Hm w).
  destruct (m w) as [[a|e] w1]; cbn in Hm |- *; [exact Hm|].
  now rewrite Hh.
Qed.

Lemma steady_try_finally {A} (m : M A) (cleanup : M unit) :
  steady m -> steady cleanup -> steady (try_finally m cleanup).
Proof.
  intros Hm Hc w. unfold try_finally. specialize (Hm w).
  destruct (m w) as [r w1]; cbn in Hm |- *. now rewrite Hc.
Qed.

Ltac steady_step :=
  first
    [ apply steady_ret | apply steady_raise | apply steady_lift
    | apply steady_emit | apply steady_print | apply steady_connected
    | apply steady_set_connected | apply steady_when
    | apply steady_bind; [|intros ?]
    | apply steady_try_except; [|intros ?]
    | apply steady_try_finally
    | match goal with
      | |- steady (if ?b then _ else _) => destruct b
      | |- steady (match ?x with _ => _ end) => destruct x
      end ].

Lemma steady_listen (p : process) (ws : nat) (target : string)
    (arrivals : list arrival) :
  steady (listen p ws target arrivals).
Proof.
  induction arrivals as [|a rest IH]; cbn [listen].
  - repeat steady_step.
  - destruct (ws_timeout <=? gap_of a); [repeat steady_step|].
    apply steady_bind; [apply steady_emit | intros _].
    destruct a as [gap [|] data | gap ex still];
      repeat first [exact IH | steady_step].
Qed.

Lemma steady_get_history (p : process) (e : env) (prompt_id : json) :
  steady (get_history p e prompt_id).
Proof. unfold get_history. repeat steady_step. Qed.

Lemma steady_poll_history (p : process) (e : env) (prompt_id : json)
    (target : string) :
  steady (poll_history p e prompt_id target).
Proof.
  unfold poll_history.
  repeat first [apply steady_get_history | steady_step].
Qed.

Lemma nth_replace_nth_false (ws : nat) (l : list bool) :
  nth ws (replace_nth ws false l) false = false.
Proof.
  revert ws. induction l as [|b l IH]; intros [|ws]; cbn; auto.
Qed.

Lemma last_of_list {A} (l l' : list A) (d : A) :
  length l' = S (length l) -> firstn (length l) l' = l ->
  l' = (l ++ [nth (length l) l' d])%list.
Proof.
  revert l'. induction l as [|x l IH]; intros [|y l'] Hlen Hfirst;
    try discriminate.
  - destruct l'; [reflexivity | discriminate].
  - cbn in Hlen, Hfirst |- *. injection Hfirst as -> Hfirst.
    f_equal. apply IH; [now injection Hlen | exact Hfirst].
Qed.

(** The [finally] clause leaves the socket not connected. *)
Lemma cleanup_closes (ws : nat) (w : world) :
  let w' := snd ((c <- connected ws ;;
                  when c (emit EWsClose ;; set_connected ws false))%M w) in
  length (sockets w') = length (sockets w)
  /\ nth ws (sockets w') false = false.
Proof.
  unfold bind, connected, when, emit, set_connected, ret. cbn [snd sockets].
  destruct (nth ws (sockets w) false) eqn:Hc; cbn [snd sockets].
  - split; [apply length_replace_nth | apply nth_replace_nth_false].
  - split; [reflexivity | exact Hc].
Qed.

(** The sockets after the push phase. *)
Lemma watch_push_sockets (p : process) (e : env) (target : string)
    (w : world) :
  sockets (snd (watch_push p e target w)) = (sockets w ++ [false])%list.
Proof.
  assert (Hfirst : firstn (length (sockets w))
                     (sockets (snd (watch_push p e target w))) = sockets w).
  { assert (H : safe 0 (length (sockets w)) (fun _ => True)
                  (watch_push p e target))
      by (apply safe_watch_push; auto).
    destruct (H w) as (_ & _ & Hs & _); [split; [apply Nat.le_0_l | lia]|].
    rewrite Hs. apply firstn_all. }
  assert (Hshape :
    exists w1,
      length (sockets w1) = S (length (sockets w))
      /\ snd (watch_push p e target w)
         = snd ((c <- connected (length (sockets w)) ;;
                 when c (emit EWsClose ;;
                         set_connected (length (sockets w)) false))%M w1)).
  { unfold watch_push. unfold bind at 1. cbn [new_socket].
    unfold try_finally.
    match goal with
    | |- context [try_except ?m ?h ?w0] =>
        assert (Hbody : length (sockets (snd (try_except m h w0)))
                        = length (sockets w0));
          [|destruct (try_except m h w0) as [r w1]]
    end.
    { apply steady_try_except; [|intros ex0].
      - repeat first [apply steady_listen | steady_step].
      - repeat steady_step. }
    cbn in Hbody. rewrite length_app in Hbody. cbn in Hbody.
    exists w1. split; [lia | reflexivity]. }
  destruct Hshape as (w1 & Hlen1 & Hw).
  destruct (cleanup_closes (length (sockets w)) w1) as [Hlen Hlast].
  rewrite <- Hw in Hlen, Hlast. rewrite Hlen1 in Hlen.
  rewrite (last_of_list (sockets w) _ false Hlen Hfirst).
  now rewrite Hlast.
Qed.

(** X15: whatever the engine does, the socket that
    [get_final_video_path] opens is not connected when the function
    returns or raises, and the sockets that existed before are as they
    were: a connection that was made is closed on every path. *)
Theorem socket_never_left_connected (p : process) (e : env)
    (prompt_id : json) (target : string) (w : world) :
  sockets (snd (get_final_video_path p e prompt_id target w))
  = (sockets w ++ [false])%list.
Proof.
  unfold get_final_video_path, bind.
  pose proof (watch_push_sockets p e target w) as Hs.
  destruct (watch_push p e target w) as [[[r|]|ex] w1];
    cbn [snd] in Hs; unfold ret; cbn [snd]; try exact Hs.
  rewrite <- Hs.
  assert (Hsafe : safe 0 (length (sockets w1)) (fun _ => True)
                    (poll_history p e prompt_id target))
    by (apply safe_poll_history; auto).
  destruct (Hsafe w1) as (_ & _ & Hf & _); [split; [apply Nat.le_0_l | lia]|].
  pose proof (steady_poll_history p e prompt_id target w1) as Hlen.
  rewrite <- Hlen in Hf at 1. now rewrite !firstn_all in Hf.
Qed.

(** ** The body of the success response *)

Lemma string_app_assoc (a b c : string) : (a ++ b) ++ c = a ++ (b ++ c).
Proof. induction a as [|x a IH]; cbn; [reflexivity | now rewrite IH]. Qed.

Lemma first_surrogate_encodable (s : string) (index : Z) :
  first_surrogate s index = None <-> encodable s = true.
Proof.
  revert index. induction s as [|c s IH]; intros index; [now split|].
  cbn [first_surrogate encodable].
  destruct (starts_surrogate (String c s)); cbn [negb andb].
  - split; discriminate.
  - apply IH.
Qed.

Lemma utf8_encode_encodable (text : string) :
  encodable text = true -> utf8_encode text = Ok text.
Proof.
  intros H. unfold utf8_encode.
  now rewrite (proj2 (first_surrogate_encodable text 0) H).
Qed.

Lemma utf8_encode_raises (text : string) :
  encodable text = false ->
  exists ex,
    utf8_encode text = Raise ex /\ exn_cls ex = UnicodeEncodeError.
Proof.
  intros H. unfold utf8_encode.
  destruct (first_surrogate text 0) as [[start from_it]|] eqn:E.
  - eexists. split; reflexivity.
  - apply first_surrogate_encodable in E. congruence.
Qed.

Lemma starts_surrogate_ascii (c : ascii) (s : string) :
  (byte_val c <? 128) = true -> starts_surrogate (String c s) = false.
Proof.
  intros H. cbn [starts_surrogate]. apply Z.ltb_lt in H.
  destruct (Z.eqb_spec (byte_val c) 237); [lia | reflexivity].
Qed.

Lemma encodable_app_ascii (a b : string) :
  ascii_text a = true -> encodable (a ++ b) = encodable b.
Proof.
  induction a as [|c a IH]; intros H; [reflexivity|].
  cbn [ascii_text] in H. apply andb_prop in H. destruct H as [Hc Ha].
  cbn [append encodable]. rewrite (starts_surrogate_ascii c _ Hc).
  now apply IH.
Qed.

(** What [escape_raw_byte] writes for a byte: an escape in ASCII for a
    byte below 128, or the byte itself. *)
Lemma escape_raw_byte_cases (c : ascii) :
  (ascii_text (escape_raw_byte c) = true /\ (byte_val c <? 128) = true)
  \/ escape_raw_byte c = String c EmptyString.
Proof.
  unfold escape_raw_byte. cbv zeta.
  destruct (Z.eqb_spec (byte_val c) 34) as [E|_];
    [left; split; [reflexivity | rewrite E; reflexivity]|].
  destruct (Z.eqb_spec (byte_val c) 92) as [E|_];
    [left; split; [reflexivity | rewrite E; reflexivity]|].
  destruct (Z.eqb_spec (byte_val c) 10) as [E|_];
    [left; split; [reflexivity | rewrite E; reflexivity]|].
  destruct (Z.eqb_spec (byte_val c) 13) as [E|_];
    [left; split; [reflexivity | rewrite E; reflexivity]|].
  destruct (Z.eqb_spec (byte_val c) 9) as [E|_];
    [left; split; [reflexivity | rewrite E; reflexivity]|].
  destruct (Z.eqb_spec (byte_val c) 12) as [E|_];
    [left; split; [reflexivity | rewrite E; reflexivity]|].
  destruct (Z.eqb_spec (byte_val c) 8) as [E|_];
    [left; split; [reflexivity | rewrite E; reflexivity]|].
  destruct (Z.ltb_spec (byte_val c) 32) as [Hlt|_]; [|now right].
  left. split; [|apply Z.ltb_lt; lia].
  destruct c as [[] [] [] [] [] [] [] []]; vm_compute in Hlt; try discriminate;
    reflexivity.
Qed.

Lemma high_head_ascii (s t : string) :
  ascii_text s = true -> s <> EmptyString -> high_head (s ++ t) = false.
Proof.
  destruct s as [|c s]; [contradiction|]. cbn [ascii_text append high_head].
  intros H _. apply andb_prop in H. destruct H as [H _].
  apply Z.ltb_lt in H.
  destruct (Z.leb_spec 160 (byte_val c)); [lia | reflexivity].
Qed.

Lemma escape_raw_byte_nonempty (c : ascii) :
  escape_raw_byte c <> EmptyString.
Proof.
  unfold escape_raw_byte, u_escape. cbv zeta.
  repeat match goal with
         | |- (if ?b then _ else _) <> _ => destruct b
         end; discriminate.
Qed.

Lemma high_head_escape_raw (s t : string) :
  high_head (escape_raw s ++ t) = high_head (s ++ t).
Proof.
  destruct s as [|c s]; [reflexivity|]. cbn [escape_raw].
  rewrite string_app_assoc.
  destruct (escape_raw_byte_cases c) as [[Ha Hc]| ->]; [|reflexivity].
  rewrite (high_head_ascii _ _ Ha (escape_raw_byte_nonempty c)).
  cbn [append high_head]. apply Z.ltb_lt in Hc.
  destruct (Z.leb_spec 160 (byte_val c)); [lia | reflexivity].
Qed.

Lemma encodable_escape_raw (s t : string) :
  encodable (escape_raw s ++ t) = encodable (s ++ t).
Proof.
  induction s as [|c s IH]; [reflexivity|]. cbn [escape_raw].
  rewrite string_app_assoc.
  destruct (escape_raw_byte_cases c) as [[Ha Hc]|Hk].
  - rewrite (encodable_app_ascii _ _ Ha), IH. cbn [append encodable].
    now rewrite (starts_surrogate_ascii c _ Hc).
  - rewrite Hk. cbn [append encodable starts_surrogate].
    now rewrite IH, high_head_escape_raw.
Qed.

Lemma encodable_app_tail (s t : string) :
  high_head t = false -> encodable t = true ->
  encodable (s ++ t) = encodable s.
Proof.
  intros Hh Ht. induction s as [|c s IH]; [exact Ht|].
  cbn [append encodable]. rewrite IH. f_equal. f_equal.
  cbn [starts_surrogate]. f_equal.
  destruct s as [|d s]; [exact Hh | reflexivity].
Qed.

(** The body of the success response can be encoded exactly when the
    path can. *)
Lemma encodable_success_body (path : string) :
  encodable (success_body path) = encodable path.
Proof.
  unfold success_body, quote_raw.
  change ("{" ++ String dquote
                   (escape_raw "generated_video_path"
                    ++ String dquote EmptyString)
              ++ ":" ++ String dquote (escape_raw path ++ String dquote EmptyString)
              ++ "}")
    with (("{" ++ String dquote
                   (escape_raw "generated_video_path"
                    ++ String dquote EmptyString)
              ++ ":" ++ String dquote EmptyString)
          ++ (escape_raw path ++ String dquote EmptyString) ++ "}").
  rewrite encodable_app_ascii by reflexivity.
  rewrite string_app_assoc, encodable_escape_raw.
  now apply encodable_app_tail.
Qed.

Lemma respond_path (path : string) :
  path <> EmptyString ->
  respond (Some path)
  = (_ <- utf8_encode (success_body path) ;;
     Ok (JSONResponse 200 (JDict [("generated_video_path", JStr path)])))
      %result.
Proof.
  intros Hne. cbn [respond truthy_opt].
  apply String.eqb_neq in Hne. now rewrite Hne.
Qed.

(** The response for a non-empty path: made when the path can be
    encoded, and otherwise the [UnicodeEncodeError] of the encoder. *)
Lemma respond_encodable (path : string) :
  path <> EmptyString ->
  (encodable path = true ->
   respond (Some path)
   = Ok (JSONResponse 200 (JDict [("generated_video_path", JStr path)])))
  /\ (encodable path = false ->
      exists ex,
        utf8_encode (success_body path) = Raise ex
        /\ exn_cls ex = UnicodeEncodeError
        /\ respond (Some path) = Raise ex).
Proof.
  intros Hne. rewrite (respond_path path Hne). split; intros He.
  - rewrite utf8_encode_encodable by now rewrite encodable_success_body.
    reflexivity.
  - destruct (utf8_encode_raises (success_body path)) as (ex & Hx & Hc);
      [now rewrite encodable_success_body|].
    exists ex. rewrite Hx. now repeat split.
Qed.

(** A path that holds the lone surrogate U+D800: the response cannot
    be built. *)
Example respond_lone_surrogate :
  let path :=
    "/out/" ++ String (chr 237) (String (chr 160) (String (chr 128) ".mp4")) in
  encodable path = false
  /\ respond (Some path)
     = Raise (Exn UnicodeEncodeError
                ("'utf-8' codec can't encode character '\ud800' "
                 ++ "in position 30: surrogates not allowed")).
Proof. split; vm_compute; reflexivity. Qed.

(** ** The handler: the history fallback *)

(** X16: when the engine took the job, the push channel gave no result
    and the history holds, for the output node of the job, a payload
    from which the extractor reads a non-empty path, the handler
    answers 200 with that path if the path can be encoded as UTF-8;
    if it cannot (it holds a lone surrogate), building the response
    raises [UnicodeEncodeError] inside the [try] and the handler answers
    500 with the text of that exception. *)
Theorem history_fallback_answers (p : process) (e : env)
    (image : image_data) (prompt negative_prompt : string) (w : world)
    (h : nat) (output_id pid body path : string)
    (q : list (string * json)) (reply payload : json) :
  let injected := inject_parameters p e image prompt negative_prompt w in
  let answer := fst (generate_video p e image prompt negative_prompt w) in
  fst injected = Ok (Injected h output_id) ->
  fst (queue_prompt p e h (snd injected)) = Ok (JDict q) ->
  dict_get "prompt_id" q = Some (JStr pid) ->
  push_silent e output_id = true ->
  history_reply e = Ok body ->
  json_loads_text body = Ok reply ->
  history_entry reply pid output_id = Some payload ->
  parse_video_path_from_output payload = Ok (Some path) ->
  path <> EmptyString ->
  (encodable path = true ->
   answer
   = Ok (JSONResponse 200 (JDict [("generated_video_path", JStr path)])))
  /\ (encodable path = false ->
      exists ex,
        utf8_encode (success_body path) = Raise ex
        /\ exn_cls ex = UnicodeEncodeError
        /\ answer = Ok (JSONResponse 500 (error_content (exn_msg ex)))).
Proof.
  intros injected answer Hi Hq Hp Hs Hb Hr He Hx Hne. subst answer.
  destruct (generate_video_after_fallback p e image prompt negative_prompt
              w h output_id pid q Hi Hq Hp
              (fst_watch_push_silent p e output_id _ Hs)) as [-> _].
  rewrite (poll_history_entry p e pid output_id body reply payload _
             Hb Hr He), Hx.
  destruct (respond_encodable path Hne) as [Hyes Hno]. split; intros Henc.
  - now rewrite (Hyes Henc).
  - destruct (Hno Henc) as (ex & Hu & Hc & Hr'). exists ex.
    now rewrite Hr'.
Qed.

Lemma history_fallback_answers_witness :
  let e := sample_env slow_progress (history_with scenario_b_payload) in
  fst (generate_video sample_process e sample_image "a cat" EmptyString
         (sample_world sample_template))
  = Ok (JSONResponse 200
          (JDict [("generated_video_path", JStr "/out/video.mp4")])).
Proof.
  cbn zeta.
  refine (proj1 (history_fallback_answers sample_process
           (sample_env slow_progress (history_with scenario_b_payload))
           sample_image "a cat" EmptyString (sample_world sample_template)
           2%nat "5" "job-1"
           (json_dumps (history_with scenario_b_payload))
           "/out/video.mp4" [("prompt_id", JStr "job-1")]
           (history_with scenario_b_payload) scenario_b_payload
           _ _ _ _ _ _ _ _ _) _);
    try (vm_compute; reflexivity); discriminate.
Defined.

(** ** The injection: what is written and what is kept *)

Lemma input_of_write_other (g : json) (node_id field : string) (x : json)
    (node_id' field' : string) :
  (node_id, field) <> (node_id', field') ->
  input_of (write_input g node_id field x) node_id' field'
  = input_of g node_id' field'.
Proof.
  intros Hne. unfold write_input.
  destruct g as [| | | | | |gi]; try reflexivity.
  destruct (dict_get node_id gi) as [[| | | | | |ni]|] eqn:Hn;
    try reflexivity.
  destruct (dict_get "inputs" ni) as [[| | | | | |ii]|] eqn:Hi;
    try reflexivity.
  unfold input_of.
  destruct (String.eqb_spec node_id node_id') as [<-|Hnode].
  - rewrite dict_get_set_same, dict_get_set_same, Hn, Hi.
    apply dict_get_set_other. congruence.
  - now rewrite dict_get_set_other.
Qed.

Lemma node_field_write (g : json) (node_id field : string) (x : json)
    (node_id' key : string) :
  key <> "inputs" ->
  node_field (write_input g node_id field x) node_id' key
  = node_field g node_id' key.
Proof.
  intros Hne. unfold write_input.
  destruct g as [| | | | | |gi]; try reflexivity.
  destruct (dict_get node_id gi) as [[| | | | | |ni]|] eqn:Hn;
    try reflexivity.
  destruct (dict_get "inputs" ni) as [[| | | | | |ii]|] eqn:Hi;
    try reflexivity.
  unfold node_field.
  destruct (String.eqb_spec node_id node_id') as [<-|Hnode].
  - rewrite dict_get_set_same, Hn. apply dict_get_set_other. congruence.
  - now rewrite dict_get_set_other.
Qed.

Lemma map_fst_dict_set (k : string) (v v0 : json)
    (d : list (string * json)) :
  dict_get k d = Some v0 -> map fst (dict_set k v d) = map fst d.
Proof.
  induction d as [|[k' v'] d IH]; cbn; [discriminate|].
  destruct (String.eqb k' k); cbn; [reflexivity|].
  intros H. now rewrite IH.
Qed.

Lemma node_ids_write (g : json) (node_id field : string) (x : json) :
  node_ids (write_input g node_id field x) = node_ids g.
Proof.
  unfold write_input.
  destruct g as [| | | | | |gi]; try reflexivity.
  destruct (dict_get node_id gi) as [[| | | | | |ni]|] eqn:Hn;
    try reflexivity.
  destruct (dict_get "inputs" ni) as [[| | | | | |ii]|] eqn:Hi;
    try reflexivity.
  cbn. now apply map_fst_dict_set with (v0 := JDict ni).
Qed.

(** X17: on a template with its four required nodes, the graph the
    injection leaves for submission holds the name of the uploaded
    image, the prompt and the negative prompt in their inputs, as they
    were given; every other input but the sampler's seed is as in the
    template, and so are the nodes of the graph, their order and what
    each node holds beside its inputs. *)
Theorem injection_writes_only_its_inputs (p : process) (e : env)
    (image : image_data) (prompt negative_prompt : string) (w : world)
    (template g name : json) (i1 i2 i3 i4 : string) (k : option string) :
  let run := inject_parameters p e image prompt negative_prompt w in
  nth_error (store w) (workflow_api_json p) = Some template ->
  json_loads (JStr (json_dumps template)) = Ok g ->
  find_node_id g (Some "load_image") None = Ok (Some i1) ->
  find_node_id g (Some "positive_prompt") None = Ok (Some i2) ->
  find_node_id g (Some "negative_prompt") None = Ok (Some i3) ->
  find_node_id g (Some "output_paths") None = Ok (Some i4) ->
  find_node_id g None (Some "KSampler") = Ok k ->
  i1 <> EmptyString -> i2 <> EmptyString ->
  i3 <> EmptyString -> i4 <> EmptyString ->
  i2 <> i3 ->
  (forall w0, fst (upload_image p e image w0) = Ok name) ->
  has_inputs g i1 = true -> has_inputs g i2 = true ->
  has_inputs g i3 = true ->
  (forall ks, k = Some ks -> has_inputs g ks = true) ->
  exists g',
    fst run = Ok (Injected (length (store w)) i4)
    /\ nth_error (store (snd run)) (length (store w)) = Some g'
    /\ input_of g' i1 "image" = Some name
    /\ input_of g' i2 "text" = Some (JStr prompt)
    /\ input_of g' i3 "text" = Some (JStr negative_prompt)
    /\ (forall node_id field,
          (node_id, field) <> (i1, "image") ->
          (node_id, field) <> (i2, "text") ->
          (node_id, field) <> (i3, "text") ->
          (forall ks, k = Some ks -> (node_id, field) <> (ks, "seed")) ->
          input_of g' node_id field = input_of g node_id field)
    /\ (forall node_id key,
          key <> "inputs" ->
          node_field g' node_id key = node_field g node_id key)
    /\ node_ids g' = node_ids g.
Proof.
  intros run Ht Hg H1 H2 H3 H4 Hk N1 N2 N3 N4 N23 Hup I1 I2 I3 Ik.
  destruct (inject_parameters_graph p e image prompt negative_prompt w
              template g name i1 i2 i3 i4 k
              Ht Hg H1 H2 H3 H4 Hk N1 N2 N3 N4 Hup I1 I2 I3 Ik)
    as [Hrun Hgraph].
  fold run in Hrun, Hgraph.
  exists (injected_graph e g i1 i2 i3 k name prompt negative_prompt).
  split; [exact Hrun|]. split; [exact Hgraph|].
  set (g1 := write_input g i1 "image" name).
  set (g2 := write_input g1 i2 "text" (JStr prompt)).
  set (g3 := write_input g2 i3 "text" (JStr negative_prompt)).
  assert (J1 : input_of g3 i1 "image" = Some name).
  { unfold g3, g2. rewrite !input_of_write_other by congruence.
    now apply input_of_write. }
  assert (J2 : input_of g3 i2 "text" = Some (JStr prompt)).
  { unfold g3. rewrite input_of_write_other by congruence.
    apply input_of_write. now apply has_inputs_write. }
  assert (J3 : input_of g3 i3 "text" = Some (JStr negative_prompt)).
  { apply input_of_write. now apply has_inputs_write, has_inputs_write. }
  assert (J4 : forall node_id field,
             (node_id, field) <> (i1, "image") ->
             (node_id, field) <> (i2, "text") ->
             (node_id, field) <> (i3, "text") ->
             input_of g3 node_id field = input_of g node_id field).
  { intros node_id field D1 D2 D3. unfold g3, g2, g1.
    rewrite !input_of_write_other by congruence. reflexivity. }
  assert (J5 : forall node_id key,
             key <> "inputs" ->
             node_field g3 node_id key = node_field g node_id key).
  { intros node_id key Hkey. unfold g3, g2, g1.
    now rewrite !node_field_write. }
  assert (J6 : node_ids g3 = node_ids g).
  { unfold g3, g2, g1. now rewrite !node_ids_write. }
  unfold injected_graph. fold g1 g2 g3.
  destruct k as [ks|]; [destruct (String.eqb ks EmptyString)|].
  - repeat split; auto.
  - repeat split.
    + rewrite input_of_write_other by congruence. exact J1.
    + rewrite input_of_write_other by congruence. exact J2.
    + rewrite input_of_write_other by congruence. exact J3.
    + intros node_id field D1 D2 D3 D4.
      rewrite input_of_write_other; [now apply J4|].
      intros Heq. apply (D4 ks eq_refl). congruence.
    + intros node_id key Hkey. rewrite node_field_write by exact Hkey.
      now apply J5.
    + now rewrite node_ids_write.
  - repeat split; auto.
Qed.

Lemma injection_writes_only_its_inputs_witness :
  let e := sample_env [] history_without_entry in
  let w := sample_world sample_template in
  let run := inject_parameters sample_process e sample_image "a cat"
               "blurry" w in
  exists g',
    fst run = Ok (Injected 2 "5")
    /\ nth_error (store (snd run)) 2 = Some g'
    /\ input_of g' "1" "image" = Some (JStr "image.png")
    /\ input_of g' "2" "text" = Some (JStr "a cat")
    /\ input_of g' "3" "text" = Some (JStr "blurry")
    /\ (forall node_id field,
          (node_id, field) <> ("1", "image") ->
          (node_id, field) <> ("2", "text") ->
          (node_id, field) <> ("3", "text") ->
          (forall ks, Some "4" = Some ks -> (node_id, field) <> (ks, "seed")) ->
          input_of g' node_id field = input_of sample_template node_id field)
    /\ (forall node_id key,
          key <> "inputs" ->
          node_field g' node_id key = node_field sample_template node_id key)
    /\ node_ids g' = node_ids sample_template.
Proof.
  cbn zeta.
  apply (injection_writes_only_its_inputs sample_process
           (sample_env [] history_without_entry) sample_image
           "a cat" "blurry" (sample_world sample_template)
           sample_template sample_template (JStr "image.png")
           "1" "2" "3" "5" (Some "4"));
    try (vm_compute; reflexivity); try discriminate.
  intros ks H. injection H as <-. reflexivity.
Defined.

(** ** The copy of the template: [json.loads(json.dumps(..))] *)

Lemma parse_string_body_literal (fuel : nat) (c : ascii) (s : string) :
  Ascii.eqb c dquote = false -> Ascii.eqb c backslash = false ->
  (byte_val c <? 32) = false ->
  parse_string_body (S fuel) (String c s)
  = match parse_string_body fuel s with
    | Some (t, r) => Some (String c t, r)
    | None => None
    end.
Proof. intros H1 H2 H3. cbn [parse_string_body]. now rewrite H1, H2, H3. Qed.

Lemma parse_string_body_simple (fuel : nat) (e x : ascii) (s : string) :
  Ascii.eqb e "u" = false -> simple_escape e = Some x ->
  parse_string_body (S fuel) (String backslash (String e s))
  = match parse_string_body fuel s with
    | Some (t, r) => Some (String x t, r)
    | None => None
    end.
Proof.
  intros H1 H2. cbn [parse_string_body].
  change (Ascii.eqb backslash dquote) with false.
  change (Ascii.eqb backslash backslash) with true.
  cbv beta iota. now rewrite H1, H2.
Qed.

Lemma parse_string_body_low (fuel : nat) (a b c d : ascii) (u : Z)
    (s : string) :
  read_hex4 (String a (String b (String c (String d EmptyString))))
  = Some (u, EmptyString) ->
  is_high_surrogate u = false ->
  parse_string_body (S fuel)
    (String backslash (String "u" (String a (String b (String c (String d s))))))
  = match parse_string_body fuel s with
    | Some (t, r) => Some (utf8 u ++ t, r)
    | None => None
    end.
Proof.
  intros H1 H2. cbn [parse_string_body].
  change (Ascii.eqb backslash dquote) with false.
  change (Ascii.eqb backslash backslash) with true.
  change (Ascii.eqb "u" "u") with true.
  cbv beta iota.
  assert (Hr : read_hex4 (String a (String b (String c (String d s))))
               = Some (u, s)).
  { unfold read_hex4 in H1 |- *.
    destruct (hex_val a), (hex_val b), (hex_val c), (hex_val d);
      try discriminate.
    injection H1 as <-. reflexivity. }
  rewrite Hr, H2. reflexivity.
Qed.

(** One character of an ASCII text, as written and read back. *)
Lemma parse_string_body_char (c : ascii) (fuel : nat) (rest : string) :
  (byte_val c <? 128) = true ->
  parse_string_body (S fuel) (escape_code_point (byte_val c) ++ rest)
  = match parse_string_body fuel rest with
    | Some (t, r) => Some (String c t, r)
    | None => None
    end.
Proof.
  destruct c as [[] [] [] [] [] [] [] []]; intros H;
    try discriminate H; clear H;
    match goal with
    | |- context [escape_code_point ?n] =>
        let v := eval vm_compute in (escape_code_point n) in
        change (escape_code_point n) with v
    end;
    cbn [append];
    first
      [ apply parse_string_body_literal; reflexivity
      | apply parse_string_body_simple; reflexivity
      | match goal with
        | |- parse_string_body _
               (String _ (String _
                  (String ?a (String ?b (String ?c (String ?d _)))))) = _ =>
            let r := eval vm_compute in
                       (read_hex4
                          (String a (String b (String c (String d EmptyString))))) in
            match r with
            | Some (?u, _) =>
                exact (parse_string_body_low fuel a b c d u rest
                         eq_refl eq_refl)
            end
        end ].
Qed.

Lemma escape_text_ascii (c : ascii) (s : string) :
  (byte_val c <? 128) = true ->
  escape_text (String c s) = escape_code_point (byte_val c) ++ escape_text s.
Proof.
  intros H. cbn [escape_text]. cbv zeta.
  apply Z.ltb_lt in H.
  destruct (Z.ltb_spec (byte_val c) 192) as [_|Hge]; [reflexivity | lia].
Qed.

Lemma string_app_nil_r (a : string) : a ++ EmptyString = a.
Proof. induction a as [|x a IH]; cbn; [reflexivity | now rewrite IH]. Qed.

Lemma string_length_app (a b : string) :
  String.length (a ++ b) = (String.length a + String.length b)%nat.
Proof. induction a as [|x a IH]; cbn; [reflexivity | now rewrite IH]. Qed.

(** The body of an ASCII text, written by [escape_text], is read back
    as the text. *)
Lemma parse_string_body_escape (s rest : string) (fuel : nat) :
  ascii_text s = true -> (String.length s < fuel)%nat ->
  parse_string_body fuel (escape_text s ++ String dquote rest)
  = Some (s, rest).
Proof.
  revert fuel. induction s as [|c s IH]; intros fuel Hs Hfuel.
  - destruct fuel as [|fuel]; [inversion Hfuel|]. reflexivity.
  - cbn [ascii_text] in Hs. apply andb_prop in Hs. destruct Hs as [Hc Hs].
    destruct fuel as [|fuel]; [inversion Hfuel|].
    rewrite (escape_text_ascii c s Hc), string_app_assoc.
    rewrite (parse_string_body_char c fuel _ Hc).
    rewrite IH; [reflexivity | exact Hs | cbn in Hfuel; lia].
Qed.

Lemma length_escape_code_point (c : ascii) :
  (byte_val c <? 128) = true ->
  (1 <= String.length (escape_code_point (byte_val c)))%nat.
Proof.
  destruct c as [[] [] [] [] [] [] [] []]; intros H;
    try discriminate H; vm_compute; repeat constructor.
Qed.

Lemma length_escape_text (s : string) :
  ascii_text s = true ->
  (String.length s <= String.length (escape_text s))%nat.
Proof.
  induction s as [|c s IH]; intros Hs; [apply Nat.le_refl|].
  cbn [ascii_text] in Hs. apply andb_prop in Hs. destruct Hs as [Hc Hs].
  rewrite (escape_text_ascii c s Hc), string_length_app.
  pose proof (length_escape_code_point c Hc). specialize (IH Hs).
  cbn [String.length]. lia.
Qed.

Lemma parse_string_escape (s rest : string) :
  ascii_text s = true ->
  parse_string (escape_text s ++ String dquote rest) = Some (s, rest).
Proof.
  intros Hs. unfold parse_string. apply parse_string_body_escape; [exact Hs|].
  rewrite string_length_app. pose proof (length_escape_text s Hs). lia.
Qed.

(** What follows a value in the text that [json.dumps] writes. *)
Lemma closes_cases (rest : string) :
  closes rest = true ->
  rest = EmptyString
  \/ exists r, rest = String "," r \/ rest = String "]" r
               \/ rest = String "}" r.
Proof.
  destruct rest as [|c r]; [now left|]. cbn [closes]. intros H. right.
  exists r. apply orb_prop in H. destruct H as [H|H].
  - apply orb_prop in H. destruct H as [H|H]; apply Ascii.eqb_eq in H;
      subst c; auto.
  - apply Ascii.eqb_eq in H. subst c. auto.
Qed.

Ltac closes_split H :=
  let r := fresh "r" in
  destruct (closes_cases _ H) as [->|[r [->|[->| ->]]]].

Lemma span_digits_uint (d : Decimal.uint) (rest : string) :
  closes rest = true ->
  span_digits (NilEmpty.string_of_uint d ++ rest)
  = (NilEmpty.string_of_uint d, rest).
Proof.
  intros H. induction d as [|d IH|d IH|d IH|d IH|d IH|d IH|d IH|d IH|d IH|d IH];
    cbn [NilEmpty.string_of_uint append];
    try (cbn [span_digits];
         match goal with
         | |- context [is_digit ?c] => change (is_digit c) with true
         end;
         cbv iota; now rewrite IH).
  closes_split H; reflexivity.
Qed.

Lemma digits_value_acc (d : Decimal.uint) (acc : positive) :
  digits_value (Z.pos acc) (NilEmpty.string_of_uint d)
  = Z.pos (Pos.of_uint_acc d acc).
Proof.
  revert acc.
  induction d as [|d IH|d IH|d IH|d IH|d IH|d IH|d IH|d IH|d IH|d IH];
    intros acc; cbn [NilEmpty.string_of_uint digits_value Pos.of_uint_acc];
    [reflexivity|..];
    rewrite <- IH; f_equal;
    match goal with
    | |- context [byte_val ?c] =>
        let v := eval vm_compute in (byte_val c) in
        change (byte_val c) with v
    end; lia.
Qed.

Lemma digits_value_uint (d : Decimal.uint) :
  digits_value 0 (NilEmpty.string_of_uint d) = Z.of_N (Pos.of_uint d).
Proof.
  induction d as [|d IH|d IH|d IH|d IH|d IH|d IH|d IH|d IH|d IH|d IH];
    cbn [NilEmpty.string_of_uint digits_value Pos.of_uint];
    [reflexivity | exact IH | ..];
    match goal with
    | |- context [byte_val ?c] =>
        let v := eval vm_compute in (byte_val c) in
        change (byte_val c) with v
    end;
    cbn [Z.mul Z.add Z.sub Z.opp Z.pos_sub Pos.pred_double Z.succ_double
         Z.pred_double Z.double Z.of_N];
    apply digits_value_acc.
Qed.

(** The decimal digits of a positive number start with no zero. *)
Lemma to_uint_head (p : positive) :
  Pos.to_uint p <> Decimal.Nil
  /\ forall d, Pos.to_uint p <> Decimal.D0 d.
Proof.
  split; [apply DecimalPos.Unsigned.to_uint_nonnil|].
  intros d Hd.
  pose proof (DecimalPos.Unsigned.to_of (Pos.to_uint p)) as H.
  rewrite DecimalPos.Unsigned.of_to in H. cbn [N.to_uint] in H.
  destruct (Decimal.nzhead (Pos.to_uint p)) eqn:Hn.
  - apply (proj2 (DecimalFacts.unorm_0 _)) in Hn. rewrite Hn in H.
    now apply (DecimalPos.Unsigned.to_uint_nonzero p).
  - now apply (DecimalFacts.nzhead_nonzero (Pos.to_uint p) u).
  - rewrite DecimalFacts.unorm_nzhead in H by (rewrite Hn; discriminate).
    rewrite Hn, Hd in H. discriminate H.
  - rewrite DecimalFacts.unorm_nzhead in H by (rewrite Hn; discriminate).
    rewrite Hn, Hd in H. discriminate H.
  - rewrite DecimalFacts.unorm_nzhead in H by (rewrite Hn; discriminate).
    rewrite Hn, Hd in H. discriminate H.
  - rewrite DecimalFacts.unorm_nzhead in H by (rewrite Hn; discriminate).
    rewrite Hn, Hd in H. discriminate H.
  - rewrite DecimalFacts.unorm_nzhead in H by (rewrite Hn; discriminate).
    rewrite Hn, Hd in H. discriminate H.
  - rewrite DecimalFacts.unorm_nzhead in H by (rewrite Hn; discriminate).
    rewrite Hn, Hd in H. discriminate H.
  - rewrite DecimalFacts.unorm_nzhead in H by (rewrite Hn; discriminate).
    rewrite Hn, Hd in H. discriminate H.
  - rewrite DecimalFacts.unorm_nzhead in H by (rewrite Hn; discriminate).
    rewrite Hn, Hd in H. discriminate H.
  - rewrite DecimalFacts.unorm_nzhead in H by (rewrite Hn; discriminate).
    rewrite Hn, Hd in H. discriminate H.
Qed.

(** An integer, as [json.dumps] writes it, is read back as itself
    when a separator or the end of the text follows. *)
Lemma parse_value_int (z : Z) (fuel : nat) (rest : string) :
  closes rest = true ->
  parse_value (S fuel) (json_dumps (JInt z) ++ rest) = Some (JInt z, rest).
Proof.
  intros Hc. cbn [json_dumps]. destruct z as [|p|p]; cbn [Z.to_int].
  - closes_split Hc; reflexivity.
  - destruct (to_uint_head p) as [Hnil Hzero].
    pose proof (span_digits_uint (Pos.to_uint p) rest Hc) as Hspan.
    pose proof (digits_value_uint (Pos.to_uint p)) as Hval.
    rewrite DecimalPos.Unsigned.of_to in Hval. cbn [Z.of_N] in Hval.
    cbn [NilZero.string_of_int].
    destruct (Pos.to_uint p) as [|d|d|d|d|d|d|d|d|d|d];
      try (now contradiction Hnil); try (now contradiction (Hzero d));
      cbn [NilZero.string_of_uint NilEmpty.string_of_uint append]
        in Hspan, Hval |- *;
      match goal with
      | |- parse_value _ ?s = _ => change (parse_value (S fuel) s)
                                     with (parse_number s)
      end;
      unfold parse_number; rewrite Hspan; cbv beta iota;
      cbn [is_empty]; cbv beta iota;
      closes_split Hc; cbv beta iota; cbn [is_empty andb];
        cbv beta iota; rewrite Hval; reflexivity.
  - destruct (to_uint_head p) as [Hnil Hzero].
    pose proof (span_digits_uint (Pos.to_uint p) rest Hc) as Hspan.
    pose proof (digits_value_uint (Pos.to_uint p)) as Hval.
    rewrite DecimalPos.Unsigned.of_to in Hval. cbn [Z.of_N] in Hval.
    cbn [NilZero.string_of_int].
    destruct (Pos.to_uint p) as [|d|d|d|d|d|d|d|d|d|d];
      try (now contradiction Hnil); try (now contradiction (Hzero d));
      cbn [NilZero.string_of_uint NilEmpty.string_of_uint append]
        in Hspan, Hval |- *;
      match goal with
      | |- parse_value _ ?s = _ => change (parse_value (S fuel) s)
                                     with (parse_number s)
      end;
      unfold parse_number; cbv beta iota; rewrite Hspan; cbv beta iota;
      cbn [is_empty]; cbv beta iota;
      closes_split Hc; cbv beta iota; cbn [is_empty andb];
        cbv beta iota; rewrite Hval; reflexivity.
Qed.

Lemma json_nested_ind (P : json -> Prop) :
  P JNull -> (forall b, P (JBool b)) -> (forall z, P (JInt z)) ->
  (forall lexeme, P (JFloat lexeme)) -> (forall s, P (JStr s)) ->
  (forall l, Forall P l -> P (JList l)) ->
  (forall d, Forall (fun kv : string * json => P (snd kv)) d -> P (JDict d)) ->
  forall v, P v.
Proof.
  intros Hnull Hbool Hint Hfloat Hstr Hlist Hdict.
  fix IH 1.
  intros [|b|z|lexeme|s|l|d];
    [exact Hnull | apply Hbool | apply Hint | apply Hfloat | apply Hstr | | ].
  - apply Hlist. induction l as [|x l IHl]; constructor;
      [apply IH | exact IHl].
  - apply Hdict. induction d as [|[k x] d IHd]; constructor;
      [apply IH | exact IHd].
Qed.

Ltac head_cases H :=
  unfold value_head in H; cbn [existsb] in H;
  repeat (apply orb_prop in H; destruct H as [H|H]);
  try discriminate H; apply Ascii.eqb_eq in H; subst.

Lemma skip_ws_head (s : string) : head_ok s = true -> skip_ws s = s.
Proof.
  destruct s as [|c s]; [discriminate|]. cbn [head_ok]. intros H.
  head_cases H; reflexivity.
Qed.

Lemma head_ok_app (s t : string) :
  head_ok s = true -> head_ok (s ++ t) = true.
Proof. destruct s; [discriminate | auto]. Qed.

Lemma parse_value_list_step (fuel : nat) (s : string) :
  head_ok s = true ->
  parse_value (S fuel) (String "[" s)
  = match parse_elements fuel s with
    | Some (vs, r) => Some (JList vs, r)
    | None => None
    end.
Proof.
  destruct s as [|c s]; [discriminate|]. cbn [head_ok]. intros H.
  head_cases H; reflexivity.
Qed.

Lemma parse_value_dict_step (fuel : nat) (s : string) :
  parse_value (S fuel) (String "{" (String dquote s))
  = match parse_members fuel (String dquote s) with
    | Some (kvs, r) => Some (JDict (dict_of_pairs kvs), r)
    | None => None
    end.
Proof. reflexivity. Qed.

(** The text of a value starts with the character of its kind. *)
Lemma head_ok_dumps (v : json) : plain v = true -> head_ok (json_dumps v) = true.
Proof.
  destruct v as [|[|]|z|lexeme|s|l|d]; try reflexivity; try discriminate.
  intros _. cbn [json_dumps]. destruct z as [|p|p]; try reflexivity.
  cbn [Z.to_int NilZero.string_of_int].
  destruct (Pos.to_uint p); reflexivity.
Qed.

Lemma substring_all (s : string) : substring 0 (String.length s) s = s.
Proof. induction s as [|c s IH]; cbn; [reflexivity | now rewrite IH]. Qed.

Lemma prefix_app (lit rest : string) : prefix lit (lit ++ rest) = true.
Proof.
  induction lit as [|c lit IH]; cbn.
  - now destruct rest.
  - destruct (ascii_dec c c) as [_|Hne]; [exact IH | contradiction].
Qed.

Lemma substring_app (lit rest : string) :
  substring (String.length lit) (String.length rest) (lit ++ rest) = rest.
Proof.
  induction lit as [|c lit IH]; cbn [append String.length substring].
  - apply substring_all.
  - exact IH.
Qed.

Lemma expect_app (lit rest : string) : expect lit (lit ++ rest) = Some rest.
Proof.
  unfold expect. rewrite prefix_app. f_equal. rewrite string_length_app.
  replace (String.length lit + String.length rest - String.length lit)%nat
    with (String.length rest) by lia.
  apply substring_app.
Qed.

(** The elements of a list, once each of them is read back. *)
Lemma parse_elements_dumps (l : list json) (rest : string) :
  Forall (fun v =>
            plain v = true ->
            forall fuel rest,
              (need v <= fuel)%nat -> closes rest = true ->
              parse_value fuel (json_dumps v ++ rest) = Some (v, rest)) l ->
  l <> [] -> forallb plain l = true ->
  forall fuel,
    (fold_right (fun x acc => S (Nat.max (need x) acc)) O l <= fuel)%nat ->
    parse_elements fuel (join ", " (map json_dumps l) ++ String "]" rest)
    = Some (l, rest).
Proof.
  induction 1 as [|x l Hx Hl IH]; intros Hne Hp fuel Hfuel;
    [contradiction|].
  cbn [forallb] in Hp. apply andb_prop in Hp. destruct Hp as [Hpx Hpl].
  cbn [fold_right] in Hfuel.
  destruct fuel as [|fuel]; [lia|].
  cbn [parse_elements].
  destruct l as [|y l].
  - cbn [map join].
    rewrite (Hx Hpx fuel (String "]" rest)) by (try reflexivity; lia).
    reflexivity.
  - change (join ", " (map json_dumps (x :: y :: l)))
      with (json_dumps x ++ ", " ++ join ", " (map json_dumps (y :: l))).
    rewrite !string_app_assoc. cbn [append].
    rewrite (Hx Hpx fuel) by (try reflexivity; lia).
    cbn [skip_ws is_ws]. cbv iota.
    rewrite skip_ws_head.
    + rewrite IH; [reflexivity | discriminate | exact Hpl | lia].
    + apply head_ok_app.
      change (join ", " (map json_dumps (y :: l)))
        with (match map json_dumps l with
              | [] => json_dumps y
              | _ :: _ => json_dumps y ++ ", " ++ join ", " (map json_dumps l)
              end).
      cbn [forallb] in Hpl. apply andb_prop in Hpl.
      destruct (map json_dumps l);
        [|apply head_ok_app]; now apply head_ok_dumps.
Qed.

Lemma parse_members_step (fuel : nat) (k r : string) :
  ascii_text k = true ->
  parse_members (S fuel)
    (String dquote (escape_text k ++ String dquote (String ":" (String " " r))))
  = match parse_value fuel (skip_ws r) with
    | None => None
    | Some (v, r2) =>
        match skip_ws r2 with
        | String ","%char r3 =>
            match parse_members fuel (skip_ws r3) with
            | Some (kvs, r4) => Some ((k, v) :: kvs, r4)
            | None => None
            end
        | String "}"%char r3 => Some ([(k, v)], r3)
        | _ => None
        end
    end.
Proof.
  intros Hk.
  change (parse_members (S fuel)
            (String dquote
               (escape_text k ++ String dquote (String ":" (String " " r)))))
    with (match parse_string
                  (escape_text k
                   ++ String dquote (String ":" (String " " r))) with
          | None => None
          | Some (k, r) =>
              match skip_ws r with
              | String ":"%char r1 =>
                  match parse_value fuel (skip_ws r1) with
                  | None => None
                  | Some (v, r2) =>
                      match skip_ws r2 with
                      | String ","%char r3 =>
                          match parse_members fuel (skip_ws r3) with
                          | Some (kvs, r4) => Some ((k, v) :: kvs, r4)
                          | None => None
                          end
                      | String "}"%char r3 => Some ([(k, v)], r3)
                      | _ => None
                      end
                  end
              | _ => None
              end
          end).
  rewrite (parse_string_escape k _ Hk). reflexivity.
Qed.

(** The members of a dictionary, once each value is read back. *)
Lemma parse_members_dumps (d : list (string * json)) (rest : string) :
  Forall (fun kv : string * json =>
            plain (snd kv) = true ->
            forall fuel rest,
              (need (snd kv) <= fuel)%nat -> closes rest = true ->
              parse_value fuel (json_dumps (snd kv) ++ rest)
              = Some (snd kv, rest)) d ->
  d <> [] ->
  forallb (fun kv : string * json =>
             let (k, x) := kv in ascii_text k && plain x) d = true ->
  forall fuel,
    (fold_right
       (fun (kv : string * json) acc =>
          let (_, x) := kv in S (Nat.max (need x) acc)) O d <= fuel)%nat ->
    parse_members fuel
      (join ", "
         (map (fun kv : string * json =>
                 let (k, x) := kv in quote k ++ ": " ++ json_dumps x) d)
       ++ String "}" rest)
    = Some (d, rest).
Proof.
  induction 1 as [|[k x] d Hx Hd IH]; intros Hne Hp fuel Hfuel;
    [contradiction|].
  cbn [forallb] in Hp. apply andb_prop in Hp. destruct Hp as [Hpx Hpd].
  apply andb_prop in Hpx. destruct Hpx as [Hk Hpx].
  cbn [fold_right] in Hfuel. cbn [snd] in Hx.
  destruct fuel as [|fuel]; [lia|].
  destruct d as [|[k' y] d].
  - cbn [map join]. unfold quote.
    cbn [append]. repeat (rewrite string_app_assoc; cbn [append]).
    rewrite (parse_members_step fuel k _ Hk).
    rewrite skip_ws_head by now apply head_ok_app, head_ok_dumps.
    rewrite (Hx Hpx fuel (String "}" rest)) by (try reflexivity; lia).
    reflexivity.
  - set (member := fun kv : string * json =>
                     let (k0, x0) := kv in quote k0 ++ ": " ++ json_dumps x0)
      in *.
    change (join ", " (map member ((k, x) :: (k', y) :: d)))
      with ((quote k ++ ": " ++ json_dumps x)
            ++ ", " ++ join ", " (map member ((k', y) :: d))).
    unfold quote at 1.
    cbn [append]. repeat (rewrite string_app_assoc; cbn [append]).
    rewrite (parse_members_step fuel k _ Hk).
    rewrite skip_ws_head by now apply head_ok_app, head_ok_dumps.
    rewrite (Hx Hpx fuel) by (try reflexivity; lia).
    cbn [skip_ws is_ws]. cbv iota.
    rewrite skip_ws_head.
    + rewrite IH; [reflexivity | discriminate | exact Hpd | lia].
    + apply head_ok_app.
      change (join ", " (map member ((k', y) :: d)))
        with (match map member d with
              | [] => member (k', y)
              | _ :: _ => member (k', y) ++ ", " ++ join ", " (map member d)
              end).
      destruct (map member d); reflexivity.
Qed.

Lemma distinct_NoDup (keys : list string) :
  distinct keys = true -> NoDup keys.
Proof.
  induction keys as [|k keys IH]; intros H; constructor.
  - cbn [distinct] in H. apply andb_prop in H. destruct H as [H _].
    apply negb_true_iff in H. intros Hin.
    assert (Hex : existsb (String.eqb k) keys = true)
      by (apply existsb_exists; exists k; split;
          [exact Hin | apply String.eqb_refl]).
    congruence.
  - cbn [distinct] in H. apply andb_prop in H. now apply IH.
Qed.

Lemma dict_set_fresh (k : string) (v : json) (d : list (string * json)) :
  ~ In k (map fst d) -> dict_set k v d = (d ++ [(k, v)])%list.
Proof.
  induction d as [|[k' v'] d IH]; intros Hk; [reflexivity|].
  cbn [dict_set]. destruct (String.eqb_spec k' k) as [->|Hne].
  - exfalso. apply Hk. now left.
  - cbn [app]. rewrite IH; [reflexivity|]. intros Hin. apply Hk. now right.
Qed.

Lemma fold_dict_set (pairs acc : list (string * json)) :
  NoDup (map fst (acc ++ pairs)) ->
  fold_left (fun d kv => dict_set (fst kv) (snd kv) d) pairs acc
  = (acc ++ pairs)%list.
Proof.
  revert acc. induction pairs as [|[k v] pairs IH]; intros acc Hnd.
  - now rewrite app_nil_r.
  - cbn [fold_left fst snd]. rewrite dict_set_fresh.
    + rewrite IH; rewrite <- app_assoc; [reflexivity | exact Hnd].
    + rewrite map_app in Hnd. cbn [map fst] in Hnd.
      apply NoDup_remove_2 in Hnd. intros Hin. apply Hnd.
      apply in_or_app. now left.
Qed.

Lemma dict_of_pairs_distinct (d : list (string * json)) :
  distinct (map fst d) = true -> dict_of_pairs d = d.
Proof.
  intros H. unfold dict_of_pairs.
  now rewrite fold_dict_set by (now apply distinct_NoDup).
Qed.

Lemma bracket_app (o : ascii) (j c rest : string) :
  (String o EmptyString ++ j ++ c) ++ rest = String o (j ++ c ++ rest).
Proof. cbn [append]. now rewrite string_app_assoc. Qed.

(** A plain value, as [json.dumps] writes it, is read back as itself
    when a separator or the end of the text follows. *)
Lemma parse_value_dumps (v : json) :
  plain v = true ->
  forall fuel rest,
    (need v <= fuel)%nat -> closes rest = true ->
    parse_value fuel (json_dumps v ++ rest) = Some (v, rest).
Proof.
  induction v as [|b|z|lexeme|s|l IHl|d IHd] using json_nested_ind;
    intros Hp fuel rest Hfuel Hc;
    (destruct fuel as [|fuel]; [cbn in Hfuel; lia|]).
  - change (parse_value (S fuel) (json_dumps JNull ++ rest))
      with (option_map (pair JNull) (expect "null" ("null" ++ rest))).
    now rewrite expect_app.
  - destruct b.
    + change (parse_value (S fuel) (json_dumps (JBool true) ++ rest))
        with (option_map (pair (JBool true)) (expect "true" ("true" ++ rest))).
      now rewrite expect_app.
    + change (parse_value (S fuel) (json_dumps (JBool false) ++ rest))
        with (option_map (pair (JBool false))
                (expect "false" ("false" ++ rest))).
      now rewrite expect_app.
  - now apply parse_value_int.
  - discriminate Hp.
  - cbn [json_dumps plain] in Hp |- *. unfold quote.
    cbn [append]. rewrite string_app_assoc. cbn [append].
    change (parse_value (S fuel)
              (String dquote (escape_text s ++ String dquote rest)))
      with (match parse_string (escape_text s ++ String dquote rest) with
            | Some (t, r) => Some (JStr t, r)
            | None => None
            end).
    now rewrite parse_string_escape.
  - cbn [plain] in Hp. cbn [need] in Hfuel. cbn [json_dumps].
    cbn [append]. rewrite string_app_assoc. cbn [append].
    destruct l as [|x l].
    + reflexivity.
    + rewrite parse_value_list_step.
      * rewrite (parse_elements_dumps (x :: l) rest IHl);
          [reflexivity | discriminate | exact Hp | lia].
      * apply head_ok_app.
        change (join ", " (map json_dumps (x :: l)))
          with (match map json_dumps l with
                | [] => json_dumps x
                | _ :: _ =>
                    json_dumps x ++ ", " ++ join ", " (map json_dumps l)
                end).
        cbn [forallb] in Hp. apply andb_prop in Hp.
        destruct (map json_dumps l);
          [|apply head_ok_app]; now apply head_ok_dumps.
  - cbn [plain] in Hp. apply andb_prop in Hp. destruct Hp as [Hp Hd].
    cbn [need] in Hfuel. cbn [json_dumps].
    rewrite bracket_app. change ("}" ++ rest) with (String "}" rest).
    destruct d as [|[k x] d].
    + reflexivity.
    + pose proof (parse_members_dumps ((k, x) :: d) rest IHd) as Hm.
      specialize (Hm ltac:(discriminate) Hp fuel ltac:(lia)).
      set (member := fun kv : string * json =>
                       let (k0, x0) := kv in
                       quote k0 ++ ": " ++ json_dumps x0) in *.
      assert (Hq : exists s0,
                 join ", " (map member ((k, x) :: d)) ++ String "}" rest
                 = String dquote s0).
      { change (join ", " (map member ((k, x) :: d)))
          with (match map member d with
                | [] => member (k, x)
                | _ :: _ => member (k, x) ++ ", " ++ join ", " (map member d)
                end).
        destruct (map member d); now eexists. }
      destruct Hq as [s0 Hq]. rewrite Hq in Hm |- *.
      rewrite parse_value_dict_step, Hm.
      now rewrite dict_of_pairs_distinct.
Qed.

(** The fuel that [json.loads] gives itself is enough for the text of
    a value. *)
Lemma need_bound (v : json) :
  (need v <= S (String.length (json_dumps v)))%nat.
Proof.
  induction v as [|b|z|lexeme|s|l IHl|d IHd] using json_nested_ind;
    try (cbn; lia).
  - cbn [need json_dumps]. cbn [append String.length].
    rewrite string_length_app. cbn [String.length].
    assert (H : (fold_right (fun x acc => S (Nat.max (need x) acc)) O l
                 <= 2 + String.length (join ", " (map json_dumps l)))%nat).
    { induction IHl as [|x l Hx Hl IH]; [cbn; lia|].
      cbn [fold_right].
      change (join ", " (map json_dumps (x :: l)))
        with (match map json_dumps l with
              | [] => json_dumps x
              | _ :: _ =>
                  json_dumps x ++ ", " ++ join ", " (map json_dumps l)
              end).
      destruct l as [|y l]; [cbn [map fold_right]; lia|].
      cbn [map] in IH |- *. rewrite !string_length_app.
      cbn [String.length]. lia. }
    lia.
  - cbn [need json_dumps].
    set (member := fun kv : string * json =>
                     let (k0, x0) := kv in
                     quote k0 ++ ": " ++ json_dumps x0).
    rewrite !string_length_app. cbn [String.length].
    assert (H : (fold_right
                   (fun (kv : string * json) acc =>
                      let (_, x) := kv in S (Nat.max (need x) acc)) O d
                 <= 2 + String.length (join ", " (map member d)))%nat).
    { induction IHd as [|[k x] d Hx Hd IH]; [cbn; lia|].
      cbn [fold_right]. cbn [snd] in Hx.
      assert (Hm : (need x <= S (String.length (member (k, x))))%nat).
      { unfold member. rewrite !string_length_app. lia. }
      change (join ", " (map member ((k, x) :: d)))
        with (match map member d with
              | [] => member (k, x)
              | _ :: _ => member (k, x) ++ ", " ++ join ", " (map member d)
              end).
      destruct d as [|y d]; [cbn [map fold_right]; lia|].
      cbn [map] in IH |- *. rewrite !string_length_app.
      cbn [String.length]. lia. }
    lia.
Qed.

(** X18: the deep copy [json.loads(json.dumps(v))] of line 125 gives
    back the value it is made from, for every value built from null,
    booleans, integers, ASCII strings, lists and dictionaries with
    ASCII keys that are pairwise distinct.  So the graph a request
    works on starts as the template. *)
Theorem json_copy_is_identity (v : json) :
  plain v = true -> json_loads (JStr (json_dumps v)) = Ok v.
Proof.
  intros Hp. cbn [json_loads]. unfold json_loads_text.
  rewrite skip_ws_head by now apply head_ok_dumps.
  pose proof (parse_value_dumps v Hp
                (2 * String.length (json_dumps v) + 4) EmptyString) as H.
  rewrite string_app_nil_r in H. rewrite H; [reflexivity| |reflexivity].
  pose proof (need_bound v). lia.
Qed.

Lemma json_copy_is_identity_witness :
  json_loads (JStr (json_dumps sample_template)) = Ok sample_template.
Proof. apply json_copy_is_identity. reflexivity. Defined.

(** ** Requests are isolated *)

Lemma nth_error_replace_nth_other {A} (h k : nat) (x : A) (l : list A) :
  h <> k -> nth_error (replace_nth h x l) k = nth_error l k.
Proof.
  revert h k. induction l as [|y l IH]; intros [|h] [|k] Hne; cbn;
    try reflexivity; try contradiction.
  apply IH. congruence.
Qed.

Lemma nth_error_replace_nth_same {A} (h : nat) (x : A) (l : list A) :
  nth_error (replace_nth h x l) h
  = match nth_error l h with Some _ => Some x | None => None end.
Proof.
  revert h. induction l as [|y l IH]; intros [|h]; cbn; try reflexivity.
  apply IH.
Qed.

Lemma nth_of_nth_error {A} (n : nat) (l : list A) (d : A) :
  nth n l d = match nth_error l n with Some x => x | None => d end.
Proof.
  revert n. induction l as [|y l IH]; intros [|n]; cbn; try reflexivity.
  apply IH.
Qed.

Lemma nth_error_snoc {A} (l : list A) (x : A) :
  nth_error (l ++ [x]) (length l) = Some x.
Proof. rewrite nth_error_app2, Nat.sub_diag; [reflexivity | apply Nat.le_refl]. Qed.

Section Isolation.

(** The handle of the template. *)
Variable t : nat.

Lemma agree_extend (hp sp : option (nat * nat)) (w w' : world)
    (evs evs' : list event) :
  agree t hp sp w w' -> agree t hp sp (extend w evs) (extend w' evs').
Proof. intros H. exact H. Qed.

Lemma agree_weaken (hp sp : option (nat * nat)) (w w' : world) :
  agree t hp sp w w' -> agree t None None w w'.
Proof. intros (H1 & H2 & H3 & _ & _). repeat split; assumption. Qed.

Lemma agree_drop_socket (hp sp : option (nat * nat)) (w w' : world) :
  agree t hp sp w w' -> agree t hp None w w'.
Proof. intros (H1 & H2 & H3 & H4 & _). repeat split; assumption. Qed.

Lemma rel_conseq {A} (R R' X X' : world -> world -> Prop)
    (Q Q' : A -> A -> world -> world -> Prop) (m m' : M A) :
  rel R Q X m m' ->
  (forall w w', R' w w' -> R w w') ->
  (forall a a' w w', Q a a' w w' -> Q' a a' w w') ->
  (forall w w', X w w' -> X' w w') ->
  rel R' Q' X' m m'.
Proof.
  intros H HR HQ HX w w' Hw. destruct (H w w' (HR _ _ Hw)) as [Hev Hres].
  split; [exact Hev|].
  destruct (fst (m w)), (fst (m' w')); try contradiction.
  - now apply HQ.
  - destruct Hres. split; [assumption | now apply HX].
Qed.

Lemma rel_ret {A} (R X : world -> world -> Prop)
    (Q : A -> A -> world -> world -> Prop) (a a' : A) :
  (forall w w', R w w' -> Q a a' w w') -> rel R Q X (ret a) (ret a').
Proof.
  intros H w w' Hw. split; [exists []; cbn; now rewrite !app_nil_r|].
  cbn. now apply H.
Qed.

Lemma rel_raise {A} (R X : world -> world -> Prop)
    (Q : A -> A -> world -> world -> Prop) (e : exn) :
  (forall w w', R w w' -> X w w') -> rel R Q X (raise e) (raise e).
Proof.
  intros H w w' Hw. split; [exists []; cbn; now rewrite !app_nil_r|].
  cbn. split; [reflexivity | now apply H].
Qed.

Lemma rel_false {A} (Q : A -> A -> world -> world -> Prop)
    (X : world -> world -> Prop) (m m' : M A) :
  rel (fun _ _ => False) Q X m m'.
Proof. intros w w' []. Qed.

Lemma rel_pure {A} (P : Prop) (R X : world -> world -> Prop)
    (Q : A -> A -> world -> world -> Prop) (m m' : M A) :
  (P -> rel R Q X m m') -> rel (fun w w' => P /\ R w w') Q X m m'.
Proof. intros H w w' [HP Hw]. now apply H. Qed.

Lemma rel_bind {A B} (R X : world -> world -> Prop)
    (Q : A -> A -> world -> world -> Prop)
    (S : B -> B -> world -> world -> Prop)
    (m m' : M A) (f f' : A -> M B) :
  rel R Q X m m' ->
  (forall a a', rel (Q a a') S X (f a) (f' a')) ->
  rel R S X (bind m f) (bind m' f').
Proof.
  intros Hm Hf w w' Hw. destruct (Hm w w' Hw) as [(evs & E1 & E2) Hres].
  unfold bind.
  destruct (m w) as [[a|e] w1], (m' w') as [[a'|e'] w1'];
    cbn [fst snd] in *; try contradiction.
  - destruct (Hf a a' w1 w1' Hres) as [(evs2 & F1 & F2) Hres2].
    split; [|exact Hres2].
    exists (evs ++ evs2)%list. rewrite F1, F2, E1, E2, !app_assoc. now split.
  - split; [now exists evs | exact Hres].
Qed.

Lemma rel_try_except {A} (R X0 X : world -> world -> Prop)
    (Q : A -> A -> world -> world -> Prop)
    (m m' : M A) (handler handler' : exn -> M A) :
  rel R Q X0 m m' ->
  (forall e, rel X0 Q X (handler e) (handler' e)) ->
  rel R Q X (try_except m handler) (try_except m' handler').
Proof.
  intros Hm Hh w w' Hw. destruct (Hm w w' Hw) as [(evs & E1 & E2) Hres].
  unfold try_except.
  destruct (m w) as [[a|e] w1], (m' w') as [[a'|e'] w1'];
    cbn [fst snd] in *; try contradiction.
  - split; [now exists evs | exact Hres].
  - destruct Hres as [<- Hx].
    destruct (Hh e w1 w1' Hx) as [(evs2 & F1 & F2) Hres2].
    split; [|exact Hres2].
    exists (evs ++ evs2)%list. rewrite F1, F2, E1, E2, !app_assoc. now split.
Qed.

(** *** Computations that keep an agreement *)

Lemma keeps_ret {A} (I : world -> world -> Prop) (a : A) :
  keeps I (ret a) (ret a).
Proof. apply rel_ret. now split. Qed.

Lemma keeps_raise {A} (I : world -> world -> Prop) (e : exn) :
  keeps I (@raise A e) (raise e).
Proof. now apply rel_raise. Qed.

Lemma keeps_lift {A} (I : world -> world -> Prop) (r : result A) :
  keeps I (lift r) (lift r).
Proof.
  intros w w' Hw. split; [exists []; cbn; now rewrite !app_nil_r|].
  cbn. destruct r; now split.
Qed.

Lemma keeps_bind {A B} (I : world -> world -> Prop)
    (m m' : M A) (f f' : A -> M B) :
  keeps I m m' -> (forall a, keeps I (f a) (f' a)) ->
  keeps I (bind m f) (bind m' f').
Proof.
  intros Hm Hf. eapply rel_bind; [exact Hm|].
  intros a a'. apply rel_pure. intros <-. apply Hf.
Qed.

Lemma keeps_try_except {A} (I : world -> world -> Prop)
    (m m' : M A) (handler handler' : exn -> M A) :
  keeps I m m' -> (forall e, keeps I (handler e) (handler' e)) ->
  keeps I (try_except m handler) (try_except m' handler').
Proof. intros Hm Hh. eapply rel_try_except; [exact Hm | exact Hh]. Qed.

Lemma keeps_try_finally {A} (I : world -> world -> Prop)
    (m m' : M A) (cleanup cleanup' : M unit) :
  keeps I m m' -> keeps I cleanup cleanup' ->
  keeps I (try_finally m cleanup) (try_finally m' cleanup').
Proof.
  intros Hm Hc w w' Hw. destruct (Hm w w' Hw) as [(evs & E1 & E2) Hres].
  unfold try_finally.
  destruct (m w) as [r w1], (m' w') as [r' w1']; cbn [fst snd] in *.
  assert (H1 : I w1 w1').
  { destruct r, r'; try contradiction; apply Hres. }
  destruct (Hc w1 w1' H1) as [(evs2 & F1 & F2) Hres2].
  assert (H2 : I (snd (cleanup w1)) (snd (cleanup' w1'))).
  { destruct (fst (cleanup w1)), (fst (cleanup' w1')); try contradiction;
      apply Hres2. }
  split.
  - exists (evs ++ evs2)%list. rewrite F1, F2, E1, E2, !app_assoc. now split.
  - destruct r, r'; try contradiction; (split; [apply Hres | exact H2]).
Qed.

Lemma keeps_when (I : world -> world -> Prop) (b : bool) (m m' : M unit) :
  keeps I m m' -> keeps I (when b m) (when b m').
Proof. intros Hm. destruct b; [exact Hm | apply keeps_ret]. Qed.

Lemma keeps_emit (hp sp : option (nat * nat)) (ev : event) :
  keeps (agree t hp sp) (emit ev) (emit ev).
Proof.
  intros w w' Hw. split; [now exists [ev]|].
  cbn. split; [reflexivity | exact Hw].
Qed.

Lemma keeps_print (hp sp : option (nat * nat)) (line : log_line) :
  keeps (agree t hp sp) (print line) (print line).
Proof. apply keeps_emit. Qed.

Lemma keeps_load_template (hp sp : option (nat * nat)) :
  keeps (agree t hp sp) (load t) (load t).
Proof.
  intros w w' Hw. pose proof Hw as (H1 & _).
  unfold load. rewrite <- H1.
  destruct (nth_error (store w) t); cbn;
    (split; [exists []; now rewrite !app_nil_r | now split]).
Qed.

Lemma keeps_load (h h' : nat) (sp : option (nat * nat)) :
  keeps (agree t (Some (h, h')) sp) (load h) (load h').
Proof.
  intros w w' Hw. pose proof Hw as (_ & _ & _ & (H1 & _) & _).
  unfold load. rewrite <- H1.
  destruct (nth_error (store w) h); cbn;
    (split; [exists []; now rewrite !app_nil_r | now split]).
Qed.

Lemma keeps_put (h h' : nat) (sp : option (nat * nat)) (v : json) :
  keeps (agree t (Some (h, h')) sp) (put h v) (put h' v).
Proof.
  intros w w' (H1 & H2 & H3 & (H4 & H5 & H6) & H7).
  split; [exists []; cbn; now rewrite !app_nil_r|].
  cbn. split; [reflexivity|]. unfold agree. cbn.
  rewrite !nth_error_replace_nth_other by assumption.
  rewrite !length_replace_nth, !nth_error_replace_nth_same, H4.
  repeat split; assumption.
Qed.

Lemma keeps_connected (hp : option (nat * nat)) (s s' : nat) :
  keeps (agree t hp (Some (s, s'))) (connected s) (connected s').
Proof.
  intros w w' Hw. pose proof Hw as (_ & _ & _ & _ & H).
  split; [exists []; cbn; now rewrite !app_nil_r|].
  cbn. split; [|exact Hw]. now rewrite !nth_of_nth_error, H.
Qed.

Lemma keeps_set_connected (hp : option (nat * nat)) (s s' : nat) (c : bool) :
  keeps (agree t hp (Some (s, s'))) (set_connected s c) (set_connected s' c).
Proof.
  intros w w' (H1 & H2 & H3 & H4 & H5).
  split; [exists []; cbn; now rewrite !app_nil_r|].
  cbn. split; [reflexivity|]. unfold agree. cbn.
  rewrite !nth_error_replace_nth_same, H5. repeat split; assumption.
Qed.

Lemma rel_bind_alloc {B} (sp : option (nat * nat))
    (S : B -> B -> world -> world -> Prop) (X : world -> world -> Prop)
    (v : json) (f f' : nat -> M B) :
  (forall h h',
      h <> t -> h' <> t ->
      rel (agree t (Some (h, h')) sp) S X (f h) (f' h')) ->
  rel (agree t None sp) S X (bind (alloc v) f) (bind (alloc v) f').
Proof.
  intros Hf w w' (H1 & H2 & H3 & _ & H5).
  assert (Hw : agree t (Some (length (store w), length (store w'))) sp
                 {| store := store w ++ [v]; sockets := sockets w;
                    trace := trace w |}
                 {| store := store w' ++ [v]; sockets := sockets w';
                    trace := trace w' |}).
  { unfold agree. cbn. rewrite !length_app. cbn.
    rewrite !nth_error_app1 by assumption.
    rewrite !nth_error_alloc.
    repeat split; try assumption; lia. }
  exact (Hf (length (store w)) (length (store w'))
           ltac:(lia) ltac:(lia) _ _ Hw).
Qed.

Lemma keeps_bind_new_socket {B} (hp : option (nat * nat))
    (f f' : nat -> M B) :
  (forall s s', keeps (agree t hp (Some (s, s'))) (f s) (f' s')) ->
  keeps (agree t hp None) (bind new_socket f) (bind new_socket f').
Proof.
  intros Hf w w' (H1 & H2 & H3 & H4 & _). unfold bind, new_socket.
  assert (Hw : agree t hp (Some (length (sockets w), length (sockets w')))
                 {| store := store w; sockets := sockets w ++ [false];
                    trace := trace w |}
                 {| store := store w'; sockets := sockets w' ++ [false];
                    trace := trace w' |}).
  { unfold agree. cbn. rewrite !nth_error_snoc.
    repeat split; assumption. }
  assert (Hc : keeps (agree t hp (Some (length (sockets w),
                                         length (sockets w'))))
                 (f (length (sockets w))) (f' (length (sockets w'))))
    by apply Hf.
  destruct (Hc _ _ Hw) as [Hev Hres]. split; [exact Hev|].
  destruct (fst (f _ _)), (fst (f' _ _)); try contradiction.
  - destruct Hres as [-> H]. split; [reflexivity|].
    now apply agree_drop_socket in H.
  - destruct Hres as [-> H]. split; [reflexivity|].
    now apply agree_drop_socket in H.
Qed.

Ltac keeps_step :=
  first
    [ apply keeps_ret | apply keeps_raise | apply keeps_lift
    | apply keeps_emit | apply keeps_print
    | apply keeps_load | apply keeps_load_template | apply keeps_put
    | apply keeps_connected | apply keeps_set_connected
    | apply keeps_when
    | apply keeps_bind_new_socket; intros ? ?
    | apply keeps_bind; [|intros ?]
    | apply keeps_try_except; [|intros ?]
    | apply keeps_try_finally
    | match goal with
      | |- keeps _ (if ?b then _ else _) (if ?b then _ else _) => destruct b
      | |- keeps _ (match ?x with _ => _ end) (match ?x with _ => _ end) =>
          destruct x
      end ].

Lemma keeps_find_node_id_at (h h' : nat) (sp : option (nat * nat))
    (title kind : option string) :
  keeps (agree t (Some (h, h')) sp)
    (find_node_id_at h title kind) (find_node_id_at h' title kind).
Proof. unfold find_node_id_at. repeat keeps_step. Qed.

Lemma keeps_set_input (h h' : nat) (sp : option (nat * nat))
    (node_id field : string) (x : json) :
  keeps (agree t (Some (h, h')) sp)
    (set_input h node_id field x) (set_input h' node_id field x).
Proof. unfold set_input. repeat keeps_step. Qed.

Lemma keeps_upload_image (hp sp : option (nat * nat)) (p : process) (e : env)
    (image : image_data) :
  keeps (agree t hp sp) (upload_image p e image) (upload_image p e image).
Proof. unfold upload_image. repeat keeps_step. Qed.

Lemma keeps_queue_prompt (h h' : nat) (sp : option (nat * nat))
    (p : process) (e : env) :
  keeps (agree t (Some (h, h')) sp) (queue_prompt p e h) (queue_prompt p e h').
Proof. unfold queue_prompt. repeat keeps_step. Qed.

Lemma keeps_get_history (hp sp : option (nat * nat)) (p : process) (e : env)
    (prompt_id : json) :
  keeps (agree t hp sp) (get_history p e prompt_id) (get_history p e prompt_id).
Proof. unfold get_history. repeat keeps_step. Qed.

Lemma keeps_listen (hp : option (nat * nat)) (s s' : nat) (p : process)
    (target : string) (arrivals : list arrival) :
  keeps (agree t hp (Some (s, s')))
    (listen p s target arrivals) (listen p s' target arrivals).
Proof.
  induction arrivals as [|a rest IH]; cbn [listen].
  - repeat keeps_step.
  - destruct (ws_timeout <=? gap_of a); [repeat keeps_step|].
    apply keeps_bind; [apply keeps_emit | intros _].
    destruct a as [gap [|] data | gap ex still];
      repeat first [exact IH | keeps_step].
Qed.

Lemma keeps_watch_push (hp : option (nat * nat)) (p : process) (e : env)
    (target : string) :
  keeps (agree t hp None) (watch_push p e target) (watch_push p e target).
Proof.
  unfold watch_push.
  repeat first [apply keeps_listen | keeps_step].
Qed.

Lemma keeps_poll_history (hp sp : option (nat * nat)) (p : process) (e : env)
    (prompt_id : json) (target : string) :
  keeps (agree t hp sp)
    (poll_history p e prompt_id target) (poll_history p e prompt_id target).
Proof.
  unfold poll_history.
  repeat first [apply keeps_get_history | keeps_step].
Qed.

Lemma keeps_get_final_video_path (hp : option (nat * nat)) (p : process)
    (e : env) (prompt_id : json) (target : string) :
  keeps (agree t hp None)
    (get_final_video_path p e prompt_id target)
    (get_final_video_path p e prompt_id target).
Proof.
  unfold get_final_video_path.
  repeat first [apply keeps_watch_push | apply keeps_poll_history | keeps_step].
Qed.

Lemma keeps_submit_and_wait (h h' : nat) (p : process) (e : env)
    (target : string) :
  keeps (agree t (Some (h, h')) None)
    (submit_and_wait p e h target) (submit_and_wait p e h' target).
Proof.
  unfold submit_and_wait.
  repeat first
    [ apply keeps_queue_prompt | apply keeps_get_final_video_path
    | keeps_step ].
Qed.


Lemma rel_bind_keeps {A B} (I X : world -> world -> Prop)
    (S : B -> B -> world -> world -> Prop)
    (m m' : M A) (f f' : A -> M B) :
  keeps I m m' ->
  (forall w w', I w w' -> X w w') ->
  (forall a, rel I S X (f a) (f' a)) ->
  rel I S X (bind m f) (bind m' f').
Proof.
  intros Hm HX Hf.
  apply rel_bind with (Q := fun a a' w w' => a = a' /\ I w w').
  - apply (rel_conseq I I I X _ _ m m' Hm); auto.
  - intros a a'. apply rel_pure. intros <-. apply Hf.
Qed.

(** Two injections from worlds that agree on the template end alike. *)
Lemma rel_inject_parameters (p : process) (e : env) (image : image_data)
    (prompt negative_prompt : string) :
  workflow_api_json p = t ->
  rel (agree t None None) (injected_alike t) (agree t None None)
    (inject_parameters p e image prompt negative_prompt)
    (inject_parameters p e image prompt negative_prompt).
Proof.
  intros Ht. unfold inject_parameters. rewrite Ht.
  apply rel_bind_keeps; [apply keeps_load_template | auto | intros template].
  apply rel_bind_keeps; [apply keeps_lift | auto | intros copy].
  apply rel_bind_alloc. intros h h' Hh Hh'.
  do 5 (apply rel_bind_keeps;
        [apply keeps_find_node_id_at | apply agree_weaken | intros ?]).
  match goal with
  | |- rel _ _ _ (if ?b then _ else _) _ => destruct b
  end.
  - apply rel_ret. intros w w' H. split; [reflexivity|].
    now apply agree_weaken in H.
  - repeat match goal with
           | |- rel _ _ _ (match ?x with Some _ => _ | None => _ end) _ =>
               destruct x; [|apply rel_raise; apply agree_weaken]
           end.
    apply rel_bind_keeps;
      [apply keeps_upload_image | apply agree_weaken | intros image_filename].
    do 3 (apply rel_bind_keeps;
          [apply keeps_set_input | apply agree_weaken | intros _]).
    apply rel_bind_keeps; [|apply agree_weaken|intros _].
    + repeat first [apply keeps_set_input | keeps_step].
    + apply rel_ret. intros w w' H. now split.
Qed.

(** Two runs of the handler from worlds that agree on the template:
    the same events, the same response. *)
Lemma rel_generate_video (p : process) (e : env) (image : image_data)
    (prompt negative_prompt : string) :
  workflow_api_json p = t ->
  rel (agree t None None) (fun resp resp' _ _ => resp = resp')
    (fun _ _ => True)
    (generate_video p e image prompt negative_prompt)
    (generate_video p e image prompt negative_prompt).
Proof.
  intros Ht. unfold generate_video.
  apply rel_try_except with (X0 := agree t None None).
  - eapply rel_bind; [now apply rel_inject_parameters|].
    intros [resp|h output_id] [resp'|h' output_id'];
      cbn [injected_alike]; try apply rel_false.
    + apply rel_pure. intros <-. now apply rel_ret.
    + apply rel_pure. intros <-.
      apply (rel_conseq _ _ _ _ _ _ _ _
               (keeps_submit_and_wait h h' p e output_id)).
      * auto.
      * now intros a a' w w' [-> _].
      * apply agree_weaken.
  - intros ex.
    apply (rel_conseq (agree t None None) _ (agree t None None) _
             (fun a a' w w' => a = a' /\ agree t None None w w') _).
    + apply keeps_bind; [apply keeps_print | intros _; apply keeps_ret].
    + auto.
    + now intros a a' w w' [-> _].
    + auto.
Qed.

End Isolation.

Lemma generate_video_returns (p : process) (e : env) (image : image_data)
    (prompt negative_prompt : string) (w : world) :
  exists resp,
    fst (generate_video p e image prompt negative_prompt w) = Ok resp.
Proof.
  unfold generate_video. rewrite fst_try_except.
  destruct (fst _) as [resp|ex]; eexists; reflexivity.
Qed.

Lemma agree_same_template (t : nat) (template : json) (w w' : world) :
  nth_error (store w) t = Some template ->
  nth_error (store w') t = Some template ->
  agree t None None w w'.
Proof.
  intros H H'. unfold agree. rewrite H, H'. repeat split.
  - apply nth_error_Some. congruence.
  - apply nth_error_Some. congruence.
Qed.

Lemma generate_video_alike (p : process) (e : env) (image : image_data)
    (prompt negative_prompt : string) (w w' : world) (template : json) :
  let run := generate_video p e image prompt negative_prompt in
  nth_error (store w) (workflow_api_json p) = Some template ->
  nth_error (store w') (workflow_api_json p) = Some template ->
  fst (run w) = fst (run w')
  /\ exists evs,
       trace (snd (run w)) = (trace w ++ evs)%list
       /\ trace (snd (run w')) = (trace w' ++ evs)%list.
Proof.
  intros run H H'.
  destruct (rel_generate_video (workflow_api_json p) p e image prompt
              negative_prompt eq_refl w w'
              (agree_same_template _ template w w' H H')) as [Hev Hres].
  fold run in Hev, Hres. split; [|exact Hev].
  destruct (fst (run w)), (fst (run w')); try contradiction.
  - now subst.
  - destruct Hres as [-> _]. reflexivity.
Qed.

(** X19: a request is isolated from what the process did before.
    From any two states of the process that hold the same workflow
    template, the handler gives the same response and makes the same
    calls and prints, in the same order, whatever else the two states
    hold: other graphs, sockets, their logs. *)
Theorem request_isolated (p : process) (e : env) (image : image_data)
    (prompt negative_prompt : string) (w w' : world) (template : json) :
  let run := generate_video p e image prompt negative_prompt in
  nth_error (store w) (workflow_api_json p) = Some template ->
  nth_error (store w') (workflow_api_json p) = Some template ->
  fst (run w) = fst (run w')
  /\ exists evs,
       trace (snd (run w)) = (trace w ++ evs)%list
       /\ trace (snd (run w')) = (trace w' ++ evs)%list.
Proof. exact (generate_video_alike p e image prompt negative_prompt w w' template). Qed.

Lemma request_isolated_witness :
  let e := sample_env [Frame 5 true (executed_message "5" scenario_b_payload)]
             history_without_entry in
  let run := generate_video sample_process e sample_image "a cat"
               EmptyString in
  let w := sample_world sample_template in
  let w' := {| store := [JStr "other"; sample_template; JList [JInt 3]];
               sockets := [true; false];
               trace := [ESleep 5; EWsClose] |} in
  fst (run w) = fst (run w')
  /\ exists evs,
       trace (snd (run w)) = (trace w ++ evs)%list
       /\ trace (snd (run w')) = (trace w' ++ evs)%list.
Proof.
  cbn zeta.
  apply (request_isolated sample_process _ sample_image "a cat" EmptyString
           (sample_world sample_template) _ sample_template); reflexivity.
Defined.

(** X20: the same request served twice in a row, with the engine
    behaving the same and the same seed drawn, is answered the same
    twice and makes the same calls twice: the first run leaves nothing
    that the second one reads. *)
Theorem repeated_request_same_answer (p : process) (r : request)
    (w : world) (template : json) :
  let run := serve p [r; r] w in
  nth_error (store w) (workflow_api_json p) = Some template ->
  exists resp evs,
    fst run = Ok [resp; resp]
    /\ trace (snd run) = (trace w ++ evs ++ evs)%list.
Proof.
  intros run Ht. unfold run. cbn [serve].
  set (gv := generate_video p (req_env r) (req_image r) (req_prompt r)
               (req_negative_prompt r)).
  destruct (generate_video_returns p (req_env r) (req_image r)
              (req_prompt r) (req_negative_prompt r) w) as [resp Hresp].
  fold gv in Hresp.
  pose proof (generate_video_frame p (req_env r) (req_image r)
                (req_prompt r) (req_negative_prompt r) w)
    as (_ & Hstore & _ & _).
  fold gv in Hstore.
  destruct (gv w) as [r1 w1] eqn:E1. cbn [fst snd] in *. subst r1.
  assert (Ht1 : nth_error (store w1) (workflow_api_json p) = Some template).
  { rewrite firstn_all in Hstore.
    destruct (firstn_all_prefix _ _ Hstore) as [more ->].
    rewrite nth_error_app1; [exact Ht|]. apply nth_error_Some. congruence. }
  destruct (generate_video_alike p (req_env r) (req_image r) (req_prompt r)
              (req_negative_prompt r) w w1 template Ht Ht1)
    as (Hsame & evs & Ev & Ev1).
  fold gv in Hsame, Ev, Ev1. rewrite E1 in Hsame, Ev. cbn [fst snd] in *.
  exists resp, evs.
  rewrite (bind_ok _ _ w w1 resp E1).
  destruct (gv w1) as [r2 w2] eqn:E2. cbn [fst snd] in *. subst r2.
  rewrite (bind_ok _ _ w1 w2 [resp]).
  - cbn. split; [reflexivity|]. now rewrite Ev1, Ev, app_assoc.
  - rewrite (bind_ok _ _ w1 w2 resp E2). reflexivity.
Qed.

Lemma repeated_request_same_answer_witness :
  let r := {| req_env :=
                sample_env
                  [Frame 5 true (executed_message "5" scenario_b_payload)]
                  history_without_entry;
              req_image := sample_image;
              req_prompt := "a cat";
              req_negative_prompt := EmptyString |} in
  let run := serve sample_process [r; r] (sample_world sample_template) in
  exists resp evs,
    fst run = Ok [resp; resp]
    /\ trace (snd run)
       = (trace (sample_world sample_template) ++ evs ++ evs)%list.
Proof.
  cbn zeta.
  apply (repeated_request_same_answer sample_process _
           (sample_world sample_template) sample_template).
  reflexivity.
Defined.

(** ** The handler: the push path, and a history that is no mapping *)

Lemma pair_of_fst {A B} (x : A * B) (a : A) : fst x = a -> x = (a, snd x).
Proof. destruct x. cbn. now intros ->. Qed.

(** X21: when the engine took the job and the push channel, after
    messages that are passed over, delivers the [executed] message of
    the output node with an output from which the extractor reads a
    non-empty path, the handler answers 200 with that path if the path
    can be encoded as UTF-8, and leaves the world as the push phase
    left it.  If the path cannot be encoded (it holds a lone
    surrogate), building the response raises [UnicodeEncodeError]
    inside the [try]: the handler prints the traceback and answers 500
    with the text of that exception.  Either way the request ends with
    the push phase: nothing sleeps and no history is asked for. *)
Theorem push_success_answers (p : process) (e : env)
    (image : image_data) (prompt negative_prompt : string) (w : world)
    (h : nat) (output_id path : string) (q : list (string * json))
    (pid output : json) (before after : list arrival) (a : arrival) :
  let injected := inject_parameters p e image prompt negative_prompt w in
  let queued := queue_prompt p e h (snd injected) in
  let push := watch_push p e output_id (snd queued) in
  let run := generate_video p e image prompt negative_prompt w in
  fst injected = Ok (Injected h output_id) ->
  fst queued = Ok (JDict q) ->
  dict_get "prompt_id" q = Some pid ->
  ws_connect e = Ok tt ->
  ws_arrivals e = (before ++ a :: after)%list ->
  forallb (passed_over output_id) before = true ->
  executed_output output_id a = Some output ->
  parse_video_path_from_output output = Ok (Some path) ->
  path <> EmptyString ->
  (encodable path = true ->
   fst run
   = Ok (JSONResponse 200 (JDict [("generated_video_path", JStr path)]))
   /\ snd run = snd push)
  /\ (encodable path = false ->
      exists ex,
        utf8_encode (success_body path) = Raise ex
        /\ exn_cls ex = UnicodeEncodeError
        /\ fst run = Ok (JSONResponse 500 (error_content (exn_msg ex)))
        /\ snd run = extend (snd push) [EPrint (LogTraceback ex)])
  /\ exists evs,
       trace (snd run) = (trace w ++ evs)%list
       /\ Forall (fun ev => is_poll ev = false) evs.
Proof.
  intros injected queued push run Hi Hq Hp Hc Ha Hb Hx Hr Hne.
  assert (Hpush : fst push = Ok (Some (Some path)))
    by exact (fst_watch_push_executed p e output_id _ before after a output
                (Some path) Hc Ha Hb Hx Hr).
  apply pair_of_fst in Hi, Hq, Hpush.
  assert (Hrun : run
                 = match respond (Some path) with
                   | Ok resp => (Ok resp, snd push)
                   | Raise ex =>
                       (Ok (JSONResponse 500 (error_content (exn_msg ex))),
                        extend (snd push) [EPrint (LogTraceback ex)])
                   end).
  { unfold run, generate_video, try_except.
    fold injected. rewrite (bind_ok _ _ _ _ _ Hi).
    unfold submit_and_wait. fold queued.
    rewrite (bind_ok _ _ _ _ _ Hq).
    rewrite (dict_get_nonempty _ _ _ Hp).
    unfold lift at 1, py_contains, has_key. rewrite Hp.
    unfold bind at 1. cbn [negb].
    unfold lift at 1, py_getitem. rewrite Hp. unfold bind at 1.
    unfold get_final_video_path. rewrite bind_assoc.
    fold push. rewrite (bind_ok _ _ _ _ _ Hpush).
    unfold ret at 1, bind at 1. unfold lift.
    destruct (respond (Some path)); reflexivity. }
  set (P := fun ev => is_poll ev = false).
  destruct (safe_events P
              (inject_parameters p e image prompt negative_prompt) w)
    as (evs1 & E1 & F1); [apply safe_inject_parameters; reflexivity|].
  destruct (safe_events P (queue_prompt p e h) (snd injected))
    as (evs2 & E2 & F2); [apply safe_queue_prompt; reflexivity|].
  destruct (safe_events P (watch_push p e output_id) (snd queued))
    as (evs3 & E3 & F3); [apply safe_watch_push; reflexivity|].
  fold injected in E1. fold queued in E2. fold push in E3.
  destruct (respond_encodable path Hne) as [Hyes Hno].
  rewrite Hrun. split; [|split].
  - intros Henc. rewrite (Hyes Henc). now split.
  - intros Henc. destruct (Hno Henc) as (ex & Hu & Hcls & Hr').
    exists ex. rewrite Hr'. now repeat split.
  - destruct (respond (Some path)) as [resp|ex]; cbn [snd].
    + exists (evs1 ++ evs2 ++ evs3)%list. split.
      * rewrite E3, E2, E1. now rewrite !app_assoc.
      * repeat (apply Forall_app; split); assumption.
    + exists (evs1 ++ evs2 ++ evs3 ++ [EPrint (LogTraceback ex)])%list. split.
      * unfold extend. cbn [trace]. rewrite E3, E2, E1.
        now rewrite !app_assoc.
      * repeat (apply Forall_app; split); try assumption.
        constructor; [reflexivity | constructor].
Qed.

Lemma push_success_answers_witness :
  let e := sample_env [Frame 2 true progress_message;
                       Frame 5 true (executed_message "5" scenario_b_payload)]
             history_without_entry in
  let w := sample_world sample_template in
  let injected := inject_parameters sample_process e sample_image "a cat"
                    EmptyString w in
  let queued := queue_prompt sample_process e 2 (snd injected) in
  let push := watch_push sample_process e "5" (snd queued) in
  let run := generate_video sample_process e sample_image "a cat"
               EmptyString w in
  fst run
  = Ok (JSONResponse 200
          (JDict [("generated_video_path", JStr "/out/video.mp4")]))
  /\ snd run = snd push.
Proof.
  cbn zeta.
  refine (proj1 (push_success_answers sample_process _ sample_image "a cat"
           EmptyString (sample_world sample_template) 2%nat "5"
           "/out/video.mp4" [("prompt_id", JStr "job-1")] (JStr "job-1")
           scenario_b_payload
           [Frame 2 true progress_message] []
           (Frame 5 true (executed_message "5" scenario_b_payload))
           _ _ _ _ _ _ _ _ _) _);
    try (vm_compute; reflexivity); discriminate.
Defined.

(** X22: a history reply that is JSON but no mapping (a list, a
    string, a number, null) makes the fallback raise [AttributeError]
    at [.get(prompt_id, {})]; when the engine took the job and the
    push channel gave no result, the handler answers 500 with the text
    of that exception. *)
Theorem history_not_a_mapping (p : process) (e : env)
    (image : image_data) (prompt negative_prompt : string) (w : world)
    (h : nat) (output_id pid body : string)
    (q : list (string * json)) (reply : json) :
  let injected := inject_parameters p e image prompt negative_prompt w in
  fst injected = Ok (Injected h output_id) ->
  fst (queue_prompt p e h (snd injected)) = Ok (JDict q) ->
  dict_get "prompt_id" q = Some (JStr pid) ->
  push_silent e output_id = true ->
  history_reply e = Ok body ->
  json_loads_text body = Ok reply ->
  is_dict reply = false ->
  (forall w0,
      fst (poll_history p e (JStr pid) output_id w0)
      = Raise (no_attribute reply "get"))
  /\ fst (generate_video p e image prompt negative_prompt w)
     = Ok (JSONResponse 500
             (error_content
                ("'" ++ type_name reply ++ "' object has no attribute 'get'"))).
Proof.
  intros injected Hi Hq Hp Hs Hb Hr Hd.
  assert (Hpoll : forall w0,
             fst (poll_history p e (JStr pid) output_id w0)
             = Raise (no_attribute reply "get")).
  { intros w0. unfold poll_history.
    rewrite !fst_bind. cbn [print emit fst snd].
    rewrite (get_history_reply p e (JStr pid) body reply _ Hb Hr).
    cbv beta iota. rewrite fst_bind.
    destruct reply; try discriminate Hd; reflexivity. }
  split; [exact Hpoll|].
  destruct (generate_video_after_fallback p e image prompt negative_prompt
              w h output_id pid q Hi Hq Hp
              (fst_watch_push_silent p e output_id _ Hs)) as [-> _].
  now rewrite Hpoll.
Qed.

Lemma history_not_a_mapping_witness :
  let e := sample_env slow_progress (JList []) in
  (forall w0,
      fst (poll_history sample_process e (JStr "job-1") "5" w0)
      = Raise (no_attribute (JList []) "get"))
  /\ fst (generate_video sample_process e sample_image "a cat" EmptyString
            (sample_world sample_template))
     = Ok (JSONResponse 500
             (error_content "'list' object has no attribute 'get'")).
Proof.
  cbn zeta.
  apply (history_not_a_mapping sample_process
           (sample_env slow_progress (JList []))
           sample_image "a cat" EmptyString (sample_world sample_template)
           2%nat "5" "job-1" (json_dumps (JList []))
           [("prompt_id", JStr "job-1")] (JList []));
    vm_compute; reflexivity.
Defined.

(** ** The calls of a request, in their order *)

Lemma calls_app (l l' : list event) : calls (l ++ l') = (calls l ++ calls l')%list.
Proof. apply filter_app. Qed.

Lemma calls_prints (l : list event) : forallb is_print l = true -> calls l = [].
Proof.
  induction l as [|ev l IH]; [reflexivity|]. cbn [forallb calls filter].
  intros H. apply andb_prop in H. destruct H as [-> H]. now apply IH.
Qed.

Lemma calls_upload_events (p : process) (e : env) (image : image_data) :
  calls (upload_events p e image) = upload_events p e image.
Proof.
  unfold upload_events. destruct image as [f c b|text]; [reflexivity|].
  destruct (b64decode e text); reflexivity.
Qed.

Lemma extend_extend (w : world) (l l' : list event) :
  extend (extend w l) l' = extend w (l ++ l').
Proof. unfold extend. cbn. now rewrite app_assoc. Qed.

(** The world after a passed-over arrival. *)
Lemma note_arrival_world (p : process) (target : string) (a : arrival)
    (w : world) :
  passed_over target a = true ->
  exists prints,
    note_arrival p a w = (Ok tt, extend w (EWsRecv (gap_of a) :: prints))
    /\ forallb is_print prints = true.
Proof.
  intros Ha. unfold note_arrival, bind, emit, extend.
  destruct a as [gap [|] data|]; try discriminate.
  - cbn in Ha. destruct (json_loads_text data) as [message|].
    + unfold when, print, emit, ret. destruct (VERBOSE p); cbn.
      * exists [EPrint (LogReceived message)]. rewrite <- app_assoc.
        now split.
      * exists []. now split.
    + exists []. now split.
  - exists []. now split.
Qed.

(** The loop at an [executed] event for the target: value and world. *)
Lemma listen_executed_world (p : process) (ws : nat) (target : string)
    (a : arrival) (rest : list arrival) (w : world) (output : json)
    (r : option string) :
  executed_output target a = Some output ->
  parse_video_path_from_output output = Ok r ->
  exists prints,
    listen p ws target (a :: rest) w
    = (Ok r, extend w (EWsRecv (gap_of a) :: prints))
    /\ forallb is_print prints = true.
Proof.
  destruct a as [gap [|] data|]; try discriminate.
  cbn [executed_output listen gap_of].
  destruct (Z.ltb_spec (Z.of_N gap) ws_timeout) as [Hlt|]; [|discriminate].
  destruct (Z.leb_spec ws_timeout (Z.of_N gap)) as [|_]; [lia|].
  destruct (json_loads_text data) as [[| | | | | |m]|] eqn:Hm;
    try discriminate.
  destruct (dict_get "type" m) as [type|] eqn:Ht; [|discriminate].
  destruct (dict_get "data" m) as [[| | | | | |d]|] eqn:Hd; try discriminate.
  destruct (eq_str type "executed") eqn:Hx; [|discriminate].
  destruct (dict_get "node" d) as [node|] eqn:Hn; [|discriminate].
  destruct (eq_str node target) eqn:Hnode; [|discriminate].
  intros H Hr. injection H as <-.
  unfold bind, emit, lift, when, print, ret, py_get, extend.
  destruct (VERBOSE p); cbn; rewrite Ht, Hx, Hd; cbn;
    rewrite Hn, Hnode; cbn; rewrite Hr.
  - eexists [_; _]. rewrite <- !app_assoc. now split.
  - exists []. now split.
Qed.

(** The loop over events that are passed over, up to the [executed]
    event for the target: the frames are read one by one, no object or
    socket changes. *)
Lemma listen_path (p : process) (ws : nat) (target : string)
    (before after : list arrival) (a : arrival) (w : world)
    (output : json) (r : option string) :
  forallb (passed_over target) before = true ->
  executed_output target a = Some output ->
  parse_video_path_from_output output = Ok r ->
  exists evs,
    listen p ws target (before ++ a :: after) w = (Ok r, extend w evs)
    /\ calls evs = reads (before ++ [a]).
Proof.
  intros Hb Hx Hr. revert w. induction before as [|b before IH]; intros w.
  - cbn [app].
    destruct (listen_executed_world p ws target a after w output r Hx Hr)
      as (prints & -> & Hp).
    eexists. split; [reflexivity|].
    cbn [calls filter is_print negb app reads map].
    f_equal. now apply calls_prints.
  - cbn [forallb] in Hb. apply andb_prop in Hb. destruct Hb as [Hb0 Hb].
    cbn [app]. rewrite (listen_passed_over p ws target b _ w Hb0).
    destruct (note_arrival_world p target b w Hb0) as (prints & Hn & Hp).
    rewrite (bind_ok _ _ _ _ _ Hn).
    destruct (IH Hb (extend w (EWsRecv (gap_of b) :: prints)))
      as (evs & -> & Hc).
    eexists. split; [now rewrite extend_extend|].
    cbn [app]. cbn [calls filter is_print negb reads map].
    f_equal. fold (calls (prints ++ evs)).
    rewrite calls_app, (calls_prints prints Hp). exact Hc.
Qed.

Lemma replace_nth_snoc {A} (l : list A) (x y : A) :
  replace_nth (length l) x (l ++ [y]) = (l ++ [x])%list.
Proof. induction l as [|z l IH]; cbn; [reflexivity | now rewrite IH]. Qed.

Lemma nth_snoc {A} (l : list A) (x d : A) : nth (length l) (l ++ [x]) d = x.
Proof. induction l as [|z l IH]; cbn; [reflexivity | exact IH]. Qed.

(** The push phase that meets the [executed] event for the target:
    the socket is made, connected, read and closed. *)
Lemma watch_push_path (p : process) (e : env) (target : string)
    (before after : list arrival) (a : arrival) (w : world)
    (output : json) (r : option string) :
  ws_connect e = Ok tt ->
  ws_arrivals e = (before ++ a :: after)%list ->
  forallb (passed_over target) before = true ->
  executed_output target a = Some output ->
  parse_video_path_from_output output = Ok r ->
  exists evs,
    watch_push p e target w
    = (Ok (Some r),
       {| store := store w; sockets := sockets w ++ [false];
          trace := trace w ++ evs |})
    /\ calls evs
       = (EWsConnect (server_address p) (client_id p)
            :: reads (before ++ [a]) ++ [EWsClose])%list.
Proof.
  intros Hc Ha Hb Hx Hr.
  unfold watch_push, bind at 1, new_socket, try_finally, try_except.
  unfold when, print. unfold bind at 1 2 3 4, emit at 1 2, lift at 1,
    set_connected at 1.
  rewrite Hc, Ha.
  destruct (VERBOSE p); cbn [fst snd store sockets trace ret];
    rewrite replace_nth_snoc;
    match goal with
    | |- context [bind (listen p ?ws target ?arr) ?f ?W] =>
        destruct (listen_path p ws target before after a W output r
                    Hb Hx Hr) as (evs & Hl & Hcalls);
          rewrite (bind_ok _ f _ _ _ Hl)
    end;
    unfold bind, ret, connected, emit, set_connected, extend;
    cbn [fst snd store sockets trace];
    rewrite nth_snoc; cbn [fst snd store sockets trace];
    rewrite replace_nth_snoc.
  - exists (EPrint LogConnecting
              :: EWsConnect (server_address p) (client_id p)
              :: evs ++ [EWsClose])%list.
    split.
    + rewrite <- !app_assoc. reflexivity.
    + cbn [calls filter is_print negb].
      fold (calls (evs ++ [EWsClose])). rewrite calls_app, Hcalls.
      reflexivity.
  - exists (EWsConnect (server_address p) (client_id p)
              :: evs ++ [EWsClose])%list.
    split.
    + rewrite <- !app_assoc. reflexivity.
    + cbn [calls filter is_print negb].
      fold (calls (evs ++ [EWsClose])). rewrite calls_app, Hcalls.
      reflexivity.
Qed.

Lemma set_input_snoc (l : list json) (g : json) (ss : list bool)
    (tr : list event) (node_id field : string) (x : json) :
  has_inputs g node_id = true ->
  set_input (length l) node_id field x
    {| store := l ++ [g]; sockets := ss; trace := tr |}
  = (Ok tt, {| store := l ++ [write_input g node_id field x];
               sockets := ss; trace := tr |}).
Proof.
  intros Hi. rewrite (set_input_ok _ node_id field x g).
  - cbn [store sockets trace]. now rewrite replace_nth_snoc.
  - apply nth_error_alloc.
  - exact Hi.
Qed.

(** The injection on a template with its four required nodes: the
    world it leaves. *)
Lemma inject_parameters_world (p : process) (e : env) (image : image_data)
    (prompt negative_prompt : string) (w : world) (template g name : json)
    (i1 i2 i3 i4 : string) (k : option string) :
  nth_error (store w) (workflow_api_json p) = Some template ->
  json_loads (JStr (json_dumps template)) = Ok g ->
  find_node_id g (Some "load_image") None = Ok (Some i1) ->
  find_node_id g (Some "positive_prompt") None = Ok (Some i2) ->
  find_node_id g (Some "negative_prompt") None = Ok (Some i3) ->
  find_node_id g (Some "output_paths") None = Ok (Some i4) ->
  find_node_id g None (Some "KSampler") = Ok k ->
  i1 <> EmptyString -> i2 <> EmptyString ->
  i3 <> EmptyString -> i4 <> EmptyString ->
  (forall w0, fst (upload_image p e image w0) = Ok name) ->
  has_inputs g i1 = true -> has_inputs g i2 = true ->
  has_inputs g i3 = true ->
  (forall ks, k = Some ks -> has_inputs g ks = true) ->
  exists prints,
    inject_parameters p e image prompt negative_prompt w
    = (Ok (Injected (length (store w)) i4),
       {| store := store w
                   ++ [injected_graph e g i1 i2 i3 k name prompt
                         negative_prompt];
          sockets := sockets w;
          trace := trace w ++ upload_events p e image ++ prints |})
    /\ forallb is_print prints = true.
Proof.
  intros Ht Hg H1 H2 H3 H4 Hk N1 N2 N3 N4 Hup I1 I2 I3 Ik.
  unfold inject_parameters.
  rewrite (bind_ok _ _ w w template) by now apply load_ok.
  rewrite (bind_ok _ _ w w g) by (unfold lift; now rewrite Hg).
  set (h := length (store w)).
  set (w1 := {| store := store w ++ [g]; sockets := sockets w;
                trace := trace w |}).
  rewrite (bind_ok _ _ w w1 h) by reflexivity.
  assert (Hw1 : nth_error (store w1) h = Some g) by apply nth_error_alloc.
  rewrite (bind_ok _ _ w1 w1 (Some i1))
    by (rewrite (find_node_id_at_ok _ g) by exact Hw1; now rewrite H1).
  rewrite (bind_ok _ _ w1 w1 (Some i2))
    by (rewrite (find_node_id_at_ok _ g) by exact Hw1; now rewrite H2).
  rewrite (bind_ok _ _ w1 w1 (Some i3))
    by (rewrite (find_node_id_at_ok _ g) by exact Hw1; now rewrite H3).
  rewrite (bind_ok _ _ w1 w1 (Some i4))
    by (rewrite (find_node_id_at_ok _ g) by exact Hw1; now rewrite H4).
  rewrite (bind_ok _ _ w1 w1 k)
    by (rewrite (find_node_id_at_ok _ g) by exact Hw1; now rewrite Hk).
  assert (Hall : forallb truthy_opt [Some i1; Some i2; Some i3; Some i4]
                 = true).
  { cbn. apply String.eqb_neq in N1, N2, N3, N4.
    now rewrite N1, N2, N3, N4. }
  rewrite Hall. cbn [negb].
  assert (Hu : upload_image p e image w1
               = (Ok name, extend w1 (upload_events p e image))).
  { rewrite (surjective_pairing (upload_image p e image w1)).
    now rewrite Hup, upload_image_world. }
  rewrite (bind_ok _ _ _ _ _ Hu). unfold extend, w1, h.
  cbn [store sockets trace].
  rewrite (bind_ok _ _ _ _ tt (set_input_snoc _ g _ _ i1 "image" name I1)).
  set (g1 := write_input g i1 "image" name).
  rewrite (bind_ok _ _ _ _ tt
             (set_input_snoc _ g1 _ _ i2 "text" (JStr prompt)
                (has_inputs_write g i1 "image" name i2 I2))).
  set (g2 := write_input g1 i2 "text" (JStr prompt)).
  rewrite (bind_ok _ _ _ _ tt
             (set_input_snoc _ g2 _ _ i3 "text" (JStr negative_prompt)
                (has_inputs_write g1 i2 "text" (JStr prompt) i3
                   (has_inputs_write g i1 "image" name i3 I3)))).
  set (g3 := write_input g2 i3 "text" (JStr negative_prompt)).
  unfold injected_graph. fold g1 g2 g3.
  destruct k as [ks|].
  - cbn [truthy_opt]. destruct (String.eqb ks EmptyString) eqn:Eks.
    + cbn [negb]. unfold when, bind, print, emit, ret.
      destruct (VERBOSE p); cbn.
      * eexists [_]. now rewrite <- app_assoc.
      * exists []. now rewrite app_nil_r.
    + cbn [negb]. rewrite bind_assoc.
      rewrite (bind_ok _ _ _ _ tt
                 (set_input_snoc _ g3 _ _ ks "seed" _
                    (has_inputs_write g2 i3 "text" (JStr negative_prompt) ks
                       (has_inputs_write g1 i2 "text" (JStr prompt) ks
                          (has_inputs_write g i1 "image" name ks
                             (Ik ks eq_refl)))))).
      unfold when, bind, print, emit, ret.
      destruct (VERBOSE p); cbn.
      * eexists [_]. now rewrite <- app_assoc.
      * exists []. now rewrite app_nil_r.
  - unfold when, bind, print, emit, ret.
    destruct (VERBOSE p); cbn.
    + eexists [_]. now rewrite <- app_assoc.
    + exists []. now rewrite app_nil_r.
Qed.

Lemma queue_prompt_submits (p : process) (e : env) (h : nat) (w : world)
    (g v : json) (body : string) :
  nth_error (store w) h = Some g ->
  prompt_reply e = Ok body -> json_loads_text body = Ok v ->
  queue_prompt p e h w
  = (Ok v,
     extend w
       [ESubmit (server_address p)
          (json_dumps
             (JDict [("prompt", g); ("client_id", JStr (client_id p))]))]).
Proof.
  intros Hg Hb Hv.
  unfold queue_prompt, try_except, bind, load, emit, lift.
  now rewrite Hg, Hb, Hv.
Qed.

(** X23: the calls of a request that the push channel completes, in
    their order, whatever is printed between them: the upload of the
    image, the submission of the injected graph with the identifier of
    the process, the opening of the channel, one read for each event
    up to the [executed] event of the output node, and the closing of
    the channel.  The channel is opened only after the submission; no
    history is asked for.  The answer is the one for the path the
    extractor reads from the payload of that event: 200 with the path
    when it is non-empty and can be encoded as UTF-8, and 500 with the
    text of the exception when building the response raises. *)
Theorem success_path_calls (p : process) (e : env) (image : image_data)
    (prompt negative_prompt : string) (w : world) (template g name : json)
    (i1 i2 i3 i4 body : string) (k : option string)
    (q : list (string * json)) (pid output : json)
    (before after : list arrival) (a : arrival) (r : option string) :
  let run := generate_video p e image prompt negative_prompt w in
  let submitted :=
    injected_graph e g i1 i2 i3 k name prompt negative_prompt in
  nth_error (store w) (workflow_api_json p) = Some template ->
  json_loads (JStr (json_dumps template)) = Ok g ->
  find_node_id g (Some "load_image") None = Ok (Some i1) ->
  find_node_id g (Some "positive_prompt") None = Ok (Some i2) ->
  find_node_id g (Some "negative_prompt") None = Ok (Some i3) ->
  find_node_id g (Some "output_paths") None = Ok (Some i4) ->
  find_node_id g None (Some "KSampler") = Ok k ->
  i1 <> EmptyString -> i2 <> EmptyString ->
  i3 <> EmptyString -> i4 <> EmptyString ->
  (forall w0, fst (upload_image p e image w0) = Ok name) ->
  has_inputs g i1 = true -> has_inputs g i2 = true ->
  has_inputs g i3 = true ->
  (forall ks, k = Some ks -> has_inputs g ks = true) ->
  prompt_reply e = Ok body ->
  json_loads_text body = Ok (JDict q) ->
  dict_get "prompt_id" q = Some pid ->
  ws_connect e = Ok tt ->
  ws_arrivals e = (before ++ a :: after)%list ->
  forallb (passed_over i4) before = true ->
  executed_output i4 a = Some output ->
  parse_video_path_from_output output = Ok r ->
  fst run = Ok (caught (respond r))
  /\ (forall path,
        r = Some path -> path <> EmptyString -> encodable path = true ->
        fst run
        = Ok (JSONResponse 200
                (JDict [("generated_video_path", JStr path)])))
  /\ exists evs,
       trace (snd run) = (trace w ++ evs)%list
       /\ calls evs
          = (upload_events p e image
             ++ ESubmit (server_address p)
                  (json_dumps
                     (JDict [("prompt", submitted);
                             ("client_id", JStr (client_id p))]))
             :: EWsConnect (server_address p) (client_id p)
             :: reads (before ++ [a]) ++ [EWsClose])%list.
Proof.
  intros run submitted Ht Hg H1 H2 H3 H4 Hk N1 N2 N3 N4 Hup I1 I2 I3 Ik
    Hbody Hq Hp Hc Ha Hb Hx Hr.
  destruct (inject_parameters_world p e image prompt negative_prompt w
              template g name i1 i2 i3 i4 k
              Ht Hg H1 H2 H3 H4 Hk N1 N2 N3 N4 Hup I1 I2 I3 Ik)
    as (prints & Hinj & Hprints).
  fold submitted in Hinj.
  assert (Hrun :
    exists w' evs,
      run = (Ok (caught (respond r)), w')
      /\ trace w' = (trace w ++ evs)%list
      /\ calls evs
         = (upload_events p e image
            ++ ESubmit (server_address p)
                 (json_dumps
                    (JDict [("prompt", submitted);
                            ("client_id", JStr (client_id p))]))
            :: EWsConnect (server_address p) (client_id p)
            :: reads (before ++ [a]) ++ [EWsClose])%list).
  { unfold run, generate_video, try_except.
    rewrite (bind_ok _ _ _ _ _ Hinj). unfold submit_and_wait.
    match type of Hinj with
    | _ = (_, ?W) => set (w1 := W) in *
    end.
    assert (Hw1 : nth_error (store w1) (length (store w)) = Some submitted)
      by apply nth_error_alloc.
    rewrite (bind_ok _ _ _ _ _
               (queue_prompt_submits p e _ w1 submitted (JDict q) body
                  Hw1 Hbody Hq)).
    rewrite (dict_get_nonempty _ _ _ Hp).
    unfold lift at 1, py_contains, has_key. rewrite Hp.
    unfold bind at 1. cbn [negb].
    unfold lift at 1, py_getitem. rewrite Hp. unfold bind at 1.
    unfold get_final_video_path. rewrite bind_assoc.
    match goal with
    | |- context [bind (watch_push p e i4) ?f ?W] =>
        destruct (watch_push_path p e i4 before after a W output r
                    Hc Ha Hb Hx Hr) as (evs & Hpush & Hcalls);
          rewrite (bind_ok _ f _ _ _ Hpush)
    end.
    unfold ret at 1, bind at 1. unfold lift.
    destruct (respond r) as [resp|ex]; cbn [caught].
    - eexists. eexists. split; [reflexivity|].
      unfold extend, w1. cbn [store sockets trace]. split.
      + rewrite <- !app_assoc. reflexivity.
      + rewrite !calls_app, calls_upload_events,
          (calls_prints prints Hprints), Hcalls.
        reflexivity.
    - unfold bind, print, emit, ret. eexists. eexists.
      split; [reflexivity|].
      unfold extend, w1. cbn [store sockets trace]. split.
      + rewrite <- !app_assoc. reflexivity.
      + rewrite !calls_app, calls_upload_events,
          (calls_prints prints Hprints), Hcalls.
        cbn [calls filter is_print negb]. now rewrite app_nil_r. }
  destruct Hrun as (w' & evs & -> & Htrace & Hcalls).
  split; [reflexivity|]. split; [|exists evs; now split].
  intros path -> Hne Henc. cbn [fst].
  now rewrite (proj1 (respond_encodable path Hne) Henc).
Qed.

Lemma success_path_calls_witness :
  let e := sample_env [Frame 2 true progress_message;
                       Frame 5 true (executed_message "5" scenario_b_payload)]
             history_without_entry in
  let w := sample_world sample_template in
  let run := generate_video sample_process e sample_image "a cat"
               "blurry" w in
  let submitted :=
    injected_graph e sample_template "1" "2" "3" (Some "4")
      (JStr "image.png") "a cat" "blurry" in
  fst run = Ok (caught (respond (Some "/out/video.mp4")))
  /\ (forall path,
        Some "/out/video.mp4" = Some path ->
        path <> EmptyString -> encodable path = true ->
        fst run
        = Ok (JSONResponse 200
                (JDict [("generated_video_path", JStr path)])))
  /\ exists evs,
       trace (snd run) = (trace w ++ evs)%list
       /\ calls evs
          = (upload_events sample_process e sample_image
             ++ ESubmit (server_address sample_process)
                  (json_dumps
                     (JDict [("prompt", submitted);
                             ("client_id",
                              JStr (client_id sample_process))]))
             :: EWsConnect (server_address sample_process)
                  (client_id sample_process)
             :: reads ([Frame 2 true progress_message]
                       ++ [Frame 5 true
                             (executed_message "5" scenario_b_payload)])
                ++ [EWsClose])%list.
Proof.
  cbn zeta.
  apply (success_path_calls sample_process _ sample_image "a cat" "blurry"
           (sample_world sample_template) sample_template sample_template
           (JStr "image.png") "1" "2" "3" "5"
           (json_dumps (JDict [("prompt_id", JStr "job-1")]))
           (Some "4") [("prompt_id", JStr "job-1")] (JStr "job-1")
           scenario_b_payload [Frame 2 true progress_message] []
           (Frame 5 true (executed_message "5" scenario_b_payload))
           (Some "/out/video.mp4"));
    try (vm_compute; reflexivity); try discriminate.
  intros ks H. injection H as <-. reflexivity.
Defined.
(** ** The scoping identifier *)

Lemma settled_ret {A} (a : A) : settled (ret a).
Proof. intros w. reflexivity. Qed.

Lemma settled_raise {A} (e : exn) : settled (@raise A e).
Proof. intros w. reflexivity. Qed.

Lemma settled_lift {A} (r : result A) : settled (lift r).
Proof. intros w. reflexivity. Qed.

Lemma settled_emit (ev : event) : settled (emit ev).
Proof. intros w. reflexivity. Qed.

Lemma settled_print (line : log_line) : settled (print line).
Proof. intros w. reflexivity. Qed.

Lemma settled_load (h : nat) : settled (load h).
Proof. intros w. unfold load. now destruct (nth_error (store w) h). Qed.

Lemma settled_put (h : nat) (v : json) : settled (put h v).
Proof. intros w. cbn. apply length_replace_nth. Qed.

Lemma settled_when (b : bool) (m : M unit) : settled m -> settled (when b m).
Proof. intros Hm. destruct b; [exact Hm | apply settled_ret]. Qed.

Lemma settled_bind {A B} (m : M A) (f : A -> M B) :
  settled m -> (forall a, settled (f a)) -> settled (bind m f).
Proof.
  intros Hm Hf w. unfold bind. specialize (Hm w).
  destruct (m w) as [[a|e] w1]; cbn in Hm |- *; [|exact Hm].
  now rewrite Hf.
Qed.

Ltac settled_step :=
  first
    [ apply settled_ret | apply settled_raise | apply settled_lift
    | apply settled_emit | apply settled_print | apply settled_load
    | apply settled_put | apply settled_when
    | apply settled_bind; [|intros ?]
    | match goal with
      | |- settled (if ?b then _ else _) => destruct b
      | |- settled (match ?x with _ => _ end) => destruct x
      end ].

Lemma settled_set_input (h : nat) (node_id field : string) (x : json) :
  settled (set_input h node_id field x).
Proof. unfold set_input. repeat settled_step. Qed.

Lemma settled_find_node_id_at (h : nat) (t k : option string) :
  settled (find_node_id_at h t k).
Proof. unfold find_node_id_at. repeat settled_step. Qed.

Lemma settled_upload_image (p : process) (e : env) (image : image_data) :
  settled (upload_image p e image).
Proof. unfold upload_image. repeat settled_step. Qed.

(** The graph the injection hands on is an object of the store. *)
Lemma inject_parameters_object (p : process) (e : env) (image : image_data)
    (prompt negative_prompt : string) (w : world) (h : nat)
    (output_id : string) :
  let injected := inject_parameters p e image prompt negative_prompt w in
  fst injected = Ok (Injected h output_id) ->
  exists g, nth_error (store (snd injected)) h = Some g.
Proof.
  intros injected H. apply pair_of_fst in H. fold injected.
  set (w1 := snd injected) in *. unfold injected in H.
  pose proof (inject_parameters_fresh _ _ _ _ _ _ _ _ _ H) as Hh.
  assert (Hlen : length (store w1) = S (length (store w))).
  { unfold inject_parameters in H.
    apply bind_ok_inv in H. destruct H as (template & wa & Ha & H).
    apply bind_ok_inv in H. destruct H as (copy & wb & Hb & H).
    apply bind_ok_inv in H. destruct H as (h' & wc & Hc & H).
    apply load_ok_inv in Ha. destruct Ha as [-> _].
    apply lift_ok_inv in Hb. destruct Hb as [-> _].
    unfold alloc in Hc. inversion Hc as [[Hh' Hwc]]. clear Hc.
    subst h' wc.
    match type of H with
    | ?m ?w0 = _ =>
        assert (Hs : settled m);
          [|specialize (Hs w0); rewrite H in Hs; cbn [snd] in Hs;
            rewrite Hs; cbn [store]; rewrite length_app; cbn; lia]
    end.
    cbv zeta.
    repeat first
      [ apply settled_find_node_id_at | apply settled_upload_image
      | apply settled_set_input | settled_step ]. }
  destruct (nth_error (store w1) h) as [g|] eqn:Hg; [now exists g|].
  apply nth_error_None in Hg. lia.
Qed.

(** What [queue_prompt] adds to the trace: the submission, then at
    most the line of its handler. *)
Lemma queue_prompt_run (p : process) (e : env) (h : nat) (w : world)
    (g : json) :
  nth_error (store w) h = Some g ->
  exists v prints,
    queue_prompt p e h w
    = (Ok v,
       extend w
         (ESubmit (server_address p)
            (json_dumps
               (JDict [("prompt", g); ("client_id", JStr (client_id p))]))
          :: prints))
    /\ forallb is_print prints = true.
Proof.
  intros Hg.
  unfold queue_prompt, try_except, bind, load, lift, emit, print, ret, extend.
  rewrite Hg. cbn -[json_dumps].
  destruct (prompt_reply e) as [body|ex]; cbn -[json_dumps];
    [destruct (json_loads_text body) as [v|ex]; cbn -[json_dumps]|].
  - exists v, []. now split.
  - exists JNull, [EPrint (LogQueueError ex)]. rewrite <- app_assoc.
    now split.
  - exists JNull, [EPrint (LogQueueError ex)]. rewrite <- app_assoc.
    now split.
Qed.

(** The events of the push phase begin with the opening of the
    channel, under the identifier of the process. *)
Lemma watch_push_opening (p : process) (e : env) (target : string)
    (w : world) :
  exists prints rest,
    trace (snd (watch_push p e target w))
    = (trace w ++ prints
         ++ EWsConnect (server_address p) (client_id p) :: rest)%list
    /\ forallb is_print prints = true.
Proof.
  unfold watch_push. unfold bind at 1, new_socket.
  set (ws := length (sockets w)).
  set (w1 := {| store := store w; sockets := (sockets w ++ [false])%list;
                trace := trace w |}).
  set (opening := EWsConnect (server_address p) (client_id p)).
  set (rest_of_try :=
         (lift (ws_connect e) ;;
          set_connected ws true ;;
          r <- listen p ws target (ws_arrivals e) ;;
          ret (Some r))%M).
  set (handler := fun ex : exn =>
         (match exn_cls ex with
          | WebSocketTimeoutException => print LogWebSocketTimedOut
          | _ => print (LogWebSocketError ex)
          end ;;
          ret (@None (option string)))%M).
  set (cleanup := (c <- connected ws ;;
                   when c (emit EWsClose ;; set_connected ws false))%M).
  set (prints := if VERBOSE p then [EPrint LogConnecting] else []).
  assert (Hstart :
    try_finally
      (try_except
         (when (VERBOSE p) (print LogConnecting) ;;
          emit opening ;; rest_of_try)%M handler) cleanup w1
    = try_finally (try_except rest_of_try handler) cleanup
        (extend w1 (prints ++ [opening]))).
  { unfold try_finally, try_except, bind at 1 2, when, print, emit, ret,
      extend, prints.
    destruct (VERBOSE p); cbn [fst snd store sockets trace app].
    - now rewrite <- app_assoc.
    - reflexivity. }
  rewrite Hstart.
  destruct (safe_events (fun _ => True)
              (try_finally (try_except rest_of_try handler) cleanup)
              (extend w1 (prints ++ [opening]))) as (rest & Hrest & _).
  { apply safe_try_finally; [apply safe_try_except|].
    - unfold rest_of_try.
      repeat first
        [ apply safe_bind; [|intros ?] | apply safe_lift | apply safe_ret
        | apply safe_set_connected; apply Nat.le_0_l
        | apply safe_listen; auto using Nat.le_0_l ].
    - intros ex. unfold handler.
      apply safe_bind; [|intros ?; apply safe_ret].
      destruct (exn_cls ex); apply safe_print; auto.
    - unfold cleanup.
      apply safe_bind; [apply safe_connected | intros c].
      apply safe_when. apply safe_bind; [now apply safe_emit | intros ?].
      apply safe_set_connected. apply Nat.le_0_l. }
  exists prints, rest. split.
  - rewrite Hrest. unfold extend, w1. cbn [trace].
    now rewrite <- !app_assoc.
  - unfold prints. now destruct (VERBOSE p).
Qed.

(** So do the events of [get_final_video_path]. *)
Lemma get_final_video_path_opening (p : process) (e : env) (prompt_id : json)
    (target : string) (w : world) :
  exists prints rest,
    trace (snd (get_final_video_path p e prompt_id target w))
    = (trace w ++ prints
         ++ EWsConnect (server_address p) (client_id p) :: rest)%list
    /\ forallb is_print prints = true.
Proof.
  destruct (watch_push_opening p e target w) as (prints & rest & Ht & Hp).
  unfold get_final_video_path, bind.
  destruct (watch_push p e target w) as [[pushed|ex] w1]; cbn [snd] in Ht.
  - destruct pushed as [r|].
    + exists prints, rest. now split.
    + destruct (safe_events (fun _ => True)
                  (poll_history p e prompt_id target) w1) as (evs & Hev & _);
        [apply safe_poll_history; auto|].
      exists prints, (rest ++ evs)%list. split; [|exact Hp].
      rewrite Hev, Ht. now rewrite <- !app_assoc.
  - exists prints, rest. now split.
Qed.

Lemma try_except_bind_ok {A B} (m : M A) (f : A -> M B)
    (handler : exn -> M B) (w w1 : world) (a : A) :
  m w = (Ok a, w1) -> try_except (bind m f) handler w
                      = try_except (f a) handler w1.
Proof. intros H. unfold try_except, bind. now rewrite H. Qed.

(** A request whose graph is injected makes the submission with the
    identifier of the process, and when the engine takes the job it
    then opens the channel under that identifier. *)
Lemma generate_video_scoped_calls (p : process) (e : env)
    (image : image_data) (prompt negative_prompt : string) (w : world)
    (h : nat) (output_id : string) :
  let injected := inject_parameters p e image prompt negative_prompt w in
  fst injected = Ok (Injected h output_id) ->
  exists g before after,
    nth_error (store (snd injected)) h = Some g
    /\ trace (snd injected) = (trace w ++ before)%list
    /\ trace (snd (generate_video p e image prompt negative_prompt w))
       = (trace w ++ before
            ++ ESubmit (server_address p)
                 (json_dumps
                    (JDict [("prompt", g);
                            ("client_id", JStr (client_id p))]))
            :: after)%list
    /\ forall body q pid,
         prompt_reply e = Ok body ->
         json_loads_text body = Ok (JDict q) ->
         dict_get "prompt_id" q = Some pid ->
         exists prints rest,
           after
           = (prints
                ++ EWsConnect (server_address p) (client_id p) :: rest)%list
           /\ forallb is_print prints = true.
Proof.
  intros injected Hi.
  destruct (inject_parameters_object p e image prompt negative_prompt w h
              output_id Hi) as [g Hg].
  fold injected in Hg. apply pair_of_fst in Hi.
  destruct (safe_events (fun _ => True)
              (inject_parameters p e image prompt negative_prompt) w)
    as (before & Hb & _); [apply safe_inject_parameters; auto|].
  fold injected in Hb.
  destruct (queue_prompt_run p e h (snd injected) g Hg)
    as (v & prints & Hq & Hprints).
  set (submission :=
         ESubmit (server_address p)
           (json_dumps
              (JDict [("prompt", g); ("client_id", JStr (client_id p))])))
    in *.
  set (w2 := extend (snd injected) (submission :: prints)) in *.
  set (handler := fun ex : exn =>
         (print (LogTraceback ex) ;;
          ret (JSONResponse 500 (error_content (exn_msg ex))))%M).
  set (after_queue := fun queued_item : json =>
         (has_id <-
            (if truthy queued_item
             then lift (py_contains queued_item "prompt_id")
             else ret false) ;;
          if negb has_id then
            ret (JSONResponse 500 (error_content queue_failed))
          else
            prompt_id <- lift (py_getitem queued_item "prompt_id") ;;
            video_path <- get_final_video_path p e prompt_id output_id ;;
            lift (respond video_path))%M).
  assert (Hrun : generate_video p e image prompt negative_prompt w
                 = try_except (after_queue v) handler w2).
  { unfold generate_video. fold handler.
    rewrite (try_except_bind_ok _ _ _ _ _ _ Hi).
    unfold submit_and_wait. fold after_queue.
    now rewrite (try_except_bind_ok _ _ _ _ _ _ Hq). }
  assert (Hsafe : forall x, safe 0 0 (fun _ => True)
                              (try_except (after_queue x) handler)).
  { intros x. apply safe_try_except.
    - unfold after_queue.
      apply safe_bind;
        [destruct (truthy x); [apply safe_lift | apply safe_ret]|].
      intros has_id. destruct (negb has_id); [apply safe_ret|].
      apply safe_bind; [apply safe_lift | intros pid].
      apply safe_bind; [now apply safe_get_final_video_path | intros vp].
      apply safe_lift.
    - intros ex. unfold handler.
      apply safe_bind; [now apply safe_print | intros ?; apply safe_ret]. }
  destruct (safe_events (fun _ => True) _ w2 (Hsafe v)) as (evs & Hev & _).
  exists g, before, (prints ++ evs)%list.
  split; [exact Hg|]. split; [exact Hb|]. split.
  - rewrite Hrun, Hev. unfold w2, extend. cbn [trace]. rewrite Hb.
    rewrite <- !app_assoc. reflexivity.
  - intros body q pid Hbody Hparse Hp.
    rewrite (queue_prompt_submits p e h (snd injected) g (JDict q) body
               Hg Hbody Hparse) in Hq.
    injection Hq as <- Hw2.
    assert (prints = []) as ->.
    { apply app_inv_head in Hw2.
      destruct prints; [reflexivity | discriminate Hw2]. }
    cbn [app].
    assert (Hopen :
      exists prints' rest,
        trace (snd (try_except (after_queue (JDict q)) handler w2))
        = (trace w2 ++ prints'
             ++ EWsConnect (server_address p) (client_id p) :: rest)%list
        /\ forallb is_print prints' = true).
    { unfold try_except, after_queue.
      rewrite (dict_get_nonempty _ _ _ Hp).
      unfold lift at 1, py_contains, has_key. rewrite Hp.
      unfold bind at 1. cbn [negb].
      unfold lift at 1, py_getitem. rewrite Hp. unfold bind at 1.
      destruct (get_final_video_path_opening p e pid output_id w2)
        as (prints' & rest & Ht & Hpr).
      unfold bind at 1.
      destruct (get_final_video_path p e pid output_id w2)
        as [[vp|ex] w3]; cbn [snd] in Ht.
      - unfold lift. destruct (respond vp) as [resp|ex].
        + exists prints', rest. now split.
        + exists prints', (rest ++ [EPrint (LogTraceback ex)])%list.
          split; [|exact Hpr].
          unfold handler, bind, print, emit, ret. cbn [snd trace].
          rewrite Ht. now rewrite <- !app_assoc.
      - exists prints', (rest ++ [EPrint (LogTraceback ex)])%list.
        split; [|exact Hpr].
        unfold handler, bind, print, emit, ret. cbn [snd trace].
        rewrite Ht. now rewrite <- !app_assoc. }
    destruct Hopen as (prints' & rest & Ht & Hpr).
    rewrite Hev in Ht. apply app_inv_head in Ht.
    exists prints', rest. now split.
Qed.

(** C6: the identifier that scopes the push channel is the one value
    the process holds.  It is the text drawn when the module is loaded
    and [main] keeps it.  Every request makes its submission with it
    and opens its channel under it: [queue_prompt] puts it in the body
    it submits, [get_final_video_path] opens the channel under it
    before anything else but printing, and the handler, once the graph
    is injected, makes that submission and, when the engine takes the
    job, that opening.  In the run of any sequence of requests every
    submission and every channel opening carries it, whatever the
    request; and a request shares no object and no socket with an
    earlier one: those that existed before it are as they were. *)
Theorem client_id_shared (p : process) (requests : list request) (w : world) :
  let w' := snd (serve p requests w) in
  let submission := fun g =>
    ESubmit (server_address p)
      (json_dumps
         (JDict [("prompt", g); ("client_id", JStr (client_id p))])) in
  let opening := EWsConnect (server_address p) (client_id p) in
  (exists evs, trace w' = (trace w ++ evs)%list /\ Forall (scoped p) evs)
  /\ (exists objects, store w' = (store w ++ objects)%list)
  /\ (exists more, sockets w' = (sockets w ++ more)%list)
  /\ (forall uuid4 w0,
        match fst (load_module uuid4 w0) with
        | Ok p0 => client_id p0 = uuid4
        | Raise _ => False
        end)
  /\ (forall args file w0,
        match fst (main args file p w0) with
        | Ok (Some p') => client_id p' = client_id p
        | _ => True
        end)
  /\ (forall e h w0 g,
        nth_error (store w0) h = Some g ->
        exists v prints,
          queue_prompt p e h w0
          = (Ok v, extend w0 (submission g :: prints))
          /\ forallb is_print prints = true)
  /\ (forall e prompt_id target w0,
        exists prints rest,
          trace (snd (get_final_video_path p e prompt_id target w0))
          = (trace w0 ++ prints ++ opening :: rest)%list
          /\ forallb is_print prints = true)
  /\ (forall r w0 h output_id,
        let injected :=
          inject_parameters p (req_env r) (req_image r) (req_prompt r)
            (req_negative_prompt r) w0 in
        let run :=
          generate_video p (req_env r) (req_image r) (req_prompt r)
            (req_negative_prompt r) w0 in
        fst injected = Ok (Injected h output_id) ->
        exists g before after,
          nth_error (store (snd injected)) h = Some g
          /\ trace (snd injected) = (trace w0 ++ before)%list
          /\ trace (snd run)
             = (trace w0 ++ before ++ submission g :: after)%list
          /\ forall body q pid,
               prompt_reply (req_env r) = Ok body ->
               json_loads_text body = Ok (JDict q) ->
               dict_get "prompt_id" q = Some pid ->
               exists prints rest,
                 after = (prints ++ opening :: rest)%list
                 /\ forallb is_print prints = true).
Proof.
  cbn zeta. destruct (serve_frame p requests w) as (_ & Hs & Hk & Ht).
  rewrite firstn_all in Hs, Hk.
  apply firstn_all_prefix in Hs. apply firstn_all_prefix in Hk.
  split; [exact Ht|]. split; [exact Hs|]. split; [exact Hk|].
  split; [intros uuid4 w0; reflexivity|]. split; [|split; [|split]].
  - intros args file w0. destruct file as [text|]; [|exact I].
    unfold main, bind, print, emit, lift, alloc, when, ret. cbn.
    destruct (json_loads_text text); [|exact I].
    destruct (arg_verbose args); reflexivity.
  - intros e h w0 g. apply queue_prompt_run.
  - intros e prompt_id target w0. apply get_final_video_path_opening.
  - intros r w0 h output_id. apply generate_video_scoped_calls.
Qed.
